(** * pfsense-container-controller: the reconciliation engine

    A shallow embedding of the label translator (package [labels]), the
    pfSense REST client (package [pfsense]) and the HAProxy manager (package
    [haproxy]) of the controller, with the properties of its specification
    stated and proved over the embedding.

    Conventions.  Go strings are byte strings: [string] of the Standard
    Library, one [ascii] per byte.  Go's [int] and [time.Duration] are [Z];
    the one arithmetic operation the code performs on a duration (a product)
    has its 64-bit wrap-around written out.  A Go [error] is a value of type
    [error]; a function returning [(T, error)] returns [result T], one
    returning [error] returns [option error] ([None] is [nil]).  Remote calls
    and sleeping are effects on an explicit [World]; what the code writes to
    its logger is left out, it decides nothing. *)

From Stdlib Require Import ZArith List Bool Ascii String Lia.
Import ListNotations.
Open Scope list_scope.
Open Scope string_scope.

(** ** Errors and results *)

(** An operand of [fmt.Errorf] other than the wrapped error. *)
Inductive fmt_arg : Type :=
| ArgS (s : string)
| ArgD (n : Z).

(** [fmt.Errorf(format, args...)]; [wrapped] is the operand of the [%w] verb
    when the format has one ([None] there is a [nil] operand). *)
#[warnings="-register-all"]
Inductive error : Type :=
| Errorf (format : string) (args : list fmt_arg) (wrapped : option error).

Definition Unwrap (e : error) : option error :=
  match e with Errorf _ _ w => w end.

Definition format_of (e : error) : string :=
  match e with Errorf f _ _ => f end.

Definition args_of (e : error) : list fmt_arg :=
  match e with Errorf _ a _ => a end.

Inductive result (A : Type) : Type :=
| Ok (a : A)
| Err (e : error).
Arguments Ok {A} a.
Arguments Err {A} e.

Definition is_ok {A} (r : result A) : bool :=
  match r with Ok _ => true | Err _ => false end.

(** ** The Go library functions the code calls *)

Module GoLib.

(** Byte tests. *)
Definition byte_in (lo hi c : ascii) : bool :=
  (N_of_ascii lo <=? N_of_ascii c)%N && (N_of_ascii c <=? N_of_ascii hi)%N.

Definition is_digit (c : ascii) : bool := byte_in "0" "9" c.
Definition is_upper (c : ascii) : bool := byte_in "A" "Z" c.
Definition is_lower (c : ascii) : bool := byte_in "a" "z" c.

(** [strings.HasPrefix], returning the remainder. *)
Fixpoint strip_prefix (p s : string) : option string :=
  match p, s with
  | EmptyString, _ => Some s
  | String a p', String b s' =>
      if Ascii.eqb a b then strip_prefix p' s' else None
  | String _ _, EmptyString => None
  end.

Definition HasPrefix (s p : string) : bool :=
  match strip_prefix p s with Some _ => true | None => false end.

(** [strings.Contains]. *)
Fixpoint Contains (s sub : string) : bool :=
  HasPrefix s sub ||
  match s with
  | EmptyString => false
  | String _ t => Contains t sub
  end.

(** [strings.HasSuffix]. *)
Fixpoint HasSuffix (s suffix : string) : bool :=
  String.eqb s suffix ||
  match s with
  | EmptyString => false
  | String _ t => HasSuffix t suffix
  end.

(** [strings.Split(s, sep)] for a one-byte separator. *)
Fixpoint Split (s : string) (sep : ascii) : list string :=
  match s with
  | EmptyString => [EmptyString]
  | String c t =>
      if Ascii.eqb c sep then EmptyString :: Split t sep
      else match Split t sep with
           | [] => [String c EmptyString]
           | p :: ps => String c p :: ps
           end
  end.

(** [strings.ReplaceAll(s, old, new)] for one-byte [old] and [new]. *)
Fixpoint ReplaceAll (s : string) (old new : ascii) : string :=
  match s with
  | EmptyString => EmptyString
  | String c t =>
      String (if Ascii.eqb c old then new else c) (ReplaceAll t old new)
  end.

(** [strings.ToLower] on the bytes of the string: an ASCII capital is mapped
    to its small letter and every other byte is kept.  (Go also lowers the
    capitals outside ASCII; none of the theorems below depends on what
    [ToLower] does to a particular string.) *)
Definition lower_byte (c : ascii) : ascii :=
  if is_upper c then ascii_of_N (N_of_ascii c + 32) else c.

Fixpoint ToLower (s : string) : string :=
  match s with
  | EmptyString => EmptyString
  | String c t => String (lower_byte c) (ToLower t)
  end.

(** [strings.TrimLeft], [strings.TrimRight] and [strings.Trim] for a cutset
    of one byte. *)
Fixpoint TrimLeft (s : string) (cut : ascii) : string :=
  match s with
  | EmptyString => EmptyString
  | String c t => if Ascii.eqb c cut then TrimLeft t cut else s
  end.

Fixpoint TrimRight (s : string) (cut : ascii) : string :=
  match s with
  | EmptyString => EmptyString
  | String c t =>
      match TrimRight t cut with
      | EmptyString => if Ascii.eqb c cut then EmptyString
                       else String c EmptyString
      | t' => String c t'
      end
  end.

Definition Trim (s : string) (cut : ascii) : string :=
  TrimRight (TrimLeft s cut) cut.

(** [strconv.Atoi]: an optional sign, then one or more decimal digits, the
    value within the range of a 64-bit [int]; anything else is an error. *)
Fixpoint all_digits (s : string) : bool :=
  match s with
  | EmptyString => true
  | String c t => is_digit c && all_digits t
  end.

Fixpoint digits_value (acc : Z) (s : string) : Z :=
  match s with
  | EmptyString => acc
  | String c t =>
      digits_value (acc * 10 + Z.of_N (N_of_ascii c - N_of_ascii "0")) t
  end.

Definition Atoi (s : string) : option Z :=
  let '(neg, body) :=
    match s with
    | String "-" t => (true, t)
    | String "+" t => (false, t)
    | _ => (false, s)
    end in
  match body with
  | EmptyString => None
  | _ =>
      if all_digits body then
        let v := digits_value 0 body in
        let v := if neg then (- v)%Z else v in
        if ((- 2 ^ 63 <=? v) && (v <=? 2 ^ 63 - 1))%Z then Some v else None
      else None
  end.

(** [base64.StdEncoding.EncodeToString]. *)
Definition b64_char (n : N) : ascii :=
  if (n <? 26)%N then ascii_of_N (n + 65)
  else if (n <? 52)%N then ascii_of_N (n - 26 + 97)
  else if (n <? 62)%N then ascii_of_N (n - 52 + 48)
  else if (n =? 62)%N then "+"%char
  else "/"%char.

Fixpoint b64_encode (fuel : nat) (s : string) : string :=
  match fuel with
  | O => EmptyString
  | S fuel' =>
      match s with
      | EmptyString => EmptyString
      | String a EmptyString =>
          let x := N_of_ascii a in
          String (b64_char (x / 4))
            (String (b64_char ((x mod 4) * 16)) "==")
      | String a (String b EmptyString) =>
          let x := N_of_ascii a in
          let y := N_of_ascii b in
          String (b64_char (x / 4))
            (String (b64_char ((x mod 4) * 16 + y / 16))
               (String (b64_char ((y mod 16) * 4)) "="))
      | String a (String b (String c t)) =>
          let x := N_of_ascii a in
          let y := N_of_ascii b in
          let z := N_of_ascii c in
          String (b64_char (x / 4))
            (String (b64_char ((x mod 4) * 16 + y / 16))
               (String (b64_char ((y mod 16) * 4 + z / 64))
                  (String (b64_char (z mod 64)) (b64_encode fuel' t))))
      end
  end.

Definition EncodeToString (s : string) : string :=
  b64_encode (S (String.length s)) s.

End GoLib.
Import GoLib.


(** ** Package container: what the translator reads of a container *)

(** A Go [map[string]V] read by key and ranged over.  The list holds the
    entries in the order a [range] loop visits them, which Go leaves
    unspecified: every property below is proved for every order. *)
Definition gomap (V : Type) : Type := list (string * V).

(** The entry of [key], if the map has one. *)
Fixpoint map_get {V : Type} (m : gomap V) (key : string) : option V :=
  match m with
  | [] => None
  | (k, v) :: rest => if String.eqb k key then Some v else map_get rest key
  end.

(** The assignment [m[key] = v]. *)
Fixpoint map_set {V : Type} (m : gomap V) (key : string) (v : V) : gomap V :=
  match m with
  | [] => [(key, v)]
  | (k, v') :: rest =>
      if String.eqb k key then (k, v) :: rest
      else (k, v') :: map_set rest key v
  end.

(** The index expression [v, exists := m[key]] of a [map[string]string]. *)
Definition map_index (m : gomap string) (key : string) : string * bool :=
  match map_get m key with
  | Some v => (v, true)
  | None => (EmptyString, false)
  end.

Record NetworkInfo : Type := {
  IPAddress : string;
  Gateway : string
}.

(** [container.Info]; [Labels] is [None] for a nil map. *)
Record Info : Type := {
  info_Labels : option (gomap string);
  info_Networks : gomap NetworkInfo;
  info_ID : string;
  info_Name : string;
  info_Image : string;
  info_State : string;
  info_Status : string
}.

(** [container.GetContainerIP]: the first non-empty address met while
    ranging over the networks. *)
Fixpoint first_ip (nets : gomap NetworkInfo) : string :=
  match nets with
  | [] => EmptyString
  | (_, network) :: rest =>
      if negb (String.eqb (IPAddress network) EmptyString)
      then IPAddress network
      else first_ip rest
  end.

Definition GetContainerIP (container : Info) : string :=
  first_ip (info_Networks container).

(** ** Package pfsense: the remote object shapes *)

Record HAProxyBackendServer : Type := {
  srv_Name : string;
  srv_Address : string;
  srv_Port : string
}.

Record HAProxyBackend : Type := {
  hb_Name : string;
  hb_CheckType : string;
  hb_MonitorURI : string;
  hb_MonitorHTTPVersion : string;
  hb_AdvancedBackend : string;
  hb_Servers : list HAProxyBackendServer;
  hb_ID : Z
}.

Record HAProxyACL : Type := {
  acl_Name : string;
  acl_Expression : string;
  acl_Value : string;
  acl_ID : Z
}.

Record HAProxyAction : Type := {
  act_Action : string;
  act_ACL : string;
  act_Backend : string;
  act_ID : Z
}.

Record HAProxyFrontend : Type := {
  hf_Name : string;
  hf_HAACLs : list HAProxyACL;
  hf_ActionItems : list HAProxyAction;
  hf_ID : Z
}.

(** ** Package labels: constants and the intermediate configuration *)

Definition ControllerEnableLabel := "pfsense-controller.enable".
Definition ControllerEndpointLabel := "pfsense-controller.endpoint".
Definition ControllerBackendNameLabel := "pfsense-controller.backend.name".
Definition ControllerBackendPortLabel := "pfsense-controller.backend.port".
Definition ControllerBackendHealthCheckLabel :=
  "pfsense-controller.backend.health_check_path".
Definition ControllerBackendHealthMethodLabel :=
  "pfsense-controller.backend.health_check_method".
Definition ControllerBackendCheckTypeLabel :=
  "pfsense-controller.backend.check_type".
Definition ControllerBackendServerNameLabel :=
  "pfsense-controller.backend.server_name".
Definition ControllerFrontendNameLabel := "pfsense-controller.frontend.name".
Definition ControllerFrontendRuleLabel := "pfsense-controller.frontend.rule".
Definition ControllerFrontendACLNameLabel :=
  "pfsense-controller.frontend.acl_name".
Definition TraefikEnableLabel := "traefik.enable".
Definition TrueValue := "true".
Definition TraefikMode := "traefik".
Definition NoneValue := "none".
Definition BasicValue := "basic".
Definition HTTPValue := "http".
Definition HostMatches := "host_matches".
Definition PathBeg := "path_beg".
Definition PathValue := "path".

Record BackendConfig : Type := {
  bc_Name : string;
  bc_ServerName : string;
  bc_Port : string;
  bc_Address : string;
  bc_CheckType : string;
  bc_HealthCheckPath : string;
  bc_HealthCheckMethod : string;
  bc_HealthCheckVersion : string;
  bc_BackendPassThru : string
}.

Record FrontendConfig : Type := {
  fc_Name : string;
  fc_Rule : string;
  fc_ACLName : string
}.

Record ContainerConfig : Type := {
  cc_BackendConfig : BackendConfig;
  cc_FrontendConfig : FrontendConfig;
  cc_EndpointName : string;
  cc_ParseMode : string;
  cc_Enabled : bool
}.

(** Assignments to fields of a configuration. *)
Definition set_health (c : BackendConfig) (path method version : string)
  : BackendConfig :=
  {| bc_Name := bc_Name c; bc_ServerName := bc_ServerName c;
     bc_Port := bc_Port c; bc_Address := bc_Address c;
     bc_CheckType := bc_CheckType c;
     bc_HealthCheckPath := path; bc_HealthCheckMethod := method;
     bc_HealthCheckVersion := version;
     bc_BackendPassThru := bc_BackendPassThru c |}.

Definition set_BackendPassThru (c : BackendConfig) (v : string)
  : BackendConfig :=
  {| bc_Name := bc_Name c; bc_ServerName := bc_ServerName c;
     bc_Port := bc_Port c; bc_Address := bc_Address c;
     bc_CheckType := bc_CheckType c;
     bc_HealthCheckPath := bc_HealthCheckPath c;
     bc_HealthCheckMethod := bc_HealthCheckMethod c;
     bc_HealthCheckVersion := bc_HealthCheckVersion c;
     bc_BackendPassThru := v |}.

Definition set_ParseMode (c : ContainerConfig) (mode : string)
  : ContainerConfig :=
  {| cc_BackendConfig := cc_BackendConfig c;
     cc_FrontendConfig := cc_FrontendConfig c;
     cc_EndpointName := cc_EndpointName c;
     cc_ParseMode := mode;
     cc_Enabled := cc_Enabled c |}.

(** [getStringLabel]. *)
Definition getStringLabel (labels : gomap string) (key defaultValue : string)
  : string :=
  let '(value, exists_) := map_index labels key in
  if exists_ then value else defaultValue.

(** ** The rule expression parser *)

(** The class [\s] of Go's regexp syntax: tab, line feed, form feed,
    carriage return and space. *)
Definition is_space (c : ascii) : bool :=
  Ascii.eqb c "009" || Ascii.eqb c "010" || Ascii.eqb c "012"
  || Ascii.eqb c "013" || Ascii.eqb c " ".

(** [\s*], greedy. *)
Fixpoint skip_spaces (s : string) : string :=
  match s with
  | EmptyString => EmptyString
  | String c t => if is_space c then skip_spaces t else s
  end.

(** The longest prefix without a backtick, and the rest. *)
Fixpoint span_not_backtick (s : string) : string * string :=
  match s with
  | EmptyString => (EmptyString, EmptyString)
  | String c t =>
      if Ascii.eqb c "`" then (EmptyString, s)
      else let '(v, r) := span_not_backtick t in (String c v, r)
  end.

(** The three patterns of [parseRule] are the regular expression
    [fn\(\s*`([^`]+)`\s*\)] for [fn] among [Host], [PathPrefix] and [Path].
    [match_at fn s] matches it at the start of [s] and yields the capture
    group.  No choice is ever open in this expression: the spaces end at the
    first byte that is no space, which has to be the backtick; the group ends
    at the next backtick; so one pass decides the match. *)
Definition match_at (fn s : string) : option string :=
  match strip_prefix (fn ++ "(") s with
  | None => None
  | Some r0 =>
      match skip_spaces r0 with
      | String "`" r1 =>
          match span_not_backtick r1 with
          | (EmptyString, _) => None
          | (v, String "`" r2) =>
              match skip_spaces r2 with
              | String ")" _ => Some v
              | _ => None
              end
          | (_, _) => None
          end
      | _ => None
      end
  end.

(** [pattern.FindStringSubmatch(rule)]: the leftmost match anywhere in the
    string; the result is the capture group ([matches[1]]), [None] when
    nothing matches ([len(matches) > 1] is false). *)
Fixpoint FindStringSubmatch (fn s : string) : option string :=
  match match_at fn s with
  | Some v => Some v
  | None =>
      match s with
      | EmptyString => None
      | String _ t => FindStringSubmatch fn t
      end
  end.

(** [parseRule]. *)
Definition parseRule (rule : string) : result (string * string) :=
  match FindStringSubmatch "Host" rule with
  | Some v => Ok ("host_matches", v)
  | None =>
      match FindStringSubmatch "PathPrefix" rule with
      | Some v => Ok ("path_beg", v)
      | None =>
          match FindStringSubmatch "Path" rule with
          | Some v => Ok ("path", v)
          | None => Err (Errorf "unsupported rule format: %s" [ArgS rule] None)
          end
      end
  end.

(** ** Name sanitization *)

(** The class [[a-zA-Z0-9\-_]]. *)
Definition is_name_byte (c : ascii) : bool :=
  is_lower c || is_upper c || is_digit c
  || Ascii.eqb c "-" || Ascii.eqb c "_".

(** [reg.ReplaceAllString(name, "-")] for [reg = [^a-zA-Z0-9\-_]], byte by
    byte.  (Go replaces rune by rune, so a rune of several bytes gives one
    hyphen where this gives several; the next step merges them, and
    [sanitizeName] returns the same string either way.) *)
Fixpoint replace_invalid (s : string) : string :=
  match s with
  | EmptyString => EmptyString
  | String c t =>
      String (if is_name_byte c then c else "-"%char) (replace_invalid t)
  end.

(** [reg2.ReplaceAllString(sanitized, "-")] for [reg2 = -+]: every maximal
    run of hyphens becomes one hyphen. *)
Fixpoint collapse_hyphens (s : string) : string :=
  match s with
  | EmptyString => EmptyString
  | String c t =>
      match t with
      | String c' _ =>
          if Ascii.eqb c "-" && Ascii.eqb c' "-" then collapse_hyphens t
          else String c (collapse_hyphens t)
      | EmptyString => String c EmptyString
      end
  end.

Definition sanitizeName (name : string) : string :=
  let sanitized := replace_invalid name in
  let sanitized := collapse_hyphens sanitized in
  Trim sanitized "-".

(** [generateNameFromRule]. *)
Definition generateNameFromRule (rule : string) : string :=
  match parseRule rule with
  | Ok (expression, value) =>
      if String.eqb expression HostMatches then sanitizeName value
      else if String.eqb expression PathBeg || String.eqb expression PathValue
      then sanitizeName (ReplaceAll value "/" "-")
      else sanitizeName rule
  | Err _ => sanitizeName rule
  end.

(** ** The metadata translator: [HAProxyParser] *)

Record HAProxyParser : Type := {
  traefikCompatMode : bool
}.

Definition NewHAProxyParser (mode : bool) : HAProxyParser :=
  {| traefikCompatMode := mode |}.

(** [configureHealthCheck] assigns to the configuration it is given and
    returns an error or nil; the configuration after the call is the second
    component. *)
Definition configureHealthCheck (config : BackendConfig)
    (labels : gomap string) : option error * BackendConfig :=
  let t := ToLower (bc_CheckType config) in
  if String.eqb t NoneValue then
    (None, set_health config "" "" "")
  else if String.eqb t BasicValue then
    (None, set_health config "" "" "")
  else if String.eqb t HTTPValue then
    let path := getStringLabel labels ControllerBackendHealthCheckLabel "" in
    let config := set_health config path (bc_HealthCheckMethod config)
                    (bc_HealthCheckVersion config) in
    if String.eqb path "" then
      (Some (Errorf "health check path is required for HTTP check type (pfsense-controller.backend.health_check_path)" [] None),
       config)
    else
      let method :=
        getStringLabel labels ControllerBackendHealthMethodLabel "OPTIONS" in
      let version := "HTTP/1.1\r\nHost:\ " ++ bc_Address config in
      (None, set_health config path method version)
  else
    (Some (Errorf "invalid check type '%s', must be one of: none, basic, http"
             [ArgS (bc_CheckType config)] None),
     config).

(** [validateRequiredLabels]. *)
Definition validateRequiredLabels (labels : gomap string) : option error :=
  let backendPort := getStringLabel labels ControllerBackendPortLabel "" in
  if String.eqb backendPort "" then
    Some (Errorf "backend port is required (pfsense-controller.backend.port)"
            [] None)
  else
    let frontendRule := getStringLabel labels ControllerFrontendRuleLabel "" in
    if String.eqb frontendRule "" then
      Some (Errorf
              "frontend rule is required (pfsense-controller.frontend.rule)"
              [] None)
    else None.

(** The test both Traefik loops apply to a label key. *)
Definition is_service_port_key (key : string) : bool :=
  Contains key ".http.services."
  && HasSuffix key ".loadbalancer.server.port".

(** [validateTraefikRequiredLabels]. *)
Definition validateTraefikRequiredLabels (labels : gomap string)
  : option error :=
  let servicePortFound := existsb (fun kv => is_service_port_key (fst kv)) labels in
  if negb servicePortFound then
    Some (Errorf "Traefik service port is required (traefik.http.services.{service}.loadbalancer.server.port)" [] None)
  else
    let frontendRule := getStringLabel labels ControllerFrontendRuleLabel "" in
    if String.eqb frontendRule "" then
      Some (Errorf
              "frontend rule is required (pfsense-controller.frontend.rule)"
              [] None)
    else None.

(** [parseControllerBackendConfig]. *)
Definition parseControllerBackendConfig (containerInfo : Info)
    (labels : gomap string) : result BackendConfig :=
  let name := getStringLabel labels ControllerBackendNameLabel "" in
  let name := if String.eqb name ""
              then sanitizeName (info_Name containerInfo) ++ "-backend"
              else name in
  let serverName := getStringLabel labels ControllerBackendServerNameLabel
                      (sanitizeName (info_Name containerInfo)) in
  let port := getStringLabel labels ControllerBackendPortLabel "" in
  if String.eqb port "" then
    Err (Errorf "backend port is required" [] None)
  else
    match Atoi port with
    | None => Err (Errorf "invalid backend port: %s" [ArgS port] None)
    | Some _ =>
        let address := GetContainerIP containerInfo in
        if String.eqb address "" then
          Err (Errorf "could not determine container IP address" [] None)
        else
          let checkType :=
            getStringLabel labels ControllerBackendCheckTypeLabel "basic" in
          let config :=
            {| bc_Name := name; bc_ServerName := serverName; bc_Port := port;
               bc_Address := address; bc_CheckType := checkType;
               bc_HealthCheckPath := ""; bc_HealthCheckMethod := "";
               bc_HealthCheckVersion := ""; bc_BackendPassThru := "" |} in
          match configureHealthCheck config labels with
          | (Some err, _) =>
              Err (Errorf "failed to configure health check: %w" [] (Some err))
          | (None, config) =>
              Ok (set_BackendPassThru config
                    ("http-request set-header Host " ++ bc_Address config))
          end
    end.

(** [parseControllerFrontendConfig]. *)
Definition parseControllerFrontendConfig (labels : gomap string)
  : result FrontendConfig :=
  let name := getStringLabel labels ControllerFrontendNameLabel "" in
  let rule := getStringLabel labels ControllerFrontendRuleLabel "" in
  if String.eqb rule "" then
    Err (Errorf "frontend rule is required" [] None)
  else
    let aclName := getStringLabel labels ControllerFrontendACLNameLabel "" in
    let name := if String.eqb name ""
                then "auto-frontend-" ++ generateNameFromRule rule
                else name in
    let aclName := if String.eqb aclName ""
                   then "auto-acl-" ++ generateNameFromRule rule
                   else aclName in
    Ok {| fc_Name := name; fc_Rule := rule; fc_ACLName := aclName |}.

(** The loop of [parseTraefikBackendConfig]: the first service-port key met
    gives the port and, as the fourth dot-separated part of the key, the
    service name. *)
Fixpoint find_service_port (labels : gomap string) : string * string :=
  match labels with
  | [] => (EmptyString, EmptyString)
  | (key, value) :: rest =>
      if is_service_port_key key then
        let parts := Split key "." in
        let serviceName :=
          if (4 <=? List.length parts)%nat then nth 3 parts EmptyString
          else EmptyString in
        (value, serviceName)
      else find_service_port rest
  end.

(** [parseTraefikBackendConfig]. *)
Definition parseTraefikBackendConfig (containerInfo : Info)
    (labels : gomap string) : result BackendConfig :=
  let name := sanitizeName (info_Name containerInfo) ++ "-backend" in
  let serverName := sanitizeName (info_Name containerInfo) in
  let '(servicePort, serviceName) := find_service_port labels in
  if String.eqb servicePort "" then
    Err (Errorf "no service port found in traefik labels" [] None)
  else
    let port := servicePort in
    match Atoi port with
    | None => Err (Errorf "invalid traefik service port: %s" [ArgS port] None)
    | Some _ =>
        let address := GetContainerIP containerInfo in
        if String.eqb address "" then
          Err (Errorf "could not determine container IP address" [] None)
        else
          let name := if negb (String.eqb serviceName "")
                      then sanitizeName serviceName ++ "-backend"
                      else name in
          let checkType :=
            getStringLabel labels ControllerBackendCheckTypeLabel "basic" in
          let config :=
            {| bc_Name := name; bc_ServerName := serverName; bc_Port := port;
               bc_Address := address; bc_CheckType := checkType;
               bc_HealthCheckPath := ""; bc_HealthCheckMethod := "";
               bc_HealthCheckVersion := ""; bc_BackendPassThru := "" |} in
          match configureHealthCheck config labels with
          | (Some err, _) =>
              Err (Errorf "failed to configure health check: %w" [] (Some err))
          | (None, config) =>
              Ok (set_BackendPassThru config
                    ("http-request set-header Host " ++ bc_Address config))
          end
    end.

(** [validateConfig]. *)
Definition validateConfig (config : ContainerConfig) : option error :=
  if String.eqb (bc_Name (cc_BackendConfig config)) "" then
    Some (Errorf "backend name cannot be empty" [] None)
  else if String.eqb (bc_Port (cc_BackendConfig config)) "" then
    Some (Errorf "backend port cannot be empty" [] None)
  else if String.eqb (bc_Address (cc_BackendConfig config)) "" then
    Some (Errorf "backend address cannot be empty" [] None)
  else if String.eqb (fc_Rule (cc_FrontendConfig config)) "" then
    Some (Errorf "frontend rule cannot be empty" [] None)
  else if String.eqb (bc_CheckType (cc_BackendConfig config)) HTTPValue
          && String.eqb (bc_HealthCheckPath (cc_BackendConfig config)) "" then
    Some (Errorf "health check path is required for HTTP check type" [] None)
  else None.

(** The tail shared by [parseControllerLabels] and [parseTraefikLabels]:
    backend, then frontend, then validation. *)
Definition assemble_config (endpointName : string)
    (backend : result BackendConfig) (backendErr : string)
    (labels : gomap string) : result ContainerConfig :=
  match backend with
  | Err err => Err (Errorf backendErr [] (Some err))
  | Ok backendConfig =>
      match parseControllerFrontendConfig labels with
      | Err err =>
          Err (Errorf "failed to parse frontend config: %w" [] (Some err))
      | Ok frontendConfig =>
          let config :=
            {| cc_BackendConfig := backendConfig;
               cc_FrontendConfig := frontendConfig;
               cc_EndpointName := endpointName;
               cc_ParseMode := "";
               cc_Enabled := true |} in
          match validateConfig config with
          | Some err =>
              Err (Errorf "configuration validation failed: %w" [] (Some err))
          | None => Ok config
          end
      end
  end.

(** [parseControllerLabels]. *)
Definition parseControllerLabels (containerInfo : Info)
    (labels : gomap string) : result ContainerConfig :=
  let '(enabled, exists_) := map_index labels ControllerEnableLabel in
  if negb exists_ || negb (String.eqb enabled TrueValue) then
    Err (Errorf "controller not enabled for container" [] None)
  else
    match validateRequiredLabels labels with
    | Some err => Err (Errorf "missing required labels: %w" [] (Some err))
    | None =>
        let endpointName :=
          getStringLabel labels ControllerEndpointLabel "default" in
        assemble_config endpointName
          (parseControllerBackendConfig containerInfo labels)
          "failed to parse backend config: %w" labels
    end.

(** [parseTraefikLabels]. *)
Definition parseTraefikLabels (containerInfo : Info)
    (labels : gomap string) : result ContainerConfig :=
  let '(enabled, exists_) := map_index labels TraefikEnableLabel in
  if negb exists_ || negb (String.eqb enabled TrueValue) then
    Err (Errorf "traefik not enabled for container" [] None)
  else
    match validateTraefikRequiredLabels labels with
    | Some err =>
        Err (Errorf "missing required labels for Traefik mode: %w" []
               (Some err))
    | None =>
        let endpointName := "default" in
        assemble_config endpointName
          (parseTraefikBackendConfig containerInfo labels)
          "failed to parse traefik backend config: %w" labels
    end.

(** [HAProxyParser.ParseContainer]. *)
Definition HAProxyParser_ParseContainer (p : HAProxyParser)
    (containerInfo : Info) : result ContainerConfig :=
  match info_Labels containerInfo with
  | None => Err (Errorf "container has no labels" [] None)
  | Some labels =>
      match parseControllerLabels containerInfo labels with
      | Ok config => Ok (set_ParseMode config "controller")
      | Err _ =>
          let fallthrough :=
            Err (Errorf "no valid HAProxy labels found for container" []
                   None) in
          if traefikCompatMode p then
            match parseTraefikLabels containerInfo labels with
            | Ok config => Ok (set_ParseMode config TraefikMode)
            | Err _ => fallthrough
            end
          else fallthrough
      end
  end.

(** [ConvertToHAProxyBackend]. *)
Definition ConvertToHAProxyBackend (config : ContainerConfig)
  : HAProxyBackend :=
  let bc := cc_BackendConfig config in
  let advancedBackendB64 := EncodeToString (bc_BackendPassThru bc) in
  let servers :=
    [ {| srv_Name := bc_ServerName bc; srv_Address := bc_Address bc;
         srv_Port := bc_Port bc |} ] in
  let t := ToLower (bc_CheckType bc) in
  let '(checkType, monitorURI, monitorHTTPVersion) :=
    if String.eqb t "none" then ("", "", "")
    else if String.eqb t "basic" then ("Basic", "", "")
    else if String.eqb t "http" then
      ("HTTP", bc_HealthCheckPath bc, bc_HealthCheckVersion bc)
    else ("", "", "") in
  {| hb_Name := bc_Name bc;
     hb_CheckType := checkType;
     hb_MonitorURI := monitorURI;
     hb_MonitorHTTPVersion := monitorHTTPVersion;
     hb_AdvancedBackend := advancedBackendB64;
     hb_Servers := servers;
     hb_ID := 0 |}.

(** [ConvertToHAProxyFrontend]. *)
Definition ConvertToHAProxyFrontend (config : ContainerConfig)
  : result HAProxyFrontend :=
  match parseRule (fc_Rule (cc_FrontendConfig config)) with
  | Err err => Err (Errorf "failed to parse frontend rule: %w" [] (Some err))
  | Ok (expression, value) =>
      Ok {| hf_Name := fc_Name (cc_FrontendConfig config);
            hf_HAACLs :=
              [ {| acl_Name := fc_ACLName (cc_FrontendConfig config);
                   acl_Expression := expression;
                   acl_Value := value;
                   acl_ID := 0 |} ];
            hf_ActionItems :=
              [ {| act_Action := "use_backend";
                   act_ACL := fc_ACLName (cc_FrontendConfig config);
                   act_Backend := bc_Name (cc_BackendConfig config);
                   act_ID := 0 |} ];
            hf_ID := 0 |}
  end.

(** ** package labels: [Parser], the front of [HAProxyParser] *)

Record Parser : Type := {
  haproxyParser : HAProxyParser
}.

Definition NewParser (mode : bool) : Parser :=
  {| haproxyParser := NewHAProxyParser mode |}.

Definition Parser_ParseContainer (p : Parser) (containerInfo : Info)
  : result ContainerConfig :=
  match HAProxyParser_ParseContainer (haproxyParser p) containerInfo with
  | Ok config => Ok config
  | Err _ => Err (Errorf "no valid pfSense labels found for container" [] None)
  end.

(** ** Package config *)

Record GlobalConfig : Type := {
  LogLevel : string;
  PollInterval : Z;          (* nanoseconds *)
  RetryDelay : Z;            (* nanoseconds *)
  RetryAttempts : Z;
  HealthPort : Z;
  TraefikCompatMode : bool
}.

Record EndpointConfig : Type := {
  ep_Name : string;
  ep_URL : string;
  ep_APIKey : string;
  ep_RequestTimeout : Z;
  ep_InsecureTLS : bool
}.

Record Config : Type := {
  Endpoints : list EndpointConfig;
  Global : GlobalConfig
}.

(** [Config.GetDefaultEndpoint]. *)
Definition GetDefaultEndpoint (c : Config) : option EndpointConfig :=
  match Endpoints c with
  | e :: _ => Some e
  | [] => None
  end.

(** ** Request bodies on the wire *)

(** JSON values, as far as the request bodies of the client need them. *)
#[warnings="-register-all"]
Inductive json : Type :=
| JString (s : string)
| JNumber (n : Z)
| JArray (items : list json)
| JObject (fields : list (string * json)).

(** The struct tag [json:"id,omitempty"]: [encoding/json] leaves the field
    out when the value is the zero of its type. *)
Definition omitempty_int (key : string) (n : Z) : list (string * json) :=
  if (n =? 0)%Z then [] else [(key, JNumber n)].

Definition marshal_server (s : HAProxyBackendServer) : json :=
  JObject [("name", JString (srv_Name s));
           ("address", JString (srv_Address s));
           ("port", JString (srv_Port s))].

(** [json.Marshal] of a [HAProxyBackend], the fields in the order of the
    struct. *)
Definition marshal_backend (b : HAProxyBackend) : json :=
  JObject ([("name", JString (hb_Name b));
            ("check_type", JString (hb_CheckType b));
            ("monitor_uri", JString (hb_MonitorURI b));
            ("monitor_httpversion", JString (hb_MonitorHTTPVersion b));
            ("advanced_backend", JString (hb_AdvancedBackend b));
            ("servers", JArray (map marshal_server (hb_Servers b)))]
           ++ omitempty_int "id" (hb_ID b))%list.

Definition marshal_acl (a : HAProxyACL) : json :=
  JObject ([("name", JString (acl_Name a));
            ("expression", JString (acl_Expression a));
            ("value", JString (acl_Value a))]
           ++ omitempty_int "id" (acl_ID a))%list.

Definition marshal_action (a : HAProxyAction) : json :=
  JObject ([("action", JString (act_Action a));
            ("acl", JString (act_ACL a));
            ("backend", JString (act_Backend a))]
           ++ omitempty_int "id" (act_ID a))%list.

Definition marshal_frontend (f : HAProxyFrontend) : json :=
  JObject ([("name", JString (hf_Name f));
            ("ha_acls", JArray (map marshal_acl (hf_HAACLs f)));
            ("a_actionitems", JArray (map marshal_action (hf_ActionItems f)))]
           ++ omitempty_int "id" (hf_ID f))%list.

(** The [body interface{}] argument of [makeRequest]: nil, one of the two
    structs, or a [map[string]interface{}]. *)
Inductive Body : Type :=
| BodyNil
| BodyBackend (b : HAProxyBackend)
| BodyFrontend (f : HAProxyFrontend)
| BodyMap (fields : list (string * json)).

(** [json.Marshal(body)]; [None] when there is no body.  (The keys of a map
    are kept as the source lists them; Go writes them sorted.) *)
Definition marshal (body : Body) : option json :=
  match body with
  | BodyNil => None
  | BodyBackend b => Some (marshal_backend b)
  | BodyFrontend f => Some (marshal_frontend f)
  | BodyMap fields => Some (JObject fields)
  end.

(** A field of a JSON object. *)
Fixpoint json_field (fields : list (string * json)) (key : string)
  : option json :=
  match fields with
  | [] => None
  | (k, v) :: rest => if String.eqb k key then Some v else json_field rest key
  end.

(** The identifier a request body carries on the wire, if any. *)
Definition wire_id (body : Body) : option Z :=
  match marshal body with
  | Some (JObject fields) =>
      match json_field fields "id" with
      | Some (JNumber n) => Some n
      | _ => None
      end
  | _ => None
  end.

(** ** Requests, responses and the world *)

Record Request : Type := {
  req_method : string;
  req_url : string;
  req_body : Body
}.

(** [json.RawMessage] of the [data] field, by what it decodes to: nothing
    (an empty message), a list of backends, a list of frontends, or something
    [json.Unmarshal] refuses for either list (a list of the other kind is
    counted as refused). *)
Inductive RawMessage : Type :=
| RawEmpty
| RawBackends (l : list HAProxyBackend)
| RawFrontends (l : list HAProxyFrontend)
| RawOther.

Record APIResponse : Type := {
  resp_Status : string;
  resp_Message : string;
  resp_Data : RawMessage;
  resp_Code : Z
}.

(** What comes back over HTTP: the status line and a body that either is the
    JSON envelope or is not JSON. *)
Inductive HTTPBody : Type :=
| JSONBody (r : APIResponse)
| TextBody (raw : string).

Record HTTPResponse : Type := {
  StatusCode : Z;
  Status : string;
  RespBody : HTTPBody
}.

Definition body_text (b : HTTPBody) : string :=
  match b with
  | JSONBody r => resp_Message r
  | TextBody raw => raw
  end.

(** The state of one pfSense instance. *)
Record Remote : Type := {
  backends : list HAProxyBackend;
  frontends : list HAProxyFrontend;
  applied : nat
}.

(** What happens to one request: it reaches the remote system, which serves
    it; or the transport fails; or something on the way answers in place of
    the remote system, whose state is then unchanged. *)
Inductive Answer : Type :=
| Deliver
| Dropped (err : error)
| Respond (r : HTTPResponse).

Inductive Event : Type :=
| EvRequest (r : Request)
| EvSleep (d : Z).

(** The world the manager acts on: the remote systems by base URL, the
    answers the coming requests will get (none left: delivered), and what the
    manager did so far, oldest first. *)
Record World : Type := {
  servers : string -> Remote;
  script : list Answer;
  events : list Event
}.

Definition M (A : Type) : Type := World -> A * World.

Definition ret {A} (a : A) : M A := fun w => (a, w).

Definition bind {A B} (m : M A) (k : A -> M B) : M B :=
  fun w => let '(a, w') := m w in k a w'.

Notation "x <- m ;; k" := (bind m (fun x => k))
  (at level 61, m at next level, right associativity).

Definition emit (e : Event) : M unit :=
  fun w => (tt, {| servers := servers w; script := script w;
                   events := (events w ++ [e])%list |}).

Definition next_answer : M Answer :=
  fun w =>
    match script w with
    | [] => (Deliver, w)
    | a :: rest =>
        (a, {| servers := servers w; script := rest; events := events w |})
    end.

Definition set_server (url : string) (r : Remote) (w : World) : World :=
  {| servers := fun u => if String.eqb u url then r else servers w u;
     script := script w;
     events := events w |}.

(** ** The remote system *)

Definition set_backend_id (b : HAProxyBackend) (id : Z) : HAProxyBackend :=
  {| hb_Name := hb_Name b; hb_CheckType := hb_CheckType b;
     hb_MonitorURI := hb_MonitorURI b;
     hb_MonitorHTTPVersion := hb_MonitorHTTPVersion b;
     hb_AdvancedBackend := hb_AdvancedBackend b;
     hb_Servers := hb_Servers b; hb_ID := id |}.

Definition set_frontend_id (f : HAProxyFrontend) (id : Z) : HAProxyFrontend :=
  {| hf_Name := hf_Name f; hf_HAACLs := hf_HAACLs f;
     hf_ActionItems := hf_ActionItems f; hf_ID := id |}.

Definition add_acl (a : HAProxyACL) (f : HAProxyFrontend) : HAProxyFrontend :=
  {| hf_Name := hf_Name f; hf_HAACLs := (hf_HAACLs f ++ [a])%list;
     hf_ActionItems := hf_ActionItems f; hf_ID := hf_ID f |}.

Definition add_action (a : HAProxyAction) (f : HAProxyFrontend)
  : HAProxyFrontend :=
  {| hf_Name := hf_Name f; hf_HAACLs := hf_HAACLs f;
     hf_ActionItems := (hf_ActionItems f ++ [a])%list; hf_ID := hf_ID f |}.

(** The objects of a collection as the remote system lists them: each with
    its position as identifier. *)
Fixpoint numbered {A} (set_id : A -> Z -> A) (from : Z) (l : list A) : list A :=
  match l with
  | [] => []
  | x :: rest => set_id x from :: numbered set_id (from + 1) rest
  end.

(** [update_at i f l] applies [f] to the object at position [i]; [None] when
    there is none. *)
Fixpoint update_at {A} (i : nat) (f : A -> A) (l : list A) : option (list A) :=
  match l, i with
  | [], _ => None
  | x :: rest, O => Some (f x :: rest)
  | x :: rest, S i' =>
      match update_at i' f rest with
      | Some rest' => Some (x :: rest')
      | None => None
      end
  end.

Definition update_id {A} (id : Z) (f : A -> A) (l : list A) : option (list A) :=
  if (id <? 0)%Z then None else update_at (Z.to_nat id) f l.

Definition envelope (code : Z) (status message : string) (data : RawMessage)
  : HTTPResponse :=
  {| StatusCode := code; Status := status;
     RespBody := JSONBody {| resp_Status := status; resp_Message := message;
                             resp_Data := data; resp_Code := code |} |}.

Definition reply_ok (data : RawMessage) : HTTPResponse :=
  envelope 200 "ok" "" data.

Definition reply_bad_request (message : string) : HTTPResponse :=
  envelope 400 "bad request" message RawEmpty.

Definition reply_not_found : HTTPResponse :=
  envelope 404 "not found" "" RawEmpty.

Definition field_string (fields : list (string * json)) (key : string)
  : string :=
  match json_field fields key with
  | Some (JString s) => s
  | _ => EmptyString
  end.

(** Modelled from the spec: the remote system itself, which is no part of
    this repository.  It is the key-value-by-name store of the specification
    behind the eight operations of its interface table: the two collections
    are listed in full, each object with its position as identifier; a create
    appends; an update of a backend requires the identifier of the object and
    replaces it; the two sub-resource calls append a rule or an action to the
    frontend their [parent_id] names; apply commits.  Anything else is
    refused.  It is used for what the specification says about the remote
    state after reconciliation; the properties of what the manager sends hold
    for every state and every sequence of answers. *)
Definition serve (method endpoint : string) (body : Body) (r : Remote)
  : HTTPResponse * Remote :=
  if String.eqb method "GET"
     && String.eqb endpoint "/services/haproxy/backends?limit=0&offset=0" then
    (reply_ok (RawBackends (numbered set_backend_id 0 (backends r))), r)
  else if String.eqb method "GET"
     && String.eqb endpoint "/services/haproxy/frontends?limit=0&offset=0" then
    (reply_ok (RawFrontends (numbered set_frontend_id 0 (frontends r))), r)
  else if String.eqb method "POST"
     && String.eqb endpoint "/services/haproxy/apply" then
    (reply_ok RawEmpty,
     {| backends := backends r; frontends := frontends r;
        applied := S (applied r) |})
  else
    match body with
    | BodyBackend b =>
        if String.eqb method "POST"
           && String.eqb endpoint "/services/haproxy/backend" then
          (reply_ok RawEmpty,
           {| backends := (backends r ++ [b])%list; frontends := frontends r;
              applied := applied r |})
        else if String.eqb method "PATCH"
           && String.eqb endpoint "/services/haproxy/backend" then
          match wire_id body with
          | None => (reply_bad_request "Field `id` is required.", r)
          | Some id =>
              match update_id id (fun _ => b) (backends r) with
              | Some l =>
                  (reply_ok RawEmpty,
                   {| backends := l; frontends := frontends r;
                      applied := applied r |})
              | None => (reply_not_found, r)
              end
          end
        else (reply_not_found, r)
    | BodyFrontend f =>
        if String.eqb method "POST"
           && String.eqb endpoint "/services/haproxy/frontend" then
          (reply_ok RawEmpty,
           {| backends := backends r; frontends := (frontends r ++ [f])%list;
              applied := applied r |})
        else (reply_not_found, r)
    | BodyMap fields =>
        match json_field fields "parent_id" with
        | Some (JNumber id) =>
            if String.eqb method "POST"
               && String.eqb endpoint "/services/haproxy/frontend/acl" then
              let acl := {| acl_Name := field_string fields "name";
                            acl_Expression := field_string fields "expression";
                            acl_Value := field_string fields "value";
                            acl_ID := 0 |} in
              match update_id id (add_acl acl) (frontends r) with
              | Some l =>
                  (reply_ok RawEmpty,
                   {| backends := backends r; frontends := l;
                      applied := applied r |})
              | None => (reply_not_found, r)
              end
            else if String.eqb method "POST"
               && String.eqb endpoint "/services/haproxy/frontend/action" then
              let action := {| act_Action := field_string fields "action";
                               act_ACL := field_string fields "acl";
                               act_Backend := field_string fields "backend";
                               act_ID := 0 |} in
              match update_id id (add_action action) (frontends r) with
              | Some l =>
                  (reply_ok RawEmpty,
                   {| backends := backends r; frontends := l;
                      applied := applied r |})
              | None => (reply_not_found, r)
              end
            else (reply_not_found, r)
        | _ => (reply_bad_request "Field `parent_id` is required.", r)
        end
    | BodyNil => (reply_not_found, r)
    end.

(** ** Package pfsense: the client *)

Record Client : Type := {
  baseURL : string;
  apiKey : string
}.

(** [NewClient]. *)
Definition NewClient (endpoint : EndpointConfig) : Client :=
  {| baseURL := ep_URL endpoint; apiKey := ep_APIKey endpoint |}.

(** The end of [makeRequest]: a status of 400 or more is an error; a body
    that is not JSON is returned raw, under the status of the response. *)
Definition decode_response (resp : HTTPResponse) : result APIResponse :=
  if (StatusCode resp >=? 400)%Z then
    Err (Errorf "API request failed with status %d: %s"
           [ArgD (StatusCode resp); ArgS (body_text (RespBody resp))] None)
  else
    match RespBody resp with
    | JSONBody apiResp => Ok apiResp
    | TextBody raw =>
        Ok {| resp_Status := Status resp; resp_Message := raw;
              resp_Data := RawEmpty; resp_Code := StatusCode resp |}
    end.

(** [Client.makeRequest].  The request is on record from the moment it is
    handed to the HTTP client.  ([json.Marshal] and [http.NewRequest] do not
    fail on the bodies, methods and URLs of this client.) *)
Definition makeRequest (c : Client) (method endpoint : string) (body : Body)
  : M (result APIResponse) :=
  let url := baseURL c ++ endpoint in
  _ <- emit (EvRequest {| req_method := method; req_url := url;
                          req_body := body |}) ;;
  answer <- next_answer ;;
  match answer with
  | Dropped err => ret (Err (Errorf "request failed: %w" [] (Some err)))
  | Respond resp => ret (decode_response resp)
  | Deliver =>
      fun w =>
        let '(resp, r') := serve method endpoint body (servers w (baseURL c)) in
        (decode_response resp, set_server (baseURL c) r' w)
  end.

(** [Client.GetHAProxyBackends]. *)
Definition GetHAProxyBackends (c : Client) : M (result (list HAProxyBackend)) :=
  r <- makeRequest c "GET" "/services/haproxy/backends?limit=0&offset=0"
         BodyNil ;;
  match r with
  | Err err => ret (Err err)
  | Ok resp =>
      match resp_Data resp with
      | RawEmpty => ret (Ok [])
      | RawBackends l => ret (Ok l)
      | _ => ret (Err (Errorf "failed to unmarshal backends: %w" []
                         (Some (Errorf "json: cannot unmarshal" [] None))))
      end
  end.

(** A call that only looks at the code of the envelope. *)
Definition expect_success (failure : string) (r : result APIResponse)
  : option error :=
  match r with
  | Err err => Some err
  | Ok resp =>
      if (resp_Code resp >=? 400)%Z
      then Some (Errorf failure [ArgS (resp_Message resp)] None)
      else None
  end.

(** [Client.CreateHAProxyBackend]. *)
Definition CreateHAProxyBackend (c : Client) (backend : HAProxyBackend)
  : M (option error) :=
  r <- makeRequest c "POST" "/services/haproxy/backend" (BodyBackend backend) ;;
  ret (expect_success "failed to create backend: %s" r).

(** [Client.UpdateHAProxyBackend]. *)
Definition UpdateHAProxyBackend (c : Client) (backend : HAProxyBackend)
  : M (option error) :=
  r <- makeRequest c "PATCH" "/services/haproxy/backend" (BodyBackend backend) ;;
  ret (expect_success "failed to update backend: %s" r).

(** [Client.GetHAProxyFrontends]. *)
Definition GetHAProxyFrontends (c : Client)
  : M (result (list HAProxyFrontend)) :=
  r <- makeRequest c "GET" "/services/haproxy/frontends?limit=0&offset=0"
         BodyNil ;;
  match r with
  | Err err => ret (Err err)
  | Ok resp =>
      match resp_Data resp with
      | RawEmpty => ret (Ok [])
      | RawFrontends l => ret (Ok l)
      | _ => ret (Err (Errorf "failed to unmarshal frontends: %w" []
                         (Some (Errorf "json: cannot unmarshal" [] None))))
      end
  end.

(** [Client.CreateHAProxyFrontend]. *)
Definition CreateHAProxyFrontend (c : Client) (frontend : HAProxyFrontend)
  : M (option error) :=
  r <- makeRequest c "POST" "/services/haproxy/frontend"
         (BodyFrontend frontend) ;;
  ret (expect_success "failed to create frontend: %s" r).

(** [Client.ApplyHAProxyChanges]. *)
Definition ApplyHAProxyChanges (c : Client) : M (option error) :=
  r <- makeRequest c "POST" "/services/haproxy/apply" (BodyMap []) ;;
  ret (expect_success "failed to apply HAProxy changes: %s" r).

(** [Client.FindBackendByName]: [Ok None] is the pair [(nil, nil)]. *)
Definition FindBackendByName (c : Client) (name : string)
  : M (result (option HAProxyBackend)) :=
  r <- GetHAProxyBackends c ;;
  match r with
  | Err err => ret (Err err)
  | Ok backends =>
      ret (Ok (find (fun backend => String.eqb (hb_Name backend) name)
                 backends))
  end.

(** [Client.FindFrontendByName]. *)
Definition FindFrontendByName (c : Client) (name : string)
  : M (result (option HAProxyFrontend)) :=
  r <- GetHAProxyFrontends c ;;
  match r with
  | Err err => ret (Err err)
  | Ok frontends =>
      ret (Ok (find (fun frontend => String.eqb (hf_Name frontend) name)
                 frontends))
  end.

(** [Client.AddACLToFrontend]. *)
Definition AddACLToFrontend (c : Client) (frontendID : Z) (acl : HAProxyACL)
  : M (option error) :=
  r <- makeRequest c "POST" "/services/haproxy/frontend/acl"
         (BodyMap [("parent_id", JNumber frontendID);
                   ("name", JString (acl_Name acl));
                   ("expression", JString (acl_Expression acl));
                   ("value", JString (acl_Value acl))]) ;;
  ret (expect_success "failed to add ACL to frontend: %s" r).

(** [Client.AddActionToFrontend]. *)
Definition AddActionToFrontend (c : Client) (frontendID : Z)
    (action : HAProxyAction) : M (option error) :=
  r <- makeRequest c "POST" "/services/haproxy/frontend/action"
         (BodyMap [("parent_id", JNumber frontendID);
                   ("action", JString (act_Action action));
                   ("acl", JString (act_ACL action));
                   ("backend", JString (act_Backend action))]) ;;
  ret (expect_success "failed to add action to frontend: %s" r).

(** [Client.UpdateFrontendWithACLAndAction]. *)
Definition UpdateFrontendWithACLAndAction (c : Client) (frontendID : Z)
    (acl : HAProxyACL) (action : HAProxyAction) : M (option error) :=
  e <- AddACLToFrontend c frontendID acl ;;
  match e with
  | Some err => ret (Some (Errorf "failed to add ACL: %w" [] (Some err)))
  | None =>
      e <- AddActionToFrontend c frontendID action ;;
      match e with
      | Some err => ret (Some (Errorf "failed to add action: %w" [] (Some err)))
      | None => ret None
      end
  end.

(** ** Package haproxy: the manager *)

Record Manager : Type := {
  clients : gomap Client;
  parser : Parser;
  config : Config
}.

(** [NewManager]: one client per configured endpoint, under its name. *)
Definition NewManager (cfg : Config) : Manager :=
  {| clients :=
       fold_left (fun clients endpoint =>
                    map_set clients (ep_Name endpoint) (NewClient endpoint))
                 (Endpoints cfg) [];
     parser := NewParser (TraefikCompatMode (Global cfg));
     config := cfg |}.

(** The product of two [time.Duration]s, a 64-bit signed integer. *)
Definition wrap64 (z : Z) : Z := ((z + 2 ^ 63) mod 2 ^ 64 - 2 ^ 63)%Z.

Definition Duration_mul (a b : Z) : Z := wrap64 (a * b).

(** What [retryOperation] needs of the state it runs in: [time.Sleep]. *)
Class Clock (St : Type) : Type := {
  time_Sleep : Z -> St -> St
}.

#[global] Instance World_Clock : Clock World := {
  time_Sleep d w := snd (emit (EvSleep d) w)
}.

Section RetryOperation.
Context {St : Type} `{Clock St}.
Variable m : Manager.

(** The loop of [retryOperation] from [attempt] on, [remaining] being the
    number of values [attempt] still takes below
    [m.config.Global.RetryAttempts]. *)
Fixpoint retry_from (remaining : nat) (attempt : Z) (lastErr : option error)
    (operation : St -> option error * St) (s : St) : option error * St :=
  match remaining with
  | O =>
      (Some (Errorf "operation failed after %d attempts, last error: %w"
               [ArgD (RetryAttempts (Global (config m)))] lastErr), s)
  | S remaining' =>
      let s :=
        if (attempt >? 0)%Z then
          let delay :=
            Duration_mul attempt (RetryDelay (Global (config m))) in
          time_Sleep delay s
        else s in
      match operation s with
      | (Some err, s) =>
          retry_from remaining' (attempt + 1) (Some err) operation s
      | (None, s) => (None, s)
      end
  end.

(** [Manager.retryOperation]. *)
Definition retryOperation (operation : St -> option error * St) (s : St)
  : option error * St :=
  retry_from (Z.to_nat (RetryAttempts (Global (config m)))) 0 None
    operation s.
End RetryOperation.

(** [Manager.getClient]; [None] is nil. *)
Definition getClient (m : Manager) (endpointName : string) : option Client :=
  match map_get (clients m) endpointName with
  | Some client => Some client
  | None =>
      match GetDefaultEndpoint (config m) with
      | Some defaultEndpoint =>
          match map_get (clients m) (ep_Name defaultEndpoint) with
          | Some client => Some client
          | None => None
          end
      | None => None
      end
  end.

(** [Manager.syncBackend]. *)
Definition syncBackend (m : Manager) (client : Client)
    (containerConfig : ContainerConfig) : M (option error) :=
  let desiredBackend := ConvertToHAProxyBackend containerConfig in
  r <- FindBackendByName client (hb_Name desiredBackend) ;;
  match r with
  | Err err =>
      ret (Some (Errorf "failed to check existing backend: %w" [] (Some err)))
  | Ok None =>
      retryOperation m (CreateHAProxyBackend client desiredBackend)
  | Ok (Some existingBackend) =>
      let desiredBackend :=
        set_backend_id desiredBackend (hb_ID existingBackend) in
      retryOperation m (UpdateHAProxyBackend client desiredBackend)
  end.

(** [Manager.syncFrontend]. *)
Definition syncFrontend (m : Manager) (client : Client)
    (containerConfig : ContainerConfig) : M (option error) :=
  match ConvertToHAProxyFrontend containerConfig with
  | Err err =>
      ret (Some (Errorf "failed to convert to HAProxy frontend: %w" []
                   (Some err)))
  | Ok desiredFrontend =>
      r <- FindFrontendByName client (hf_Name desiredFrontend) ;;
      match r with
      | Err err =>
          ret (Some (Errorf "failed to check existing frontend: %w" []
                       (Some err)))
      | Ok None =>
          retryOperation m (CreateHAProxyFrontend client desiredFrontend)
      | Ok (Some existingFrontend) =>
          match hf_HAACLs desiredFrontend, hf_ActionItems desiredFrontend with
          | acl :: _, action :: _ =>
              retryOperation m
                (UpdateFrontendWithACLAndAction client
                   (hf_ID existingFrontend) acl action)
          | _, _ =>
              ret (Some (Errorf
                           "missing ACL or action in frontend configuration"
                           [] None))
          end
      end
  end.

(** [Manager.applyChangesWithRetry]. *)
Definition applyChangesWithRetry (m : Manager) (client : Client)
  : M (option error) :=
  retryOperation m (ApplyHAProxyChanges client).

(** [Manager.SyncContainer]. *)
Definition SyncContainer (m : Manager) (containerInfo : Info)
  : M (option error) :=
  match Parser_ParseContainer (parser m) containerInfo with
  | Err _ => ret None
  | Ok containerConfig =>
      match getClient m (cc_EndpointName containerConfig) with
      | None =>
          ret (Some (Errorf "pfSense endpoint '%s' not found"
                       [ArgS (cc_EndpointName containerConfig)] None))
      | Some client =>
          e <- syncBackend m client containerConfig ;;
          match e with
          | Some err =>
              ret (Some (Errorf "failed to sync backend: %w" [] (Some err)))
          | None =>
              e <- syncFrontend m client containerConfig ;;
              match e with
              | Some err =>
                  ret (Some (Errorf "failed to sync frontend: %w" []
                               (Some err)))
              | None =>
                  e <- applyChangesWithRetry m client ;;
                  match e with
                  | Some err =>
                      ret (Some (Errorf "failed to apply HAProxy changes: %w"
                                   [] (Some err)))
                  | None => ret None
                  end
              end
          end
      end
  end.

(** ** Package config: validation and lookup *)

(** The loop of [Config.Validate] over the endpoints, [i] being the index
    of the first one. *)
Fixpoint validate_endpoints (i : Z) (endpoints : list EndpointConfig)
  : option error :=
  match endpoints with
  | [] => None
  | endpoint :: rest =>
      if String.eqb (ep_Name endpoint) "" then
        Some (Errorf "endpoint %d: name is required" [ArgD i] None)
      else if String.eqb (ep_URL endpoint) "" then
        Some (Errorf "endpoint %s: URL is required"
                [ArgS (ep_Name endpoint)] None)
      else if String.eqb (ep_APIKey endpoint) "" then
        Some (Errorf "endpoint %s: API key is required"
                [ArgS (ep_Name endpoint)] None)
      else validate_endpoints (i + 1) rest
  end.

(** [Config.Validate]. *)
Definition Validate (c : Config) : option error :=
  if (List.length (Endpoints c) =? 0)%nat then
    Some (Errorf "at least one endpoint must be configured" [] None)
  else
    match validate_endpoints 0 (Endpoints c) with
    | Some err => Some err
    | None =>
        if (PollInterval (Global c) <=? 0)%Z then
          Some (Errorf "poll_interval must be positive" [] None)
        else if (RetryAttempts (Global c) <? 0)%Z then
          Some (Errorf "retry_attempts must be non-negative" [] None)
        else None
    end.

(** [Config.GetEndpoint]. *)
Definition GetEndpoint (c : Config) (name : string) : option EndpointConfig :=
  find (fun endpoint => String.eqb (ep_Name endpoint) name) (Endpoints c).

(** ** Package container: the runtime side *)

(** [DockerClient.hasControllerLabels]; [None] is a nil map. *)
Definition hasControllerLabels (labels : option (gomap string)) : bool :=
  match labels with
  | None => false
  | Some labels =>
      let '(enable, exists_) := map_index labels "pfsense-controller.enable" in
      exists_ && String.eqb enable "true"
  end.

(** [container.Event], without its time stamp. *)
Record ContainerEvent : Type := {
  ev_Container : Info;
  ev_Type : string
}.

(** [DockerClient.handleDockerEvent]: [action] is the action of the Docker
    event and [inspect] what [GetContainer] returns for its container (the
    container is only inspected for the four actions that matter).  [Ok None]
    is the pair [(nil, nil)]. *)
Definition handleDockerEvent (action : string) (inspect : result Info)
  : result (option ContainerEvent) :=
  if String.eqb action "start" || String.eqb action "stop"
     || String.eqb action "destroy" || String.eqb action "update" then
    match inspect with
    | Err err =>
        Err (Errorf "failed to get container info for event: %w" []
               (Some err))
    | Ok containerInfo =>
        if negb (hasControllerLabels (info_Labels containerInfo)) then Ok None
        else Ok (Some {| ev_Container := containerInfo; ev_Type := action |})
    end
  else Ok None.

(** [container.Manager.ListContainers]: [listings] is what the
    [ListContainers] of each runtime client returns, in the order of the
    clients.  The error it returns is always nil. *)
Fixpoint Manager_ListContainers (listings : list (result (list Info)))
  : list Info :=
  match listings with
  | [] => []
  | Err _ :: rest => Manager_ListContainers rest
  | Ok containers :: rest => (containers ++ Manager_ListContainers rest)%list
  end.

(** ** Package haproxy: the rest of the manager *)

(** [Manager.RemoveContainer]. *)
Definition RemoveContainer (m : Manager) (containerInfo : Info)
  : M (option error) :=
  match Parser_ParseContainer (parser m) containerInfo with
  | Err _ => ret None
  | Ok containerConfig =>
      match getClient m (cc_EndpointName containerConfig) with
      | None =>
          ret (Some (Errorf "pfSense endpoint '%s' not found"
                       [ArgS (cc_EndpointName containerConfig)] None))
      | Some _ => ret None
      end
  end.

(** The loop of [Manager.HealthCheck] over the clients. *)
Fixpoint HealthCheck_range (clients : gomap Client)
    (results : gomap (option error)) : M (gomap (option error)) :=
  match clients with
  | [] => ret results
  | (name, client) :: rest =>
      r <- GetHAProxyBackends client ;;
      let err := match r with Ok _ => None | Err err => Some err end in
      HealthCheck_range rest (map_set results name err)
  end.

(** [Manager.HealthCheck]. *)
Definition HealthCheck (m : Manager) : M (gomap (option error)) :=
  HealthCheck_range (clients m) [].

(** The [map[string]interface{}] of one endpoint in [Manager.GetStats]:
    the two counts, and the error under the key [error] when there is one
    (the error itself stands for its text). *)
Record EndpointStats : Type := {
  backend_count : Z;
  frontend_count : Z;
  stats_error : option error
}.

(** The body of the loop of [Manager.GetStats] for one client. *)
Definition endpoint_stats (client : Client) : M EndpointStats :=
  rb <- GetHAProxyBackends client ;;
  rf <- GetHAProxyFrontends client ;;
  let '(backendCount, error1) :=
    match rb with
    | Err err => ((-1)%Z, Some err)
    | Ok backends => (Z.of_nat (List.length backends), None)
    end in
  let '(frontendCount, error2) :=
    match rf with
    | Err err =>
        ((-1)%Z, match error1 with None => Some err | Some _ => error1 end)
    | Ok frontends => (Z.of_nat (List.length frontends), error1)
    end in
  ret {| backend_count := backendCount; frontend_count := frontendCount;
         stats_error := error2 |}.

Fixpoint GetStats_range (clients : gomap Client)
    (stats : gomap EndpointStats) : M (gomap EndpointStats) :=
  match clients with
  | [] => ret stats
  | (name, client) :: rest =>
      endpointStats <- endpoint_stats client ;;
      GetStats_range rest (map_set stats name endpointStats)
  end.

(** [Manager.GetStats]; the error it returns is always nil. *)
Definition GetStats (m : Manager) : M (gomap EndpointStats) :=
  GetStats_range (clients m) [].

(** ** Package controller *)

(** The counters of the [Controller] (64-bit; the time of the last sync is
    left out). *)
Record Counters : Type := {
  syncCount : Z;
  errorCount : Z
}.

(** [Controller.incrementErrorCount]. *)
Definition incrementErrorCount (c : Counters) : Counters :=
  {| syncCount := syncCount c; errorCount := wrap64 (errorCount c + 1) |}.

(** [Controller.syncContainer]. *)
Definition Controller_syncContainer (m : Manager) (containerInfo : Info)
  : M (option error) :=
  if negb (String.eqb (info_State containerInfo) "running") then ret None
  else SyncContainer m containerInfo.

(** The loop of [Controller.performSync] over the containers. *)
Fixpoint sync_each (m : Manager) (containers : list Info) (c : Counters)
  : M Counters :=
  match containers with
  | [] => ret c
  | containerInfo :: rest =>
      e <- Controller_syncContainer m containerInfo ;;
      sync_each m rest
        match e with
        | Some _ => incrementErrorCount c
        | None => c
        end
  end.

(** [Controller.performSync]: [listing] is what the container manager lists;
    the deferred function counts the sync on every way out. *)
Definition performSync (m : Manager) (listing : result (list Info))
    (c : Counters) : M (option error * Counters) :=
  let finished (c : Counters) :=
    {| syncCount := wrap64 (syncCount c + 1); errorCount := errorCount c |} in
  match listing with
  | Err err =>
      ret (Some (Errorf "failed to list containers: %w" [] (Some err)),
           finished c)
  | Ok containers =>
      c <- sync_each m containers c ;;
      ret (None, finished c)
  end.

(** [Controller.handleContainerEvent]. *)
Definition handleContainerEvent (m : Manager) (event : ContainerEvent)
    (c : Counters) : M Counters :=
  let counted (e : option error) :=
    match e with
    | Some _ => incrementErrorCount c
    | None => c
    end in
  if String.eqb (ev_Type event) "start"
     || String.eqb (ev_Type event) "update" then
    e <- Controller_syncContainer m (ev_Container event) ;;
    ret (counted e)
  else if String.eqb (ev_Type event) "stop"
          || String.eqb (ev_Type event) "destroy" then
    e <- RemoveContainer m (ev_Container event) ;;
    ret (counted e)
  else ret c.

(** [Controller.healthHandler]: the status it writes and the body. *)
Definition healthHandler (m : Manager) : M (Z * string) :=
  results <- HealthCheck m ;;
  let healthy :=
    forallb (fun kv => match snd kv with None => true | Some _ => false end)
      results in
  if healthy then ret (200%Z, "OK" ++ String "010" "")
  else ret (503%Z, "Service Unavailable" ++ String "010" "").

(** ** Vocabulary of the properties *)

(** Every byte is in the class [[a-zA-Z0-9\-_]]. *)
Fixpoint name_bytes (s : string) : bool :=
  match s with
  | EmptyString => true
  | String c t => is_name_byte c && name_bytes t
  end.

(** No two hyphens in a row. *)
Fixpoint no_double_hyphen (s : string) : bool :=
  match s with
  | EmptyString => true
  | String c t =>
      match t with
      | String c' _ =>
          negb (Ascii.eqb c "-" && Ascii.eqb c' "-") && no_double_hyphen t
      | EmptyString => true
      end
  end.

Definition first_byte (s : string) : option ascii :=
  match s with
  | EmptyString => None
  | String c _ => Some c
  end.

Fixpoint last_byte (s : string) : option ascii :=
  match s with
  | EmptyString => None
  | String c EmptyString => Some c
  | String _ t => last_byte t
  end.

(** The grammar of rules: [fn(`v`)] with optional spaces around the quoted
    argument, followed by [rest]. *)
Fixpoint all_spaces (s : string) : bool :=
  match s with
  | EmptyString => true
  | String c t => is_space c && all_spaces t
  end.

Fixpoint no_backtick (s : string) : bool :=
  match s with
  | EmptyString => true
  | String c t => negb (Ascii.eqb c "`") && no_backtick t
  end.

Fixpoint count_backticks (s : string) : nat :=
  match s with
  | EmptyString => O
  | String c t => (if Ascii.eqb c "`" then 1 else 0) + count_backticks t
  end.

Definition call_then (fn ws1 v ws2 rest : string) : string :=
  fn ++ "(" ++ ws1 ++ "`" ++ v ++ "`" ++ ws2 ++ ")" ++ rest.

Definition call (fn ws1 v ws2 : string) : string :=
  call_then fn ws1 v ws2 "".

(** The argument of a call: not empty and without a backtick, in spaces. *)
Definition quoted_arg (ws1 v ws2 : string) : Prop :=
  v <> "" /\ no_backtick v = true
  /\ all_spaces ws1 = true /\ all_spaces ws2 = true.

(** [rule] contains a call of [fn] with argument [v]. *)
Definition occurs (fn rule v : string) : Prop :=
  exists pre ws1 ws2 post,
    rule = pre ++ call_then fn ws1 v ws2 post /\ quoted_arg ws1 v ws2.

Definition contains_call (fn rule : string) : Prop :=
  exists v, occurs fn rule v.

(** The three functions of the grammar. *)
Definition grammar_function (fn : string) : Prop :=
  fn = "Host" \/ fn = "PathPrefix" \/ fn = "Path".


(** The health-check labels are acceptable: the check type is [none],
    [basic] or [http] whatever the case of its letters, and with [http] the
    health-check path is not empty. *)
Definition health_ok (labels : gomap string) : bool :=
  let t := ToLower (getStringLabel labels ControllerBackendCheckTypeLabel
                      "basic") in
  String.eqb t "none" || String.eqb t "basic"
  || (String.eqb t "http"
      && negb (String.eqb
                 (getStringLabel labels ControllerBackendHealthCheckLabel "")
                 "")).


(** ** Sample inputs *)

Definition sample_networks : gomap NetworkInfo :=
  [("default", {| IPAddress := "172.17.0.2"; Gateway := "172.17.0.1" |})].

(** A running container with the given name and labels. *)
Definition sample_container (name : string) (labels : gomap string) : Info :=
  {| info_Labels := Some labels;
     info_Networks := sample_networks;
     info_ID := "test-container";
     info_Name := name;
     info_Image := "nginx:alpine";
     info_State := "running";
     info_Status := "Up" |}.

Definition native_labels (rule : string) : gomap string :=
  [("pfsense-controller.enable", "true");
   ("pfsense-controller.backend.port", "8080");
   ("pfsense-controller.frontend.rule", rule)].

Definition traefik_labels : gomap string :=
  [("traefik.enable", "true");
   ("traefik.http.services.test-service.loadbalancer.server.port", "8080");
   ("pfsense-controller.endpoint", "production");
   ("pfsense-controller.frontend.rule", "Host(`test.example.com`)")].



Definition sample_config (attempts : Z) : Config :=
  {| Endpoints :=
       [ {| ep_Name := "default";
            ep_URL := "https://pfsense.example.com/api/v2";
            ep_APIKey := "key"; ep_RequestTimeout := 30000000000;
            ep_InsecureTLS := false |} ];
     Global :=
       {| LogLevel := "info"; PollInterval := 30000000000;
          RetryDelay := 5000000000; RetryAttempts := attempts;
          HealthPort := 8080; TraefikCompatMode := false |} |}.

Definition sample_client : Client :=
  {| baseURL := "https://pfsense.example.com/api/v2"; apiKey := "key" |}.

Definition empty_remote : Remote :=
  {| backends := []; frontends := []; applied := 0 |}.

(** A world where every remote system is empty and every request is
    delivered. *)
Definition fresh_world : World :=
  {| servers := fun _ => empty_remote; script := []; events := [] |}.

(** ** Observing a run of [retryOperation]

    To count the invocations of an arbitrary operation and to see the sleeps
    between them, the operation is run on its own state paired with a log:
    [observed operation] notes [Invoked] each time it is called and the clock
    notes [Slept d] for [time.Sleep(d)]. *)
Inductive Obs : Type :=
| Invoked
| Slept (d : Z).

#[global] Instance Probe_Clock (T : Type) : Clock (T * list Obs) := {
  time_Sleep d s := (fst s, (snd s ++ [Slept d])%list)
}.

Definition observed {T : Type} (operation : T -> option error * T)
  : T * list Obs -> option error * (T * list Obs) :=
  fun s =>
    let '(e, t') := operation (fst s) in
    (e, (t', (snd s ++ [Invoked])%list)).

(** The state after [k] invocations in a row, and what invocation [k + 1]
    returns. *)
Fixpoint state_after {T : Type} (operation : T -> option error * T) (t : T)
    (k : nat) : T :=
  match k with
  | O => t
  | S k' => state_after operation (snd (operation t)) k'
  end.

Definition outcome {T : Type} (operation : T -> option error * T) (t : T)
    (k : nat) : option error :=
  fst (operation (state_after operation t k)).

(** The log of [k] attempts: attempt 1 at once, and attempt [k + 1] after a
    sleep of [k] times the base delay [D]. *)
Fixpoint schedule (D : Z) (k : nat) : list Obs :=
  match k with
  | O => []
  | S k' =>
      match k' with
      | O => [Invoked]
      | S _ => (schedule D k' ++ [Slept (Duration_mul (Z.of_nat k') D);
                                  Invoked])%list
      end
  end.

Definition invocations (log : list Obs) : nat :=
  List.length (filter (fun o => match o with Invoked => true | _ => false end)
                 log).

Fixpoint total_sleep (log : list Obs) : Z :=
  match log with
  | [] => 0
  | Slept d :: rest => d + total_sleep rest
  | Invoked :: rest => total_sleep rest
  end.

(** The error [retryOperation] gives up with. *)
Definition retries_exhausted (attempts : Z) (lastErr : option error) : error :=
  Errorf "operation failed after %d attempts, last error: %w" [ArgD attempts]
    lastErr.

(** An operation, on a counter, that fails the first [failures] times it is
    called. *)
Definition flaky (failures : nat) (calls : nat) : option error * nat :=
  (if (calls <? failures)%nat
   then Some (Errorf "request failed: %w" []
                (Some (Errorf "connection refused" [] None)))
   else None,
   S calls).

(** ** What the manager sends *)

(** [appends P f]: whatever the world, running [f] only adds events, and
    every event it adds satisfies [P]. *)
Definition appends {A : Type} (P : Event -> Prop) (f : M A) : Prop :=
  forall (w : World) (a : A) (w' : World),
    f w = (a, w') ->
    exists added, events w' = (events w ++ added)%list /\ Forall P added.

Definition request (c : Client) (method endpoint : string) (body : Body)
  : Event :=
  EvRequest {| req_method := method; req_url := baseURL c ++ endpoint;
               req_body := body |}.

Definition list_backends (c : Client) : Event :=
  request c "GET" "/services/haproxy/backends?limit=0&offset=0" BodyNil.

Definition list_frontends (c : Client) : Event :=
  request c "GET" "/services/haproxy/frontends?limit=0&offset=0" BodyNil.

Definition create_backend (c : Client) (b : HAProxyBackend) : Event :=
  request c "POST" "/services/haproxy/backend" (BodyBackend b).

Definition update_backend (c : Client) (b : HAProxyBackend) : Event :=
  request c "PATCH" "/services/haproxy/backend" (BodyBackend b).

Definition create_frontend (c : Client) (f : HAProxyFrontend) : Event :=
  request c "POST" "/services/haproxy/frontend" (BodyFrontend f).

Definition add_acl_call (c : Client) (id : Z) (acl : HAProxyACL) : Event :=
  request c "POST" "/services/haproxy/frontend/acl"
    (BodyMap [("parent_id", JNumber id);
              ("name", JString (acl_Name acl));
              ("expression", JString (acl_Expression acl));
              ("value", JString (acl_Value acl))]).

Definition add_action_call (c : Client) (id : Z) (action : HAProxyAction)
  : Event :=
  request c "POST" "/services/haproxy/frontend/action"
    (BodyMap [("parent_id", JNumber id);
              ("action", JString (act_Action action));
              ("acl", JString (act_ACL action));
              ("backend", JString (act_Backend action))]).

Definition is_sleep (e : Event) : Prop := exists d, e = EvSleep d.

(** The requests among some events. *)
Fixpoint requests_of (l : list Event) : list Request :=
  match l with
  | [] => []
  | EvRequest r :: rest => r :: requests_of rest
  | EvSleep _ :: rest => requests_of rest
  end.

(** The remote system behind a client. *)
Definition remote_of (w : World) (c : Client) : Remote :=
  servers w (baseURL c).

(** Every request is delivered. *)
Definition reliable (w : World) : Prop := script w = [].

(** The rule and the action a configuration contributes to its frontend. *)
Definition acl_of (cfg : ContainerConfig) (expression value : string)
  : HAProxyACL :=
  {| acl_Name := fc_ACLName (cc_FrontendConfig cfg);
     acl_Expression := expression; acl_Value := value; acl_ID := 0 |}.

Definition action_of (cfg : ContainerConfig) : HAProxyAction :=
  {| act_Action := "use_backend";
     act_ACL := fc_ACLName (cc_FrontendConfig cfg);
     act_Backend := bc_Name (cc_BackendConfig cfg);
     act_ID := 0 |}.

(** Two configurations that name the same frontend, as native translation
    gives them for two containers. *)
Definition sample_cfg (container rule : string) : ContainerConfig :=
  {| cc_BackendConfig :=
       {| bc_Name := container ++ "-backend"; bc_ServerName := container;
          bc_Port := "8080"; bc_Address := "172.17.0.2";
          bc_CheckType := "basic"; bc_HealthCheckPath := "";
          bc_HealthCheckMethod := ""; bc_HealthCheckVersion := "";
          bc_BackendPassThru := "http-request set-header Host 172.17.0.2" |};
     cc_FrontendConfig :=
       {| fc_Name := "shared-frontend"; fc_Rule := rule;
          fc_ACLName := "auto-acl-" ++ container |};
     cc_EndpointName := "default";
     cc_ParseMode := "controller";
     cc_Enabled := true |}.

(** The listing of a remote system that holds one backend, under the
    identifier 0. *)
Definition listing_of (b : HAProxyBackend) : Answer :=
  Respond (reply_ok (RawBackends [set_backend_id b 0])).

(** ** Vocabulary of the further properties *)

(** The bytes of a string that satisfy a test, in order. *)
Fixpoint keep (p : ascii -> bool) (s : string) : string :=
  match s with
  | EmptyString => EmptyString
  | String c t => if p c then String c (keep p t) else keep p t
  end.

Definition not_hyphen (c : ascii) : bool := negb (Ascii.eqb c "-").

(** A letter, a digit or an underscore. *)
Definition is_word_byte (c : ascii) : bool := is_name_byte c && not_hyphen c.

(** An endpoint that [Config.Validate] accepts. *)
Definition endpoint_complete (e : EndpointConfig) : Prop :=
  ep_Name e <> "" /\ ep_URL e <> "" /\ ep_APIKey e <> "".

Definition apply_call (c : Client) : Event :=
  request c "POST" "/services/haproxy/apply" (BodyMap []).

(** What the sync of a backend sends after its lookup: creates or updates of
    the desired backend, and sleeps. *)
Definition backend_phase (c : Client) (desired : HAProxyBackend) (ev : Event)
  : Prop :=
  is_sleep ev \/ ev = create_backend c desired
  \/ exists id, ev = update_backend c (set_backend_id desired id).

(** What the sync of a frontend sends after its lookup: creates of the
    desired frontend, the two sub-resource calls for its rules and actions,
    and sleeps. *)
Definition frontend_phase (c : Client) (desired : HAProxyFrontend)
    (ev : Event) : Prop :=
  is_sleep ev \/ ev = create_frontend c desired
  \/ exists id,
       In ev (map (add_acl_call c id) (hf_HAACLs desired))
       \/ In ev (map (add_action_call c id) (hf_ActionItems desired)).

Definition apply_phase (c : Client) (ev : Event) : Prop :=
  is_sleep ev \/ ev = apply_call c.

(** The error [makeRequest] returns for an answer that is a failure of the
    transport or a response with a status of 400 or more. *)
Definition answer_error (a : Answer) : option error :=
  match a with
  | Deliver => None
  | Dropped err => Some (Errorf "request failed: %w" [] (Some err))
  | Respond resp =>
      match decode_response resp with
      | Err err => Some err
      | Ok _ => None
      end
  end.

(** A response the calls that write accept: a status below 400 and, when the
    body is the JSON envelope, a code below 400 in it. *)
Definition accepted (resp : HTTPResponse) : Prop :=
  (StatusCode resp < 400)%Z
  /\ match RespBody resp with
     | JSONBody r => (resp_Code r < 400)%Z
     | TextBody _ => True
     end.

(** The world after a request that got the next answer of the script. *)
Definition answered (w : World) (rest : list Answer) (ev : Event) : World :=
  {| servers := servers w; script := rest;
     events := (events w ++ [ev])%list |}.

(** An answer the calls that write take for a failure. *)
Definition rejected (a : Answer) : Prop :=
  match a with
  | Deliver => False
  | Dropped _ => True
  | Respond resp => ~ accepted resp
  end.

(** A response that lists the backends [bs], resp. the frontends [fs]. *)
Definition lists_backends (resp : HTTPResponse) (bs : list HAProxyBackend)
  : Prop :=
  (StatusCode resp < 400)%Z
  /\ exists r, RespBody resp = JSONBody r /\ resp_Data r = RawBackends bs.

Definition lists_frontends (resp : HTTPResponse) (fs : list HAProxyFrontend)
  : Prop :=
  (StatusCode resp < 400)%Z
  /\ exists r, RespBody resp = JSONBody r /\ resp_Data r = RawFrontends fs.

(** The world after a sleep. *)
Definition slept (w : World) (d : Z) : World :=
  {| servers := servers w; script := script w;
     events := (events w ++ [EvSleep d])%list |}.

(** An answer [GetHAProxyBackends] makes a listing of: a response with a
    status below 400 whose body is not JSON, or is an envelope whose data is
    absent or a list of backends. *)
Definition listing_accepted (a : Answer) : bool :=
  match a with
  | Respond resp =>
      (StatusCode resp <? 400)%Z
      && match RespBody resp with
         | TextBody _ => true
         | JSONBody r =>
             match resp_Data r with
             | RawEmpty | RawBackends _ => true
             | _ => false
             end
         end
  | _ => false
  end.

(** The four actions of the container runtime that the watcher passes on. *)
Definition watched (action : string) : Prop :=
  action = "start" \/ action = "stop" \/ action = "destroy"
  \/ action = "update".

Definition not_running (containerInfo : Info) : Prop :=
  info_State containerInfo <> "running".

(** What holds of the statistics of one endpoint: a count is a length or
    -1, and the error is there exactly when one of the counts is -1. *)
Definition stats_consistent (st : EndpointStats) : Prop :=
  (-1 <= backend_count st)%Z /\ (-1 <= frontend_count st)%Z
  /\ (stats_error st = None
      <-> (0 <= backend_count st)%Z /\ (0 <= frontend_count st)%Z).
(** * Properties

    ** The library functions on sample inputs *)

Example Atoi_8080 : Atoi "8080" = Some 8080%Z.
Proof. reflexivity. Qed.

Example Atoi_rejects : Atoi "80a" = None /\ Atoi "" = None /\ Atoi "-" = None.
Proof. repeat split. Qed.

Example Split_key :
  Split "traefik.http.services.web.loadbalancer.server.port" "."
  = ["traefik"; "http"; "services"; "web"; "loadbalancer"; "server"; "port"].
Proof. reflexivity. Qed.

Example EncodeToString_ex :
  EncodeToString "http-request set-header Host 172.17.0.2"
  = "aHR0cC1yZXF1ZXN0IHNldC1oZWFkZXIgSG9zdCAxNzIuMTcuMC4y".
Proof. reflexivity. Qed.

Example EncodeToString_pad :
  EncodeToString "a" = "YQ==" /\ EncodeToString "ab" = "YWI=".
Proof. split; reflexivity. Qed.

(** ** Name sanitization *)

Section Sanitize.

Lemma hyphen_is_name_byte : is_name_byte "-"%char = true.
Proof. reflexivity. Qed.

Lemma replace_invalid_name_bytes (s : string) :
  name_bytes (replace_invalid s) = true.
Proof.
  induction s as [|c t IH]; simpl; [reflexivity|].
  rewrite IH, andb_true_r.
  destruct (is_name_byte c) eqn:E; [exact E | exact hyphen_is_name_byte].
Qed.

Lemma replace_invalid_fixed (s : string) :
  name_bytes s = true -> replace_invalid s = s.
Proof.
  induction s as [|c t IH]; simpl; [reflexivity|].
  intros H. apply andb_true_iff in H as [Hc Ht].
  rewrite Hc, (IH Ht). reflexivity.
Qed.

Lemma collapse_first_byte (s : string) :
  first_byte (collapse_hyphens s) = first_byte s.
Proof.
  induction s as [|c t IH]; [reflexivity|].
  destruct t as [|c' t']; [reflexivity|].
  change (collapse_hyphens (String c (String c' t')))
    with (if Ascii.eqb c "-"%char && Ascii.eqb c' "-"%char
          then collapse_hyphens (String c' t')
          else String c (collapse_hyphens (String c' t'))).
  destruct (Ascii.eqb c "-"%char && Ascii.eqb c' "-"%char) eqn:E; [|reflexivity].
  rewrite IH. simpl.
  apply andb_true_iff in E as [E1 E2].
  apply Ascii.eqb_eq in E1, E2. congruence.
Qed.

Lemma collapse_name_bytes (s : string) :
  name_bytes s = true -> name_bytes (collapse_hyphens s) = true.
Proof.
  induction s as [|c t IH]; [reflexivity|].
  intros H. simpl in H. apply andb_true_iff in H as [Hc Ht].
  destruct t as [|c' t']; [simpl; rewrite Hc; reflexivity|].
  change (collapse_hyphens (String c (String c' t')))
    with (if Ascii.eqb c "-"%char && Ascii.eqb c' "-"%char
          then collapse_hyphens (String c' t')
          else String c (collapse_hyphens (String c' t'))).
  destruct (Ascii.eqb c "-"%char && Ascii.eqb c' "-"%char); [exact (IH Ht)|].
  change (is_name_byte c && name_bytes (collapse_hyphens (String c' t')) = true).
  rewrite Hc, (IH Ht). reflexivity.
Qed.

Lemma collapse_no_double (s : string) :
  no_double_hyphen (collapse_hyphens s) = true.
Proof.
  induction s as [|c t IH]; [reflexivity|].
  destruct t as [|c' t']; [reflexivity|].
  change (collapse_hyphens (String c (String c' t')))
    with (if Ascii.eqb c "-"%char && Ascii.eqb c' "-"%char
          then collapse_hyphens (String c' t')
          else String c (collapse_hyphens (String c' t'))).
  destruct (Ascii.eqb c "-"%char && Ascii.eqb c' "-"%char) eqn:E; [exact IH|].
  pose proof (collapse_first_byte (String c' t')) as F.
  destruct (collapse_hyphens (String c' t')) as [|d u] eqn:Ec;
    [reflexivity|].
  simpl in F. injection F as ->.
  change (negb (Ascii.eqb c "-"%char && Ascii.eqb c' "-"%char)
          && no_double_hyphen (String c' u) = true).
  rewrite E, IH. reflexivity.
Qed.

Lemma collapse_fixed (s : string) :
  no_double_hyphen s = true -> collapse_hyphens s = s.
Proof.
  induction s as [|c t IH]; [reflexivity|].
  destruct t as [|c' t']; [reflexivity|].
  intros H.
  change (negb (Ascii.eqb c "-"%char && Ascii.eqb c' "-"%char)
          && no_double_hyphen (String c' t') = true) in H.
  apply andb_true_iff in H as [H1 H2].
  apply negb_true_iff in H1.
  change (collapse_hyphens (String c (String c' t')))
    with (if Ascii.eqb c "-"%char && Ascii.eqb c' "-"%char
          then collapse_hyphens (String c' t')
          else String c (collapse_hyphens (String c' t'))).
  rewrite H1, (IH H2). reflexivity.
Qed.

(** Trimming keeps the two properties of the bytes in between. *)
Lemma TrimLeft_name_bytes (s : string) :
  name_bytes s = true -> name_bytes (TrimLeft s "-"%char) = true.
Proof.
  induction s as [|c t IH]; [reflexivity|].
  intros H. simpl. destruct (Ascii.eqb c "-"%char); [|exact H].
  simpl in H. apply andb_true_iff in H as [_ Ht]. exact (IH Ht).
Qed.

Lemma no_double_tail (c : ascii) (t : string) :
  no_double_hyphen (String c t) = true -> no_double_hyphen t = true.
Proof.
  destruct t as [|c' t']; [reflexivity|].
  intros H.
  change (negb (Ascii.eqb c "-"%char && Ascii.eqb c' "-"%char)
          && no_double_hyphen (String c' t') = true) in H.
  apply andb_true_iff in H as [_ H]. exact H.
Qed.

Lemma TrimLeft_no_double (s : string) :
  no_double_hyphen s = true -> no_double_hyphen (TrimLeft s "-"%char) = true.
Proof.
  induction s as [|c t IH]; [reflexivity|].
  intros H. simpl. destruct (Ascii.eqb c "-"%char); [|exact H].
  exact (IH (no_double_tail _ _ H)).
Qed.

Lemma TrimLeft_first (s : string) : first_byte (TrimLeft s "-"%char) <> Some "-"%char.
Proof.
  induction s as [|c t IH]; simpl; [discriminate|].
  destruct (Ascii.eqb c "-"%char) eqn:E; [exact IH|].
  simpl. intros [= ->]. rewrite Ascii.eqb_refl in E. discriminate.
Qed.

Lemma TrimLeft_fixed (s : string) :
  first_byte s <> Some "-"%char -> TrimLeft s "-"%char = s.
Proof.
  destruct s as [|c t]; [reflexivity|].
  simpl. intros H. destruct (Ascii.eqb c "-"%char) eqn:E; [|reflexivity].
  apply Ascii.eqb_eq in E. subst. contradiction H. reflexivity.
Qed.

Lemma TrimRight_cons (c : ascii) (t : string) :
  TrimRight (String c t) "-"%char
  = match TrimRight t "-"%char with
    | EmptyString => if Ascii.eqb c "-"%char then EmptyString else String c EmptyString
    | String d u => String c (String d u)
    end.
Proof. simpl. destruct (TrimRight t "-"%char); reflexivity. Qed.

Lemma TrimRight_name_bytes (s : string) :
  name_bytes s = true -> name_bytes (TrimRight s "-"%char) = true.
Proof.
  induction s as [|c t IH]; [reflexivity|].
  intros H. simpl in H. apply andb_true_iff in H as [Hc Ht].
  rewrite TrimRight_cons. specialize (IH Ht).
  destruct (TrimRight t "-"%char) as [|d u].
  - destruct (Ascii.eqb c "-"%char); [reflexivity|]. simpl. rewrite Hc. reflexivity.
  - change (is_name_byte c && name_bytes (String d u) = true).
    rewrite Hc, IH. reflexivity.
Qed.

Lemma TrimRight_first (s : string) (d : ascii) (u : string) :
  TrimRight s "-"%char = String d u -> first_byte s = Some d.
Proof.
  destruct s as [|c t]; [discriminate|].
  rewrite TrimRight_cons.
  destruct (TrimRight t "-"%char).
  - destruct (Ascii.eqb c "-"%char); [discriminate|]. intros [= -> _]. reflexivity.
  - intros [= -> _]. reflexivity.
Qed.

Lemma TrimRight_no_double (s : string) :
  no_double_hyphen s = true -> no_double_hyphen (TrimRight s "-"%char) = true.
Proof.
  induction s as [|c t IH]; [reflexivity|].
  intros H. rewrite TrimRight_cons.
  pose proof (IH (no_double_tail _ _ H)) as IHt.
  destruct (TrimRight t "-"%char) as [|d u] eqn:E.
  - destruct (Ascii.eqb c "-"%char); reflexivity.
  - apply TrimRight_first in E.
    destruct t as [|c' t']; [discriminate|].
    simpl in E. injection E as ->.
    change (negb (Ascii.eqb c "-"%char && Ascii.eqb d "-"%char)
            && no_double_hyphen (String d t') = true) in H.
    apply andb_true_iff in H as [H1 _].
    change (negb (Ascii.eqb c "-"%char && Ascii.eqb d "-"%char)
            && no_double_hyphen (String d u) = true).
    rewrite H1, IHt. reflexivity.
Qed.

Lemma TrimRight_last (s : string) : last_byte (TrimRight s "-"%char) <> Some "-"%char.
Proof.
  induction s as [|c t IH]; [discriminate|].
  rewrite TrimRight_cons.
  destruct (TrimRight t "-"%char) as [|d u].
  - destruct (Ascii.eqb c "-"%char) eqn:E; [discriminate|].
    simpl. intros [= ->]. rewrite Ascii.eqb_refl in E. discriminate.
  - exact IH.
Qed.

Lemma TrimRight_keeps_first (s : string) :
  first_byte s <> Some "-"%char -> first_byte (TrimRight s "-"%char) <> Some "-"%char.
Proof.
  intros H. destruct (TrimRight s "-"%char) as [|d u] eqn:E; [discriminate|].
  apply TrimRight_first in E. simpl. rewrite <- E. exact H.
Qed.

Lemma TrimRight_fixed (s : string) :
  last_byte s <> Some "-"%char -> TrimRight s "-"%char = s.
Proof.
  induction s as [|c t IH]; [reflexivity|].
  intros H. rewrite TrimRight_cons.
  destruct t as [|c' t'].
  - simpl. destruct (Ascii.eqb c "-"%char) eqn:E; [|reflexivity].
    apply Ascii.eqb_eq in E. subst. contradiction H. reflexivity.
  - rewrite IH by exact H. reflexivity.
Qed.

(** What [sanitizeName] returns. *)
Lemma sanitizeName_shape (x : string) :
  name_bytes (sanitizeName x) = true
  /\ no_double_hyphen (sanitizeName x) = true
  /\ first_byte (sanitizeName x) <> Some "-"%char
  /\ last_byte (sanitizeName x) <> Some "-"%char.
Proof.
  unfold sanitizeName, Trim. repeat split.
  - apply TrimRight_name_bytes, TrimLeft_name_bytes, collapse_name_bytes,
      replace_invalid_name_bytes.
  - apply TrimRight_no_double, TrimLeft_no_double, collapse_no_double.
  - apply TrimRight_keeps_first, TrimLeft_first.
  - apply TrimRight_last.
Qed.

Lemma sanitizeName_fixed (s : string) :
  name_bytes s = true -> no_double_hyphen s = true ->
  first_byte s <> Some "-"%char -> last_byte s <> Some "-"%char ->
  sanitizeName s = s.
Proof.
  intros H1 H2 H3 H4. unfold sanitizeName, Trim.
  rewrite (replace_invalid_fixed _ H1), (collapse_fixed _ H2),
    (TrimLeft_fixed _ H3), (TrimRight_fixed _ H4).
  reflexivity.
Qed.

Lemma double_hyphen_inside (a b : string) :
  no_double_hyphen (a ++ "--" ++ b) = false.
Proof.
  induction a as [|c a IH]; [reflexivity|].
  destruct a as [|c' a'].
  - simpl. destruct (Ascii.eqb c "-"%char); reflexivity.
  - change (negb (Ascii.eqb c "-"%char && Ascii.eqb c' "-"%char)
            && no_double_hyphen (String c' a' ++ "--" ++ b) = false).
    rewrite IH. apply andb_false_r.
Qed.

Lemma last_byte_snoc (t : string) (c : ascii) :
  last_byte (t ++ String c EmptyString) = Some c.
Proof.
  induction t as [|d t IH]; [reflexivity|].
  simpl. rewrite IH. destruct (t ++ String c ""); [discriminate IH|reflexivity].
Qed.

(** C8.  Sanitization is idempotent; what it returns has no two hyphens in
    a row and neither starts nor ends with a hyphen (the hyphen is the
    separator: it is what every byte outside letters, digits, hyphen and
    underscore is replaced with); and ["-test---service-"] becomes
    ["test-service"]. *)
Theorem sanitizeName_idempotent_and_trimmed :
  (forall x : string, sanitizeName (sanitizeName x) = sanitizeName x)
  /\ (forall x a b : string, sanitizeName x <> a ++ "--" ++ b)
  /\ (forall x t : string, sanitizeName x <> "-" ++ t)
  /\ (forall x t : string, sanitizeName x <> t ++ "-")
  /\ sanitizeName "-test---service-" = "test-service".
Proof.
  split; [|split; [|split; [|split]]].
  - intros x. destruct (sanitizeName_shape x) as (H1 & H2 & H3 & H4).
    apply sanitizeName_fixed; assumption.
  - intros x a b E.
    destruct (sanitizeName_shape x) as (_ & H2 & _).
    rewrite E, double_hyphen_inside in H2. discriminate.
  - intros x t E.
    destruct (sanitizeName_shape x) as (_ & _ & H3 & _).
    rewrite E in H3. apply H3. reflexivity.
  - intros x t E.
    destruct (sanitizeName_shape x) as (_ & _ & _ & H4).
    rewrite E, last_byte_snoc in H4. apply H4. reflexivity.
  - reflexivity.
Qed.

End Sanitize.

(** ** The rule expression parser *)

Section RuleParser.

Lemma append_assoc (a b c : string) : (a ++ b) ++ c = a ++ b ++ c.
Proof. induction a as [|x a IH]; simpl; [reflexivity | now rewrite IH]. Qed.

Lemma strip_prefix_app (p s : string) : strip_prefix p (p ++ s) = Some s.
Proof.
  induction p as [|a p IH]; simpl; [reflexivity|].
  now rewrite Ascii.eqb_refl.
Qed.

Lemma strip_prefix_inv (p s r : string) :
  strip_prefix p s = Some r -> s = p ++ r.
Proof.
  revert s. induction p as [|a p IH]; intros s; simpl.
  - now intros [= ->].
  - destruct s as [|b s]; [discriminate|].
    destruct (Ascii.eqb a b) eqn:E; [|discriminate].
    apply Ascii.eqb_eq in E. subst b. intros H. now rewrite (IH _ H).
Qed.

Lemma skip_spaces_app (ws : string) (c : ascii) (r : string) :
  all_spaces ws = true -> is_space c = false ->
  skip_spaces (ws ++ String c r) = String c r.
Proof.
  intros Hws Hc. induction ws as [|d ws IH]; simpl.
  - now rewrite Hc.
  - simpl in Hws. apply andb_true_iff in Hws as [Hd Hws].
    rewrite Hd. exact (IH Hws).
Qed.

Lemma skip_spaces_inv (s : string) :
  exists ws, s = ws ++ skip_spaces s /\ all_spaces ws = true.
Proof.
  induction s as [|c t (ws & E & Hws)]; simpl.
  - exists "". split; reflexivity.
  - destruct (is_space c) eqn:Hc.
    + exists (String c ws). simpl. rewrite Hc, Hws. split; [|reflexivity].
      now rewrite <- E.
    + exists "". split; reflexivity.
Qed.

Lemma span_app (v r : string) :
  no_backtick v = true ->
  span_not_backtick (v ++ String "`" r) = (v, String "`" r).
Proof.
  intros Hv. induction v as [|c v IH]; simpl; [reflexivity|].
  simpl in Hv. apply andb_true_iff in Hv as [Hc Hv].
  apply negb_true_iff in Hc. rewrite Hc, (IH Hv). reflexivity.
Qed.

Lemma span_inv (s v r : string) :
  span_not_backtick s = (v, r) -> s = v ++ r /\ no_backtick v = true.
Proof.
  revert v r. induction s as [|c t IH]; intros v r; simpl.
  - intros [= <- <-]. split; reflexivity.
  - destruct (Ascii.eqb c "`") eqn:Hc.
    + intros [= <- <-]. split; reflexivity.
    + destruct (span_not_backtick t) as [v' r'] eqn:E.
      intros [= <- <-]. destruct (IH _ _ eq_refl) as [-> Hv].
      simpl. rewrite Hc, Hv. split; reflexivity.
Qed.

Lemma call_then_eq (fn ws1 v ws2 rest : string) :
  call_then fn ws1 v ws2 rest
  = (fn ++ "(")
    ++ (ws1 ++ String "`" (v ++ String "`" (ws2 ++ String ")" rest))).
Proof. unfold call_then. now rewrite append_assoc. Qed.

(** The matcher accepts a call and yields its argument. *)
Lemma match_at_call (fn ws1 v ws2 rest : string) :
  quoted_arg ws1 v ws2 ->
  match_at fn (call_then fn ws1 v ws2 rest) = Some v.
Proof.
  intros (Hne & Hv & H1 & H2). unfold match_at.
  rewrite call_then_eq, strip_prefix_app.
  rewrite (skip_spaces_app ws1 "`" _ H1 eq_refl).
  rewrite (span_app v _ Hv).
  rewrite (skip_spaces_app ws2 ")" _ H2 eq_refl).
  destruct v; [contradiction Hne; reflexivity | reflexivity].
Qed.

(** What the matcher accepts is a call. *)
Lemma match_at_inv (fn s v : string) :
  match_at fn s = Some v ->
  exists ws1 ws2 rest, s = call_then fn ws1 v ws2 rest /\ quoted_arg ws1 v ws2.
Proof.
  unfold match_at. intros H.
  destruct (strip_prefix (fn ++ "(") s) as [r0|] eqn:E0; [|discriminate].
  apply strip_prefix_inv in E0.
  destruct (skip_spaces_inv r0) as (ws1 & E1 & H1).
  destruct (skip_spaces r0) as [|c r1]; [discriminate|].
  destruct (Ascii.eqb c "`") eqn:Hc.
  2:{ destruct c as [[] [] [] [] [] [] [] []]; try discriminate H;
      discriminate Hc. }
  apply Ascii.eqb_eq in Hc. subst c.
  destruct (span_not_backtick r1) as [v' r] eqn:E2.
  apply span_inv in E2 as [E2 Hv].
  destruct v' as [|c v']; [discriminate|].
  destruct r as [|d r2]; [discriminate|].
  destruct (Ascii.eqb d "`") eqn:Hd.
  2:{ destruct d as [[] [] [] [] [] [] [] []]; try discriminate H;
      discriminate Hd. }
  apply Ascii.eqb_eq in Hd. subst d.
  destruct (skip_spaces_inv r2) as (ws2 & E3 & H2).
  destruct (skip_spaces r2) as [|e rest]; [discriminate|].
  destruct (Ascii.eqb e ")") eqn:He.
  2:{ destruct e as [[] [] [] [] [] [] [] []]; try discriminate H;
      discriminate He. }
  apply Ascii.eqb_eq in He. subst e.
  injection H as <-.
  exists ws1, ws2, rest. split.
  - rewrite call_then_eq, E0, E1, E2, E3. reflexivity.
  - repeat split; try assumption. discriminate.
Qed.

Lemma find_here (fn s v : string) :
  match_at fn s = Some v -> FindStringSubmatch fn s = Some v.
Proof. intros H. destruct s; simpl; now rewrite H. Qed.

Lemma find_next (fn : string) (c : ascii) (t : string) :
  match_at fn (String c t) = None ->
  FindStringSubmatch fn (String c t) = FindStringSubmatch fn t.
Proof. intros H. simpl. now rewrite H. Qed.

(** The search finds nothing but calls... *)
Lemma find_sound (fn s v : string) :
  FindStringSubmatch fn s = Some v -> occurs fn s v.
Proof.
  induction s as [|c t IH].
  - simpl. destruct (match_at fn "") eqn:E; [|discriminate].
    intros [= ->]. apply match_at_inv in E as (ws1 & ws2 & rest & E & Q).
    exists "", ws1, ws2, rest. split; assumption.
  - simpl. destruct (match_at fn (String c t)) eqn:E.
    + intros [= ->]. apply match_at_inv in E as (ws1 & ws2 & rest & E & Q).
      exists "", ws1, ws2, rest. split; assumption.
    + intros H. destruct (IH H) as (pre & ws1 & ws2 & post & E' & Q).
      exists (String c pre), ws1, ws2, post. split; [|assumption].
      simpl. now rewrite E'.
Qed.

(** ... and misses no call. *)
Lemma find_complete (fn pre ws1 v ws2 post : string) :
  quoted_arg ws1 v ws2 ->
  exists v', FindStringSubmatch fn (pre ++ call_then fn ws1 v ws2 post)
             = Some v'.
Proof.
  intros Q. induction pre as [|c pre IH].
  - exists v. apply find_here, match_at_call, Q.
  - change (String c pre ++ call_then fn ws1 v ws2 post)
      with (String c (pre ++ call_then fn ws1 v ws2 post)).
    destruct (match_at fn (String c (pre ++ call_then fn ws1 v ws2 post)))
      as [v'|] eqn:E.
    + exists v'. now apply find_here.
    + rewrite (find_next _ _ _ E). exact IH.
Qed.

Lemma find_none_iff (fn s : string) :
  FindStringSubmatch fn s = None <-> ~ contains_call fn s.
Proof.
  split.
  - intros H (v & pre & ws1 & ws2 & post & E & Q).
    destruct (find_complete fn pre _ _ _ post Q) as (v' & F).
    rewrite <- E in F. congruence.
  - intros H. destruct (FindStringSubmatch fn s) as [v|] eqn:E;
      [|reflexivity].
    contradiction H. exists v. now apply find_sound.
Qed.

Lemma find_some_iff (fn s : string) :
  (exists v, FindStringSubmatch fn s = Some v) <-> contains_call fn s.
Proof.
  split.
  - intros (v & H). exists v. now apply find_sound.
  - intros (v & pre & ws1 & ws2 & post & E & Q).
    rewrite E. now apply find_complete.
Qed.

(** A call needs two backticks. *)
Lemma count_backticks_app (a b : string) :
  count_backticks (a ++ b) = (count_backticks a + count_backticks b)%nat.
Proof. induction a as [|c a IH]; simpl; [reflexivity | rewrite IH; lia]. Qed.

Lemma no_backtick_count (v : string) :
  no_backtick v = true -> count_backticks v = O.
Proof.
  induction v as [|c v IH]; simpl; [reflexivity|].
  intros H. apply andb_true_iff in H as [Hc Hv].
  apply negb_true_iff in Hc. rewrite Hc, (IH Hv). reflexivity.
Qed.

Lemma all_spaces_count (ws : string) :
  all_spaces ws = true -> count_backticks ws = O.
Proof.
  induction ws as [|c ws IH]; simpl; [reflexivity|].
  intros H. apply andb_true_iff in H as [Hc Hws].
  rewrite (IH Hws).
  destruct (Ascii.eqb c "`") eqn:E; [|reflexivity].
  apply Ascii.eqb_eq in E. subst c. discriminate Hc.
Qed.

Lemma find_needs_two_backticks (fn s : string) :
  (count_backticks s < 2)%nat -> FindStringSubmatch fn s = None.
Proof.
  intros H. apply find_none_iff.
  intros (v & pre & ws1 & ws2 & post & E & Q). subst s.
  unfold call_then in H.
  repeat (rewrite count_backticks_app in H; simpl in H).
  lia.
Qed.

(** The search passes over a byte the name of the function does not start
    with, and so over spaces and backticks. *)
Lemma match_at_first (a : ascii) (fn : string) (c : ascii) (t : string) :
  Ascii.eqb a c = false -> match_at (String a fn) (String c t) = None.
Proof. intros H. unfold match_at. simpl. now rewrite H. Qed.

Lemma find_skip_spaces (a : ascii) (fn ws r : string) :
  is_space a = false -> all_spaces ws = true ->
  FindStringSubmatch (String a fn) (ws ++ r)
  = FindStringSubmatch (String a fn) r.
Proof.
  intros Ha Hws. induction ws as [|c ws IH]; [reflexivity|].
  simpl in Hws. apply andb_true_iff in Hws as [Hc Hws].
  change (String c ws ++ r) with (String c (ws ++ r)).
  rewrite find_next; [exact (IH Hws)|].
  apply match_at_first.
  destruct (Ascii.eqb a c) eqn:E; [|reflexivity].
  apply Ascii.eqb_eq in E. congruence.
Qed.

(** After the opening parenthesis of a single call no other call starts. *)
Lemma find_inside_call (a : ascii) (fn ws1 v ws2 : string) :
  is_space a = false -> Ascii.eqb a "`" = false ->
  quoted_arg ws1 v ws2 ->
  FindStringSubmatch (String a fn) (ws1 ++ "`" ++ v ++ "`" ++ ws2 ++ ")")
  = None.
Proof.
  intros Ha Hb (_ & Hv & H1 & H2).
  rewrite (find_skip_spaces _ _ _ _ Ha H1).
  change ("`" ++ v ++ "`" ++ ws2 ++ ")")
    with (String "`" (v ++ "`" ++ ws2 ++ ")")).
  rewrite find_next by (apply match_at_first; exact Hb).
  apply find_needs_two_backticks.
  repeat (rewrite count_backticks_app; simpl).
  rewrite (no_backtick_count _ Hv), (all_spaces_count _ H2). lia.
Qed.

(** The three calls of the grammar, each on its own. *)
Lemma parseRule_Host (ws1 v ws2 : string) :
  quoted_arg ws1 v ws2 ->
  parseRule (call "Host" ws1 v ws2) = Ok ("host_matches", v).
Proof.
  intros Q. unfold parseRule, call.
  now rewrite (find_here _ _ _ (match_at_call "Host" _ _ _ "" Q)).
Qed.

Lemma parseRule_PathPrefix (ws1 v ws2 : string) :
  quoted_arg ws1 v ws2 ->
  parseRule (call "PathPrefix" ws1 v ws2) = Ok ("path_beg", v).
Proof.
  intros Q. unfold parseRule.
  assert (FindStringSubmatch "Host" (call "PathPrefix" ws1 v ws2) = None)
    as ->.
  { unfold call, call_then.
    change ("PathPrefix" ++ "(" ++ ws1 ++ "`" ++ v ++ "`" ++ ws2 ++ ")" ++ "")
      with ("PathPrefix(" ++ ws1 ++ "`" ++ v ++ "`" ++ ws2 ++ ")").
    cbn [append].
    repeat (rewrite find_next by (apply match_at_first; reflexivity)).
    now apply find_inside_call. }
  unfold call.
  now rewrite (find_here _ _ _ (match_at_call "PathPrefix" _ _ _ "" Q)).
Qed.

Lemma parseRule_Path (ws1 v ws2 : string) :
  quoted_arg ws1 v ws2 ->
  parseRule (call "Path" ws1 v ws2) = Ok ("path", v).
Proof.
  intros Q. unfold parseRule.
  assert (FindStringSubmatch "Host" (call "Path" ws1 v ws2) = None) as ->.
  { unfold call, call_then.
    change ("Path" ++ "(" ++ ws1 ++ "`" ++ v ++ "`" ++ ws2 ++ ")" ++ "")
      with ("Path(" ++ ws1 ++ "`" ++ v ++ "`" ++ ws2 ++ ")").
    cbn [append].
    repeat (rewrite find_next by (apply match_at_first; reflexivity)).
    now apply find_inside_call. }
  assert (FindStringSubmatch "PathPrefix" (call "Path" ws1 v ws2) = None)
    as ->.
  { unfold call, call_then.
    change ("Path" ++ "(" ++ ws1 ++ "`" ++ v ++ "`" ++ ws2 ++ ")" ++ "")
      with ("Path(" ++ ws1 ++ "`" ++ v ++ "`" ++ ws2 ++ ")").
    cbn [append].
    rewrite find_next by reflexivity.
    repeat (rewrite find_next by (apply match_at_first; reflexivity)).
    now apply find_inside_call. }
  unfold call.
  now rewrite (find_here _ _ _ (match_at_call "Path" _ _ _ "" Q)).
Qed.

Lemma parseRule_cases (rule : string) :
  (contains_call "Host" rule ->
   exists v, occurs "Host" rule v /\ parseRule rule = Ok ("host_matches", v))
  /\ (~ contains_call "Host" rule -> contains_call "PathPrefix" rule ->
      exists v, occurs "PathPrefix" rule v
                /\ parseRule rule = Ok ("path_beg", v))
  /\ (~ contains_call "Host" rule -> ~ contains_call "PathPrefix" rule ->
      contains_call "Path" rule ->
      exists v, occurs "Path" rule v /\ parseRule rule = Ok ("path", v))
  /\ (~ contains_call "Host" rule -> ~ contains_call "PathPrefix" rule ->
      ~ contains_call "Path" rule ->
      parseRule rule
      = Err (Errorf "unsupported rule format: %s" [ArgS rule] None)).
Proof.
  unfold parseRule. split; [|split; [|split]].
  - intros H. apply find_some_iff in H as (v & H).
    exists v. rewrite H. split; [now apply find_sound | reflexivity].
  - intros H0 H. apply find_none_iff in H0.
    apply find_some_iff in H as (v & H).
    exists v. rewrite H0, H. split; [now apply find_sound | reflexivity].
  - intros H0 H1 H. apply find_none_iff in H0, H1.
    apply find_some_iff in H as (v & H).
    exists v. rewrite H0, H1, H. split; [now apply find_sound | reflexivity].
  - intros H0 H1 H2. apply find_none_iff in H0, H1, H2.
    now rewrite H0, H1, H2.
Qed.

End RuleParser.

(** C3.  The parser tries the pattern of [Host], then that of
    [PathPrefix], then that of [Path], and returns at the first of them that
    has a call anywhere in the rule; a rule with a call of none of the three
    is refused as an unsupported rule format.  A call [Host(`v`)], alone,
    with optional spaces inside the parentheses, gives [(host_matches, v)];
    [PathPrefix(`v`)] gives [(path_beg, v)]; [Path(`v`)] gives [(path, v)]. *)
Theorem parseRule_order_and_mapping :
  (forall rule : string,
     (contains_call "Host" rule ->
      exists v, occurs "Host" rule v
                /\ parseRule rule = Ok ("host_matches", v))
     /\ (~ contains_call "Host" rule -> contains_call "PathPrefix" rule ->
         exists v, occurs "PathPrefix" rule v
                   /\ parseRule rule = Ok ("path_beg", v))
     /\ (~ contains_call "Host" rule -> ~ contains_call "PathPrefix" rule ->
         contains_call "Path" rule ->
         exists v, occurs "Path" rule v /\ parseRule rule = Ok ("path", v))
     /\ (~ contains_call "Host" rule -> ~ contains_call "PathPrefix" rule ->
         ~ contains_call "Path" rule ->
         parseRule rule
         = Err (Errorf "unsupported rule format: %s" [ArgS rule] None)))
  /\ (forall ws1 v ws2 : string,
        quoted_arg ws1 v ws2 ->
        parseRule (call "Host" ws1 v ws2) = Ok ("host_matches", v)
        /\ parseRule (call "PathPrefix" ws1 v ws2) = Ok ("path_beg", v)
        /\ parseRule (call "Path" ws1 v ws2) = Ok ("path", v)).
Proof.
  split.
  - exact parseRule_cases.
  - intros ws1 v ws2 Q. repeat split.
    + now apply parseRule_Host.
    + now apply parseRule_PathPrefix.
    + now apply parseRule_Path.
Qed.

Lemma parseRule_order_and_mapping_witness :
  parseRule "Host( `a.example.com` )" = Ok ("host_matches", "a.example.com")
  /\ parseRule "PathPrefix(`/api`)" = Ok ("path_beg", "/api")
  /\ parseRule "Path(`/api`)" = Ok ("path", "/api")
  /\ parseRule "Header(`X-Tenant`)"
     = Err (Errorf "unsupported rule format: %s"
              [ArgS "Header(`X-Tenant`)"] None).
Proof.
  assert (Q1 : quoted_arg " " "a.example.com" " ")
    by (repeat split; discriminate).
  assert (Q2 : quoted_arg "" "/api" "") by (repeat split; discriminate).
  split; [|split; [|split]].
  - exact (proj1 (proj2 parseRule_order_and_mapping _ _ _ Q1)).
  - exact (proj1 (proj2 (proj2 parseRule_order_and_mapping _ _ _ Q2))).
  - exact (proj2 (proj2 (proj2 parseRule_order_and_mapping _ _ _ Q2))).
  - apply (proj1 parseRule_order_and_mapping "Header(`X-Tenant`)");
      apply find_none_iff; reflexivity.
Defined.

(** C4, the claim as stated fails: a compound expression is parsed, not
    refused. *)
Lemma compound_rule_is_parsed :
  parseRule "Host(`a.example.com`) && Path(`/api`)"
  = Ok ("host_matches", "a.example.com")
  /\ ~ (exists e, parseRule "Host(`a.example.com`) && Path(`/api`)" = Err e).
Proof.
  split; [reflexivity|]. intros (e & H). discriminate H.
Qed.

(** C4, amended.  An expression that combines calls of the grammar, or
    carries anything before or after a call, is not refused: as soon as the
    string contains one call of one of the three functions, the parser
    returns the pair of the first pattern, in the order [Host],
    [PathPrefix], [Path], that has a call in the string, and ignores the
    rest of the expression. *)
Theorem parseRule_accepts_compound
    (fn pre ws1 v ws2 post : string) :
  grammar_function fn -> quoted_arg ws1 v ws2 ->
  let rule := pre ++ call_then fn ws1 v ws2 post in
  exists operator value,
    parseRule rule = Ok (operator, value)
    /\ (contains_call "Host" rule ->
        operator = "host_matches" /\ occurs "Host" rule value)
    /\ (~ contains_call "Host" rule -> contains_call "PathPrefix" rule ->
        operator = "path_beg" /\ occurs "PathPrefix" rule value)
    /\ (~ contains_call "Host" rule -> ~ contains_call "PathPrefix" rule ->
        operator = "path" /\ occurs "Path" rule value).
Proof.
  intros G Q rule.
  assert (C : contains_call fn rule).
  { exists v, pre, ws1, ws2, post. split; [reflexivity | exact Q]. }
  destruct (parseRule_cases rule) as (P1 & P2 & P3 & _).
  destruct (FindStringSubmatch "Host" rule) as [h|] eqn:EH.
  - assert (CH : contains_call "Host" rule)
      by (apply find_some_iff; now exists h).
    destruct (P1 CH) as (x & O & E).
    exists "host_matches", x. split; [exact E|].
    split; [now intros _ | split; intros N; now contradiction N].
  - assert (NH : ~ contains_call "Host" rule) by now apply find_none_iff.
    destruct (FindStringSubmatch "PathPrefix" rule) as [p|] eqn:EP.
    + assert (CP : contains_call "PathPrefix" rule)
        by (apply find_some_iff; now exists p).
      destruct (P2 NH CP) as (x & O & E).
      exists "path_beg", x. split; [exact E|].
      split; [intros CH; now contradiction NH|].
      split; [now intros _ _ | intros _ N; now contradiction N].
    + assert (NP : ~ contains_call "PathPrefix" rule)
        by now apply find_none_iff.
      assert (CPa : contains_call "Path" rule).
      { destruct G as [-> | [-> | ->]];
          [now contradiction NH | now contradiction NP | exact C]. }
      destruct (P3 NH NP CPa) as (x & O & E).
      exists "path", x. split; [exact E|].
      split; [intros CH; now contradiction NH|].
      split; [intros _ CP; now contradiction NP | now intros _ _].
Qed.

Lemma parseRule_accepts_compound_witness :
  exists operator value,
    parseRule "Path(`/x`) || Host(`b.example.com`)" = Ok (operator, value)
    /\ operator = "host_matches".
Proof.
  assert (Q : quoted_arg "" "/x" "") by (repeat split; discriminate).
  destruct (parseRule_accepts_compound "Path" "" "" "/x" ""
              " || Host(`b.example.com`)" (or_intror (or_intror eq_refl)) Q)
    as (operator & value & E & H & _).
  exists operator, value. split; [exact E|].
  apply H. apply find_some_iff. exists "b.example.com". reflexivity.
Defined.

(** ** The metadata translator *)

Section Translator.

Lemma append_nonempty (a b : string) : b <> "" -> a ++ b <> "".
Proof. destruct a; simpl; [auto | discriminate]. Qed.

Lemma configureHealthCheck_keeps (config : BackendConfig)
    (labels : gomap string) (e : option error) (c : BackendConfig) :
  configureHealthCheck config labels = (e, c) ->
  bc_Name c = bc_Name config /\ bc_ServerName c = bc_ServerName config
  /\ bc_Port c = bc_Port config /\ bc_Address c = bc_Address config
  /\ bc_CheckType c = bc_CheckType config
  /\ bc_BackendPassThru c = bc_BackendPassThru config.
Proof.
  unfold configureHealthCheck.
  repeat match goal with
         | |- context [if ?b then _ else _] => destruct b
         end; intros [= <- <-]; repeat split.
Qed.

(** The health check of a configuration whose check type is the one of the
    labels passes exactly when the labels are acceptable, and then leaves no
    [http] check without a path. *)
Lemma configureHealthCheck_verdict (config : BackendConfig)
    (labels : gomap string) :
  bc_CheckType config
  = getStringLabel labels ControllerBackendCheckTypeLabel "basic" ->
  match configureHealthCheck config labels with
  | (None, c) =>
      health_ok labels = true
      /\ (String.eqb (bc_CheckType c) HTTPValue
          && String.eqb (bc_HealthCheckPath c) "" = false)
  | (Some _, _) => health_ok labels = false
  end.
Proof.
  intros E. unfold configureHealthCheck, health_ok. rewrite <- E.
  destruct (String.eqb (ToLower (bc_CheckType config)) NoneValue) eqn:E1.
  { change NoneValue with "none" in E1. rewrite E1. split; [reflexivity|].
    simpl. rewrite andb_false_iff. left.
    apply String.eqb_neq. intros F. rewrite F in E1. discriminate E1. }
  destruct (String.eqb (ToLower (bc_CheckType config)) BasicValue) eqn:E2.
  { change NoneValue with "none" in E1. change BasicValue with "basic" in E2.
    rewrite E1, E2. split; [reflexivity|].
    simpl. rewrite andb_false_iff. left.
    apply String.eqb_neq. intros F. rewrite F in E2. discriminate E2. }
  change NoneValue with "none" in E1. change BasicValue with "basic" in E2.
  rewrite E1, E2.
  destruct (String.eqb (ToLower (bc_CheckType config)) HTTPValue) eqn:E3.
  - change HTTPValue with "http" in E3. rewrite E3.
    destruct (String.eqb (getStringLabel labels
                            ControllerBackendHealthCheckLabel "") "") eqn:E4.
    + reflexivity.
    + split; [reflexivity|]. simpl. rewrite E4. apply andb_false_r.
  - change HTTPValue with "http" in E3. rewrite E3. reflexivity.
Qed.

Lemma backend_name_nonempty (label name : string) :
  (if String.eqb label "" then name ++ "-backend" else label) <> "".
Proof.
  destruct (String.eqb label "") eqn:E.
  - apply append_nonempty. discriminate.
  - now apply String.eqb_neq.
Qed.

Lemma validateConfig_passes (bc : BackendConfig) (fc : FrontendConfig)
    (endpoint : string) :
  bc_Name bc <> "" -> bc_Port bc <> "" -> bc_Address bc <> "" ->
  fc_Rule fc <> "" ->
  String.eqb (bc_CheckType bc) HTTPValue
  && String.eqb (bc_HealthCheckPath bc) "" = false ->
  validateConfig {| cc_BackendConfig := bc; cc_FrontendConfig := fc;
                    cc_EndpointName := endpoint; cc_ParseMode := "";
                    cc_Enabled := true |} = None.
Proof.
  intros H1 H2 H3 H4 H5. unfold validateConfig. simpl.
  apply String.eqb_neq in H1, H2, H3, H4.
  now rewrite H1, H2, H3, H4, H5.
Qed.

Lemma frontend_config_ok (labels : gomap string) :
  getStringLabel labels ControllerFrontendRuleLabel "" <> "" ->
  exists fc, parseControllerFrontendConfig labels = Ok fc
             /\ fc_Rule fc
                = getStringLabel labels ControllerFrontendRuleLabel "".
Proof.
  intros H. unfold parseControllerFrontendConfig.
  apply String.eqb_neq in H. rewrite H. eexists. split; reflexivity.
Qed.






Lemma getStringLabel_get (labels : gomap string) (key default : string) :
  getStringLabel labels key default
  = match map_get labels key with Some v => v | None => default end.
Proof.
  unfold getStringLabel, map_index. now destruct (map_get labels key).
Qed.




End Translator.








(** ** The retry wrapper *)

Section RetryFacts.

Variable T : Type.
Variable m : Manager.
Variable operation : T -> option error * T.

Let N := RetryAttempts (Global (config m)).
Let D := RetryDelay (Global (config m)).

Lemma schedule_next (a : nat) :
  schedule D (S a)
  = ((if (Z.of_nat a >? 0)%Z
      then schedule D a ++ [Slept (Duration_mul (Z.of_nat a) D)]
      else schedule D a) ++ [Invoked])%list.
Proof.
  destruct a as [|a]; [reflexivity|].
  assert ((Z.of_nat (S a) >? 0)%Z = true) as -> by (apply Z.gtb_lt; lia).
  rewrite <- app_assoc. reflexivity.
Qed.

Lemma state_after_next (t : T) (k : nat) :
  state_after operation t (S k)
  = state_after operation (snd (operation t)) k.
Proof. reflexivity. Qed.

Lemma outcome_next (t : T) (k : nat) :
  outcome operation t (S k) = outcome operation (snd (operation t)) k.
Proof. reflexivity. Qed.

(** The loop, started after [a] attempts with the log of those attempts. *)
Lemma retry_from_observed (remaining : nat) :
  forall (a : nat) (t : T) (lastErr : option error),
  exists (k : nat) (verdict : option error),
    (k <= remaining)%nat
    /\ retry_from m remaining (Z.of_nat a) lastErr (observed operation)
         (t, schedule D a)
       = (verdict, (state_after operation t k, schedule D (a + k)))
    /\ (forall i, (S i < k)%nat -> outcome operation t i <> None)
    /\ ((exists i, k = S i /\ outcome operation t i = None /\ verdict = None)
        \/ (k = remaining
            /\ (forall i, (i < k)%nat -> outcome operation t i <> None)
            /\ verdict
               = Some (retries_exhausted N
                         match k with
                         | O => lastErr
                         | S i => outcome operation t i
                         end))).
Proof.
  induction remaining as [|r IH]; intros a t lastErr.
  - exists O, (Some (retries_exhausted N lastErr)).
    split; [lia|]. split; [now rewrite Nat.add_0_r|].
    split; [intros i Hi; lia|].
    right. split; [reflexivity|]. split; [intros i Hi; lia | reflexivity].
  - cbn [retry_from].
    assert (Step : observed operation
                     (if (Z.of_nat a >? 0)%Z
                      then time_Sleep
                             (Duration_mul (Z.of_nat a)
                                (RetryDelay (Global (config m))))
                             (t, schedule D a)
                      else (t, schedule D a))
                   = (fst (operation t),
                      (snd (operation t), schedule D (S a)))).
    { rewrite schedule_next. unfold observed.
      destruct (Z.of_nat a >? 0)%Z; simpl;
        destruct (operation t); reflexivity. }
    rewrite Step. clear Step.
    destruct (operation t) as [[err|] t'] eqn:Op; cbn [fst snd].
    + replace (Z.of_nat a + 1)%Z with (Z.of_nat (S a)) by lia.
      destruct (IH (S a) t' (Some err)) as (k & verdict & Hk & E & Early & V).
      exists (S k), verdict.
      split; [lia|].
      split.
      { rewrite E, state_after_next, Op. cbn [snd].
        now replace (a + S k)%nat with (S a + k)%nat by lia. }
      split.
      { intros [|i] Hi.
        - unfold outcome. cbn [state_after]. rewrite Op. discriminate.
        - rewrite outcome_next, Op. apply Early. lia. }
      destruct V as [(i & -> & Oi & ->) | (-> & All & ->)].
      * left. exists (S i). rewrite outcome_next, Op. now repeat split.
      * right. split; [reflexivity|]. split.
        { intros [|i] Hi.
          - unfold outcome. cbn [state_after]. rewrite Op. discriminate.
          - rewrite outcome_next, Op. apply All. lia. }
        { destruct r as [|r'].
          - unfold outcome. cbn [state_after]. now rewrite Op.
          - now rewrite outcome_next, Op. }
    + exists 1%nat, None.
      split; [lia|].
      split.
      { cbn [state_after]. rewrite Op.
        now replace (a + 1)%nat with (S a) by lia. }
      split; [intros i Hi; lia|].
      left. exists O. unfold outcome. cbn [state_after]. now rewrite Op.
Qed.

Lemma invocations_schedule (k : nat) : invocations (schedule D k) = k.
Proof.
  induction k as [|k IH]; [reflexivity|].
  destruct k as [|k]; [reflexivity|].
  change (schedule D (S (S k)))
    with (schedule D (S k) ++ [Slept (Duration_mul (Z.of_nat (S k)) D);
                               Invoked])%list.
  unfold invocations in *. rewrite filter_app, length_app, IH.
  simpl. lia.
Qed.

End RetryFacts.

Lemma Duration_mul_exact (a b : Z) :
  (- 2 ^ 63 <= a * b < 2 ^ 63)%Z -> Duration_mul a b = (a * b)%Z.
Proof.
  intros H. unfold Duration_mul, wrap64.
  rewrite Z.mod_small by lia. lia.
Qed.

(** C2.  For every operation, run from every state, and every
    configuration: the retry wrapper invokes the operation [k] times for some
    [k] not above the configured number of attempts; attempt 1 is made at
    once and attempt [j + 1] follows a sleep of [j] times the base delay (the
    product of two [time.Duration]s, which is the integer product whenever
    that fits 64 bits); the attempts before the last one made all failed; the
    wrapper either stops at the first attempt that succeeds and returns nil,
    or has made all the configured attempts, all failed, and returns an error
    that wraps the error of the last attempt (nil when no attempt was
    configured).  With 3 attempts and a base delay of 5s, an operation that
    fails twice is invoked 3 times, after sleeps of 5s and 10s, 15s in all,
    and the wrapper returns nil. *)
Theorem retryOperation_behaviour :
  (forall (T : Type) (m : Manager) (operation : T -> option error * T)
          (t : T),
     let N := RetryAttempts (Global (config m)) in
     let D := RetryDelay (Global (config m)) in
     exists (k : nat) (verdict : option error),
       retryOperation m (observed operation) (t, [])
       = (verdict, (state_after operation t k, schedule D k))
       /\ (k <= Z.to_nat N)%nat
       /\ invocations (schedule D k) = k
       /\ (forall i, (S i < k)%nat -> outcome operation t i <> None)
       /\ ((exists i, k = S i /\ outcome operation t i = None
                      /\ verdict = None)
           \/ (k = Z.to_nat N
               /\ (forall i, (i < k)%nat -> outcome operation t i <> None)
               /\ verdict
                  = Some (retries_exhausted N
                            match k with
                            | O => None
                            | S i => outcome operation t i
                            end))))
  /\ (forall D : Z,
        schedule D 1 = [Invoked]
        /\ forall j : nat,
             schedule D (S (S j))
             = (schedule D (S j)
                ++ [Slept (Duration_mul (Z.of_nat (S j)) D); Invoked])%list)
  /\ (forall (D : Z) (j : nat),
        (- 2 ^ 63 <= Z.of_nat j * D < 2 ^ 63)%Z ->
        Duration_mul (Z.of_nat j) D = (Z.of_nat j * D)%Z)
  /\ (let m := NewManager (sample_config 3) in
      let log := [Invoked; Slept 5000000000; Invoked; Slept 10000000000;
                  Invoked] in
      retryOperation m (observed (flaky 2)) (O, []) = (None, (3%nat, log))
      /\ total_sleep log = 15000000000%Z).
Proof.
  split; [|split; [|split]].
  - intros T m operation t N D.
    destruct (retry_from_observed T m operation (Z.to_nat N) O t None)
      as (k & verdict & Hk & E & Early & V).
    exists k, verdict.
    split; [exact E|]. split; [exact Hk|].
    split; [apply invocations_schedule|]. split; [exact Early | exact V].
  - intros D. split; reflexivity.
  - intros D j H. now apply Duration_mul_exact.
  - split; reflexivity.
Qed.

Lemma retryOperation_behaviour_witness :
  Duration_mul (Z.of_nat 2) 5000000000 = (Z.of_nat 2 * 5000000000)%Z
  /\ exists (k : nat) (verdict : option error),
       retryOperation (NewManager (sample_config 3)) (observed (flaky 5))
         (O, [])
       = (verdict, (state_after (flaky 5) O k, schedule 5000000000 k))
       /\ (k <= 3)%nat.
Proof.
  split.
  - apply (proj1 (proj2 (proj2 retryOperation_behaviour))). simpl. lia.
  - destruct (proj1 retryOperation_behaviour nat
                (NewManager (sample_config 3)) (flaky 5) O)
      as (k & verdict & E & Hk & _).
    exists k, verdict. split; [exact E | exact Hk].
Defined.

(** ** No attempt configured *)

Lemma retryOperation_zero (St : Type) (C : Clock St) (m : Manager)
    (operation : St -> option error * St) (s : St) :
  RetryAttempts (Global (config m)) = 0%Z ->
  retryOperation m operation s = (Some (retries_exhausted 0 None), s).
Proof.
  intros H. unfold retryOperation. rewrite H. simpl. rewrite H. reflexivity.
Qed.

(** ** What the manager sends *)

Section Requests.

Lemma makeRequest_events (c : Client) (method endpoint : string) (body : Body)
    (w : World) (r : result APIResponse) (w' : World) :
  makeRequest c method endpoint body w = (r, w') ->
  events w' = (events w ++ [request c method endpoint body])%list.
Proof.
  unfold makeRequest, bind, emit, next_answer, ret. simpl.
  destruct (script w) as [|[|err|resp] rest]; simpl.
  - destruct (serve _ _ _ _). now intros [= <- <-].
  - destruct (serve _ _ _ _). now intros [= <- <-].
  - now intros [= <- <-].
  - now intros [= <- <-].
Qed.

Lemma appends_ret {A : Type} (P : Event -> Prop) (a : A) : appends P (ret a).
Proof.
  intros w a' w' [= <- <-]. exists []. split; [now rewrite app_nil_r|].
  constructor.
Qed.

Lemma appends_bind {A B : Type} (P : Event -> Prop) (f : M A)
    (k : A -> M B) :
  appends P f -> (forall a, appends P (k a)) -> appends P (bind f k).
Proof.
  intros Hf Hk w b w'. unfold bind.
  destruct (f w) as [a w1] eqn:E. intros H.
  destruct (Hf _ _ _ E) as (l1 & E1 & F1).
  destruct (Hk a _ _ _ H) as (l2 & E2 & F2).
  exists (l1 ++ l2)%list. split.
  - now rewrite E2, E1, app_assoc.
  - apply Forall_app. now split.
Qed.

Lemma appends_weaken {A : Type} (P Q : Event -> Prop) (f : M A) :
  (forall e, P e -> Q e) -> appends P f -> appends Q f.
Proof.
  intros PQ Hf w a w' E. destruct (Hf _ _ _ E) as (l & E1 & F).
  exists l. split; [exact E1|]. eapply Forall_impl; eauto.
Qed.

Lemma appends_makeRequest (P : Event -> Prop) (c : Client)
    (method endpoint : string) (body : Body) :
  P (request c method endpoint body) ->
  appends P (makeRequest c method endpoint body).
Proof.
  intros H w r w' E. apply makeRequest_events in E.
  exists [request c method endpoint body]. split; [exact E|].
  now constructor.
Qed.

Lemma appends_retry_from (P : Event -> Prop) (m : Manager)
    (operation : M (option error)) (remaining : nat) :
  appends P operation -> (forall d, P (EvSleep d)) ->
  forall attempt lastErr,
    appends P (retry_from m remaining attempt lastErr operation).
Proof.
  intros Hop Hs. induction remaining as [|r IH]; intros attempt lastErr.
  - intros w a w' [= <- <-]. exists []. split; [now rewrite app_nil_r|].
    constructor.
  - intros w a w'. cbn [retry_from].
    set (w1 := if (attempt >? 0)%Z then _ else w).
    assert (S1 : exists l, events w1 = (events w ++ l)%list /\ Forall P l).
    { subst w1. destruct (attempt >? 0)%Z.
      - eexists. split; [reflexivity|]. constructor; [apply Hs | constructor].
      - exists []. split; [now rewrite app_nil_r | constructor]. }
    destruct S1 as (l1 & E1 & F1).
    destruct (operation w1) as [[err|] w2] eqn:Op; intros H.
    + destruct (Hop _ _ _ Op) as (l2 & E2 & F2).
      destruct (IH _ _ _ _ _ H) as (l3 & E3 & F3).
      exists (l1 ++ l2 ++ l3)%list. split.
      * now rewrite E3, E2, E1, !app_assoc.
      * repeat (apply Forall_app; split); assumption.
    + injection H as <- <-.
      destruct (Hop _ _ _ Op) as (l2 & E2 & F2).
      exists (l1 ++ l2)%list. split.
      * now rewrite E2, E1, app_assoc.
      * apply Forall_app. now split.
Qed.

Lemma appends_retryOperation (P : Event -> Prop) (m : Manager)
    (operation : M (option error)) :
  appends P operation -> (forall d, P (EvSleep d)) ->
  appends P (retryOperation m operation).
Proof. intros Hop Hs. now apply appends_retry_from. Qed.

End Requests.

(** ** Lookups and the decision between create and update *)

Section Decisions.

Variable m : Manager.
Variable client : Client.

Lemma FindBackendByName_events (name : string) (w : World)
    (r : result (option HAProxyBackend)) (w1 : World) :
  FindBackendByName client name w = (r, w1) ->
  events w1 = (events w ++ [list_backends client])%list.
Proof.
  unfold FindBackendByName, GetHAProxyBackends, bind.
  destruct (makeRequest client "GET" _ BodyNil w) as [r0 w0] eqn:E.
  apply makeRequest_events in E.
  destruct r0 as [resp|err]; [destruct (resp_Data resp)|];
    unfold ret; intros [= <- <-]; exact E.
Qed.

Lemma FindFrontendByName_events (name : string) (w : World)
    (r : result (option HAProxyFrontend)) (w1 : World) :
  FindFrontendByName client name w = (r, w1) ->
  events w1 = (events w ++ [list_frontends client])%list.
Proof.
  unfold FindFrontendByName, GetHAProxyFrontends, bind.
  destruct (makeRequest client "GET" _ BodyNil w) as [r0 w0] eqn:E.
  apply makeRequest_events in E.
  destruct r0 as [resp|err]; [destruct (resp_Data resp)|];
    unfold ret; intros [= <- <-]; exact E.
Qed.

(** What a lookup finds bears the name looked up. *)
Lemma FindBackendByName_name (name : string) (w : World)
    (existing : HAProxyBackend) (w1 : World) :
  FindBackendByName client name w = (Ok (Some existing), w1) ->
  hb_Name existing = name.
Proof.
  unfold FindBackendByName, bind.
  destruct (GetHAProxyBackends client w) as [[l|err] w0]; unfold ret;
    [|discriminate].
  intros [= F _]. apply find_some in F as [_ F]. now apply String.eqb_eq.
Qed.

Lemma FindFrontendByName_name (name : string) (w : World)
    (existing : HAProxyFrontend) (w1 : World) :
  FindFrontendByName client name w = (Ok (Some existing), w1) ->
  hf_Name existing = name.
Proof.
  unfold FindFrontendByName, bind.
  destruct (GetHAProxyFrontends client w) as [[l|err] w0]; unfold ret;
    [|discriminate].
  intros [= F _]. apply find_some in F as [_ F]. now apply String.eqb_eq.
Qed.

(** [syncBackend] after its lookup. *)
Lemma syncBackend_decision (cfg : ContainerConfig) (w : World)
    (r : result (option HAProxyBackend)) (w1 : World) :
  let desired := ConvertToHAProxyBackend cfg in
  FindBackendByName client (hb_Name desired) w = (r, w1) ->
  syncBackend m client cfg w
  = match r with
    | Err err =>
        (Some (Errorf "failed to check existing backend: %w" [] (Some err)),
         w1)
    | Ok None =>
        retryOperation m (CreateHAProxyBackend client desired) w1
    | Ok (Some existing) =>
        retryOperation m
          (UpdateHAProxyBackend client
             (set_backend_id desired (hb_ID existing))) w1
    end.
Proof.
  intros desired H. unfold syncBackend, bind. fold desired. rewrite H.
  destruct r as [[existing|]|err]; reflexivity.
Qed.

(** [syncFrontend] after its lookup. *)
Lemma syncFrontend_decision (cfg : ContainerConfig) (expression value : string)
    (w : World) (r : result (option HAProxyFrontend)) (w1 : World) :
  parseRule (fc_Rule (cc_FrontendConfig cfg)) = Ok (expression, value) ->
  let name := fc_Name (cc_FrontendConfig cfg) in
  let desired :=
    {| hf_Name := name; hf_HAACLs := [acl_of cfg expression value];
       hf_ActionItems := [action_of cfg]; hf_ID := 0 |} in
  FindFrontendByName client name w = (r, w1) ->
  syncFrontend m client cfg w
  = match r with
    | Err err =>
        (Some (Errorf "failed to check existing frontend: %w" [] (Some err)),
         w1)
    | Ok None =>
        retryOperation m (CreateHAProxyFrontend client desired) w1
    | Ok (Some existing) =>
        retryOperation m
          (UpdateFrontendWithACLAndAction client (hf_ID existing)
             (acl_of cfg expression value) (action_of cfg)) w1
    end.
Proof.
  intros P name desired H.
  unfold syncFrontend, ConvertToHAProxyFrontend. rewrite P.
  unfold bind. cbn [hf_Name hf_HAACLs hf_ActionItems]. fold name.
  rewrite H. destruct r as [[existing|]|err]; reflexivity.
Qed.

Lemma appends_call (P : Event -> Prop) (method endpoint : string)
    (body : Body) (failure : string) :
  P (request client method endpoint body) ->
  appends P (r <- makeRequest client method endpoint body ;;
             ret (expect_success failure r)).
Proof.
  intros H. apply appends_bind; [now apply appends_makeRequest|].
  intros r. apply appends_ret.
Qed.

Lemma appends_UpdateFrontendWithACLAndAction (id : Z) (acl : HAProxyACL)
    (action : HAProxyAction) :
  appends (fun e => e = add_acl_call client id acl
                    \/ e = add_action_call client id action)
    (UpdateFrontendWithACLAndAction client id acl action).
Proof.
  unfold UpdateFrontendWithACLAndAction.
  apply appends_bind.
  - apply appends_call. now left.
  - intros [err|]; [apply appends_ret|].
    apply appends_bind.
    + apply appends_call. now right.
    + intros [err|]; apply appends_ret.
Qed.

End Decisions.

(** ** Against a remote system that answers every request *)

Section Delivered.

Variable client : Client.

Lemma makeRequest_delivered (method endpoint : string) (body : Body)
    (w : World) :
  reliable w ->
  exists w',
    makeRequest client method endpoint body w
    = (decode_response (fst (serve method endpoint body (remote_of w client))),
       w')
    /\ remote_of w' client
       = snd (serve method endpoint body (remote_of w client))
    /\ reliable w'
    /\ events w'
       = (events w ++ [request client method endpoint body])%list.
Proof.
  unfold reliable, remote_of. intros R.
  unfold makeRequest, bind, emit, next_answer. simpl. rewrite R. simpl.
  destruct (serve method endpoint body (servers w (baseURL client)))
    as [resp r'].
  eexists. split; [reflexivity|]. simpl.
  rewrite String.eqb_refl. repeat split.
Qed.

Lemma find_numbered_absent {A : Type} (set_id : A -> Z -> A)
    (name_of : A -> string)
    (keeps : forall x id, name_of (set_id x id) = name_of x)
    (name : string) (l : list A) :
  Forall (fun x => name_of x <> name) l ->
  forall from,
    find (fun x => String.eqb (name_of x) name) (numbered set_id from l)
    = None.
Proof.
  induction 1 as [|x l Hx _ IH]; intros from; [reflexivity|].
  simpl. rewrite keeps.
  apply String.eqb_neq in Hx. rewrite Hx. apply IH.
Qed.

Lemma find_numbered_first {A : Type} (set_id : A -> Z -> A)
    (name_of : A -> string)
    (keeps : forall x id, name_of (set_id x id) = name_of x)
    (name : string) (before : list A) (x : A) (rest : list A) :
  Forall (fun y => name_of y <> name) before -> name_of x = name ->
  forall from,
    find (fun y => String.eqb (name_of y) name)
      (numbered set_id from (before ++ x :: rest))
    = Some (set_id x (from + Z.of_nat (List.length before))%Z).
Proof.
  intros Hb Hx. induction Hb as [|y before Hy _ IH]; intros from.
  - simpl. rewrite keeps, Hx, String.eqb_refl. now rewrite Z.add_0_r.
  - simpl numbered. simpl find. rewrite keeps.
    apply String.eqb_neq in Hy. rewrite Hy, IH.
    do 2 f_equal. cbn [List.length]. lia.
Qed.

Lemma update_at_middle {A : Type} (g : A -> A) (before : list A) (x : A)
    (rest : list A) :
  update_at (List.length before) g (before ++ x :: rest)
  = Some (before ++ g x :: rest)%list.
Proof.
  induction before as [|y before IH]; [reflexivity|].
  simpl. now rewrite IH.
Qed.

Lemma update_id_middle {A : Type} (g : A -> A) (before : list A) (x : A)
    (rest : list A) :
  update_id (Z.of_nat (List.length before)) g (before ++ x :: rest)
  = Some (before ++ g x :: rest)%list.
Proof.
  unfold update_id.
  assert ((Z.of_nat (List.length before) <? 0)%Z = false) as ->
    by (apply Z.ltb_ge; lia).
  rewrite Nat2Z.id. apply update_at_middle.
Qed.

Lemma FindFrontendByName_delivered (name : string) (w : World) :
  reliable w ->
  exists w',
    FindFrontendByName client name w
    = (Ok (find (fun f => String.eqb (hf_Name f) name)
             (numbered set_frontend_id 0 (frontends (remote_of w client)))),
       w')
    /\ remote_of w' client = remote_of w client
    /\ reliable w'
    /\ events w' = (events w ++ [list_frontends client])%list.
Proof.
  intros R.
  destruct (makeRequest_delivered "GET"
              "/services/haproxy/frontends?limit=0&offset=0" BodyNil w R)
    as (w' & E & S & R' & Ev).
  exists w'. unfold FindFrontendByName, GetHAProxyFrontends, bind.
  rewrite E. split; [reflexivity|]. repeat split; assumption.
Qed.

Lemma FindBackendByName_delivered (name : string) (w : World) :
  reliable w ->
  exists w',
    FindBackendByName client name w
    = (Ok (find (fun b => String.eqb (hb_Name b) name)
             (numbered set_backend_id 0 (backends (remote_of w client)))),
       w')
    /\ remote_of w' client = remote_of w client
    /\ reliable w'
    /\ events w' = (events w ++ [list_backends client])%list.
Proof.
  intros R.
  destruct (makeRequest_delivered "GET"
              "/services/haproxy/backends?limit=0&offset=0" BodyNil w R)
    as (w' & E & S & R' & Ev).
  exists w'. unfold FindBackendByName, GetHAProxyBackends, bind.
  rewrite E. split; [reflexivity|]. repeat split; assumption.
Qed.

Lemma CreateHAProxyFrontend_delivered (f : HAProxyFrontend) (w : World) :
  reliable w ->
  exists w',
    CreateHAProxyFrontend client f w = (None, w')
    /\ frontends (remote_of w' client)
       = (frontends (remote_of w client) ++ [f])%list
    /\ backends (remote_of w' client) = backends (remote_of w client)
    /\ reliable w'
    /\ events w' = (events w ++ [create_frontend client f])%list.
Proof.
  intros R.
  destruct (makeRequest_delivered "POST" "/services/haproxy/frontend"
              (BodyFrontend f) w R) as (w' & E & S & R' & Ev).
  exists w'. unfold CreateHAProxyFrontend, bind. rewrite E.
  split; [reflexivity|]. rewrite S. repeat split; assumption.
Qed.

Lemma AddACLToFrontend_delivered (acl : HAProxyACL)
    (before : list HAProxyFrontend) (f : HAProxyFrontend)
    (rest : list HAProxyFrontend) (w : World) :
  reliable w -> acl_ID acl = 0%Z ->
  frontends (remote_of w client) = (before ++ f :: rest)%list ->
  exists w',
    AddACLToFrontend client (Z.of_nat (List.length before)) acl w = (None, w')
    /\ frontends (remote_of w' client)
       = (before ++ add_acl acl f :: rest)%list
    /\ backends (remote_of w' client) = backends (remote_of w client)
    /\ reliable w'
    /\ events w'
       = (events w
          ++ [add_acl_call client (Z.of_nat (List.length before)) acl])%list.
Proof.
  intros R Hid F.
  destruct (makeRequest_delivered "POST" "/services/haproxy/frontend/acl"
              (BodyMap [("parent_id",
                         JNumber (Z.of_nat (List.length before)));
                        ("name", JString (acl_Name acl));
                        ("expression", JString (acl_Expression acl));
                        ("value", JString (acl_Value acl))]) w R)
    as (w' & E & S & R' & Ev).
  exists w'. unfold AddACLToFrontend, bind. rewrite E.
  assert (Srv : serve "POST" "/services/haproxy/frontend/acl"
                  (BodyMap [("parent_id",
                             JNumber (Z.of_nat (List.length before)));
                            ("name", JString (acl_Name acl));
                            ("expression", JString (acl_Expression acl));
                            ("value", JString (acl_Value acl))])
                  (remote_of w client)
                = (reply_ok RawEmpty,
                   {| backends := backends (remote_of w client);
                      frontends := (before ++ add_acl acl f :: rest)%list;
                      applied := applied (remote_of w client) |})).
  { cbv beta iota delta [serve]. cbn [String.eqb Ascii.eqb Bool.eqb andb json_field field_string].
    rewrite F, update_id_middle.
    destruct acl as [n e v i]. simpl in Hid. subst i. reflexivity. }
  rewrite Srv in S |- *. rewrite S.
  split; [reflexivity|]. repeat split; assumption.
Qed.

Lemma AddActionToFrontend_delivered (action : HAProxyAction)
    (before : list HAProxyFrontend) (f : HAProxyFrontend)
    (rest : list HAProxyFrontend) (w : World) :
  reliable w -> act_ID action = 0%Z ->
  frontends (remote_of w client) = (before ++ f :: rest)%list ->
  exists w',
    AddActionToFrontend client (Z.of_nat (List.length before)) action w
    = (None, w')
    /\ frontends (remote_of w' client)
       = (before ++ add_action action f :: rest)%list
    /\ backends (remote_of w' client) = backends (remote_of w client)
    /\ reliable w'
    /\ events w'
       = (events w
          ++ [add_action_call client (Z.of_nat (List.length before))
                action])%list.
Proof.
  intros R Hid F.
  destruct (makeRequest_delivered "POST" "/services/haproxy/frontend/action"
              (BodyMap [("parent_id",
                         JNumber (Z.of_nat (List.length before)));
                        ("action", JString (act_Action action));
                        ("acl", JString (act_ACL action));
                        ("backend", JString (act_Backend action))]) w R)
    as (w' & E & S & R' & Ev).
  exists w'. unfold AddActionToFrontend, bind. rewrite E.
  assert (Srv : serve "POST" "/services/haproxy/frontend/action"
                  (BodyMap [("parent_id",
                             JNumber (Z.of_nat (List.length before)));
                            ("action", JString (act_Action action));
                            ("acl", JString (act_ACL action));
                            ("backend", JString (act_Backend action))])
                  (remote_of w client)
                = (reply_ok RawEmpty,
                   {| backends := backends (remote_of w client);
                      frontends := (before ++ add_action action f :: rest)%list;
                      applied := applied (remote_of w client) |})).
  { cbv beta iota delta [serve]. cbn [String.eqb Ascii.eqb Bool.eqb andb json_field field_string].
    rewrite F, update_id_middle.
    destruct action as [a c b i]. simpl in Hid. subst i. reflexivity. }
  rewrite Srv in S |- *. rewrite S.
  split; [reflexivity|]. repeat split; assumption.
Qed.

End Delivered.

(** ** The frontend-sharing merge *)

Lemma retryOperation_first_success (St : Type) (C : Clock St) (m : Manager)
    (operation : St -> option error * St) (s s' : St) :
  (1 <= RetryAttempts (Global (config m)))%Z ->
  operation s = (None, s') ->
  retryOperation m operation s = (None, s').
Proof.
  intros HN Op. unfold retryOperation.
  destruct (Z.to_nat (RetryAttempts (Global (config m)))) as [|n] eqn:E;
    [lia|].
  cbn [retry_from]. change (0 >? 0)%Z with false. cbv iota.
  now rewrite Op.
Qed.

Lemma syncFrontend_existing_requests (m : Manager) (client : Client)
    (cfg : ContainerConfig) (expression value : string) (w : World)
    (existing : HAProxyFrontend) (w1 : World) (e : option error)
    (w' : World) :
  parseRule (fc_Rule (cc_FrontendConfig cfg)) = Ok (expression, value) ->
  FindFrontendByName client (fc_Name (cc_FrontendConfig cfg)) w
  = (Ok (Some existing), w1) ->
  syncFrontend m client cfg w = (e, w') ->
  exists added,
    events w' = (events w1 ++ added)%list
    /\ Forall (fun ev =>
                 is_sleep ev
                 \/ ev = add_acl_call client (hf_ID existing)
                           (acl_of cfg expression value)
                 \/ ev = add_action_call client (hf_ID existing)
                           (action_of cfg)) added.
Proof.
  intros P F S.
  rewrite (syncFrontend_decision m client cfg expression value w _ w1 P F)
    in S.
  revert S. apply appends_retryOperation.
  - eapply appends_weaken;
      [|apply appends_UpdateFrontendWithACLAndAction].
    intros ev H. now right.
  - intros d. left. now exists d.
Qed.

Lemma syncFrontend_merges (m : Manager) (client : Client)
    (cfg : ContainerConfig) (expression value : string) (w : World)
    (before : list HAProxyFrontend) (f : HAProxyFrontend)
    (rest : list HAProxyFrontend) :
  parseRule (fc_Rule (cc_FrontendConfig cfg)) = Ok (expression, value) ->
  reliable w -> (1 <= RetryAttempts (Global (config m)))%Z ->
  frontends (remote_of w client) = (before ++ f :: rest)%list ->
  Forall (fun g => hf_Name g <> fc_Name (cc_FrontendConfig cfg)) before ->
  hf_Name f = fc_Name (cc_FrontendConfig cfg) ->
  exists w',
    syncFrontend m client cfg w = (None, w')
    /\ frontends (remote_of w' client)
       = (before
          ++ add_action (action_of cfg)
               (add_acl (acl_of cfg expression value) f) :: rest)%list
    /\ backends (remote_of w' client) = backends (remote_of w client)
    /\ reliable w'
    /\ events w'
       = (events w
          ++ [list_frontends client;
              add_acl_call client (Z.of_nat (List.length before))
                (acl_of cfg expression value);
              add_action_call client (Z.of_nat (List.length before))
                (action_of cfg)])%list.
Proof.
  intros P R HN F Hb Hf.
  destruct (FindFrontendByName_delivered client
              (fc_Name (cc_FrontendConfig cfg)) w R)
    as (w1 & Find & S1 & R1 & Ev1).
  rewrite F in Find.
  rewrite (find_numbered_first set_frontend_id hf_Name
             (fun _ _ => eq_refl) _ before f rest Hb Hf) in Find.
  rewrite (syncFrontend_decision m client cfg expression value w _ w1 P Find).
  cbn [hf_ID set_frontend_id Z.add].
  rewrite <- S1 in F.
  destruct (AddACLToFrontend_delivered client (acl_of cfg expression value)
              before f rest w1 R1 eq_refl F)
    as (w2 & A & F2 & B2 & R2 & Ev2).
  destruct (AddActionToFrontend_delivered client (action_of cfg)
              before (add_acl (acl_of cfg expression value) f) rest w2 R2
              eq_refl F2)
    as (w3 & A3 & F3 & B3 & R3 & Ev3).
  exists w3. split.
  - apply retryOperation_first_success; [exact HN|].
    unfold UpdateFrontendWithACLAndAction, bind. now rewrite A, A3.
  - split; [exact F3|]. split; [now rewrite B3, B2, S1|].
    split; [exact R3|].
    rewrite Ev3, Ev2, Ev1, <- !app_assoc. reflexivity.
Qed.

Lemma syncFrontend_creates (m : Manager) (client : Client)
    (cfg : ContainerConfig) (expression value : string) (w : World) :
  parseRule (fc_Rule (cc_FrontendConfig cfg)) = Ok (expression, value) ->
  reliable w -> (1 <= RetryAttempts (Global (config m)))%Z ->
  Forall (fun g => hf_Name g <> fc_Name (cc_FrontendConfig cfg))
    (frontends (remote_of w client)) ->
  exists w',
    syncFrontend m client cfg w = (None, w')
    /\ frontends (remote_of w' client)
       = (frontends (remote_of w client)
          ++ [ {| hf_Name := fc_Name (cc_FrontendConfig cfg);
                  hf_HAACLs := [acl_of cfg expression value];
                  hf_ActionItems := [action_of cfg];
                  hf_ID := 0 |} ])%list
    /\ reliable w'.
Proof.
  intros P R HN Hn.
  destruct (FindFrontendByName_delivered client
              (fc_Name (cc_FrontendConfig cfg)) w R)
    as (w1 & Find & S1 & R1 & Ev1).
  rewrite (find_numbered_absent set_frontend_id hf_Name
             (fun _ _ => eq_refl) _ _ Hn) in Find.
  rewrite (syncFrontend_decision m client cfg expression value w _ w1 P Find).
  match goal with
  | |- context [CreateHAProxyFrontend client ?d] =>
      destruct (CreateHAProxyFrontend_delivered client d w1 R1)
        as (w2 & C & F2 & _ & R2 & _)
  end.
  exists w2. split; [now apply retryOperation_first_success|].
  split; [now rewrite F2, S1 | exact R2].
Qed.

(** C1.  When the lookup finds a frontend of the desired name, whatever the
    remote system answers, all that [syncFrontend] sends after the lookup are
    the add-ACL and add-action calls, with the identifier of the frontend
    found as [parent_id] and the rule and the [use_backend] action of this
    container: no create of a frontend and nothing that replaces a rule.
    Against a remote system that answers every request, with at least one
    attempt configured, the rule and the action are appended to the first
    frontend of that name and nothing else changes; and syncing two
    configurations that name the same frontend, absent before, leaves one
    frontend of that name, with the two rules and the two actions. *)
Theorem frontend_sharing_merge (m : Manager) (client : Client) :
  (forall (cfg : ContainerConfig) (expression value : string) (w w1 w' : World)
          (existing : HAProxyFrontend) (e : option error),
     parseRule (fc_Rule (cc_FrontendConfig cfg)) = Ok (expression, value) ->
     FindFrontendByName client (fc_Name (cc_FrontendConfig cfg)) w
     = (Ok (Some existing), w1) ->
     syncFrontend m client cfg w = (e, w') ->
     hf_Name existing = fc_Name (cc_FrontendConfig cfg)
     /\ exists added,
          events w' = (events w1 ++ added)%list
          /\ Forall (fun ev =>
                       is_sleep ev
                       \/ ev = add_acl_call client (hf_ID existing)
                                 (acl_of cfg expression value)
                       \/ ev = add_action_call client (hf_ID existing)
                                 (action_of cfg)) added)
  /\ (forall (cfg : ContainerConfig) (expression value : string) (w : World)
             (before : list HAProxyFrontend) (f : HAProxyFrontend)
             (rest : list HAProxyFrontend),
        parseRule (fc_Rule (cc_FrontendConfig cfg)) = Ok (expression, value) ->
        reliable w -> (1 <= RetryAttempts (Global (config m)))%Z ->
        frontends (remote_of w client) = (before ++ f :: rest)%list ->
        Forall (fun g => hf_Name g <> fc_Name (cc_FrontendConfig cfg))
          before ->
        hf_Name f = fc_Name (cc_FrontendConfig cfg) ->
        exists w',
          syncFrontend m client cfg w = (None, w')
          /\ frontends (remote_of w' client)
             = (before
                ++ add_action (action_of cfg)
                     (add_acl (acl_of cfg expression value) f) :: rest)%list
          /\ events w'
             = (events w
                ++ [list_frontends client;
                    add_acl_call client (Z.of_nat (List.length before))
                      (acl_of cfg expression value);
                    add_action_call client (Z.of_nat (List.length before))
                      (action_of cfg)])%list)
  /\ (forall (cfg1 cfg2 : ContainerConfig) (e1 v1 e2 v2 : string) (w : World),
        parseRule (fc_Rule (cc_FrontendConfig cfg1)) = Ok (e1, v1) ->
        parseRule (fc_Rule (cc_FrontendConfig cfg2)) = Ok (e2, v2) ->
        fc_Name (cc_FrontendConfig cfg2) = fc_Name (cc_FrontendConfig cfg1) ->
        reliable w -> (1 <= RetryAttempts (Global (config m)))%Z ->
        Forall (fun g => hf_Name g <> fc_Name (cc_FrontendConfig cfg1))
          (frontends (remote_of w client)) ->
        exists w1 w2,
          syncFrontend m client cfg1 w = (None, w1)
          /\ syncFrontend m client cfg2 w1 = (None, w2)
          /\ frontends (remote_of w2 client)
             = (frontends (remote_of w client)
                ++ [ {| hf_Name := fc_Name (cc_FrontendConfig cfg1);
                        hf_HAACLs := [acl_of cfg1 e1 v1; acl_of cfg2 e2 v2];
                        hf_ActionItems := [action_of cfg1; action_of cfg2];
                        hf_ID := 0 |} ])%list).
Proof.
  split; [|split].
  - intros cfg expression value w w1 w' existing e P F S. split.
    + exact (FindFrontendByName_name client _ w existing w1 F).
    + exact (syncFrontend_existing_requests m client cfg expression value w
               existing w1 e w' P F S).
  - intros cfg expression value w before f rest P R HN F Hb Hf.
    destruct (syncFrontend_merges m client cfg expression value w before f
                rest P R HN F Hb Hf) as (w' & S & F' & _ & _ & Ev).
    exists w'. repeat split; assumption.
  - intros cfg1 cfg2 e1 v1 e2 v2 w P1 P2 Hname R HN Hn.
    destruct (syncFrontend_creates m client cfg1 e1 v1 w P1 R HN Hn)
      as (w1 & S1 & F1 & R1).
    rewrite <- Hname in Hn.
    destruct (syncFrontend_merges m client cfg2 e2 v2 w1
                (frontends (remote_of w client)) _ [] P2 R1 HN F1 Hn
                (eq_sym Hname)) as (w2 & S2 & F2 & _).
    exists w1, w2. split; [exact S1|]. split; [exact S2|].
    rewrite F2. reflexivity.
Qed.

Lemma frontend_sharing_merge_witness :
  exists w1 w2,
    syncFrontend (NewManager (sample_config 3)) sample_client
      (sample_cfg "web" "Host(`web.example.com`)") fresh_world = (None, w1)
    /\ syncFrontend (NewManager (sample_config 3)) sample_client
         (sample_cfg "api" "PathPrefix(`/api`)") w1 = (None, w2)
    /\ frontends (remote_of w2 sample_client)
       = [ {| hf_Name := "shared-frontend";
              hf_HAACLs :=
                [acl_of (sample_cfg "web" "Host(`web.example.com`)")
                   "host_matches" "web.example.com";
                 acl_of (sample_cfg "api" "PathPrefix(`/api`)")
                   "path_beg" "/api"];
              hf_ActionItems :=
                [action_of (sample_cfg "web" "Host(`web.example.com`)");
                 action_of (sample_cfg "api" "PathPrefix(`/api`)")];
              hf_ID := 0 |} ].
Proof.
  assert (HN : (1 <= RetryAttempts
                       (Global (config (NewManager (sample_config 3)))))%Z)
    by (simpl; lia).
  exact (proj2 (proj2 (frontend_sharing_merge
                         (NewManager (sample_config 3)) sample_client))
           (sample_cfg "web" "Host(`web.example.com`)")
           (sample_cfg "api" "PathPrefix(`/api`)")
           "host_matches" "web.example.com" "path_beg" "/api" fresh_world
           eq_refl eq_refl eq_refl eq_refl HN (Forall_nil _)).
Defined.

(** ** Create or update of a backend *)

Lemma wire_id_backend (b : HAProxyBackend) :
  wire_id (BodyBackend b)
  = if (hb_ID b =? 0)%Z then None else Some (hb_ID b).
Proof.
  unfold wire_id, marshal, marshal_backend, omitempty_int.
  destruct (hb_ID b =? 0)%Z; reflexivity.
Qed.

Lemma syncBackend_existing_requests (m : Manager) (client : Client)
    (cfg : ContainerConfig) (w : World) (existing : HAProxyBackend)
    (w1 : World) (e : option error) (w' : World) :
  FindBackendByName client (hb_Name (ConvertToHAProxyBackend cfg)) w
  = (Ok (Some existing), w1) ->
  syncBackend m client cfg w = (e, w') ->
  exists added,
    events w' = (events w1 ++ added)%list
    /\ Forall (fun ev =>
                 is_sleep ev
                 \/ ev = update_backend client
                           (set_backend_id (ConvertToHAProxyBackend cfg)
                              (hb_ID existing))) added.
Proof.
  intros F S. rewrite (syncBackend_decision m client cfg w _ w1 F) in S.
  revert S. apply appends_retryOperation.
  - unfold UpdateHAProxyBackend. apply appends_call. now right.
  - intros d. left. now exists d.
Qed.

Lemma syncBackend_absent_requests (m : Manager) (client : Client)
    (cfg : ContainerConfig) (w w1 : World) (e : option error) (w' : World) :
  FindBackendByName client (hb_Name (ConvertToHAProxyBackend cfg)) w
  = (Ok None, w1) ->
  syncBackend m client cfg w = (e, w') ->
  exists added,
    events w' = (events w1 ++ added)%list
    /\ Forall (fun ev =>
                 is_sleep ev
                 \/ ev = create_backend client (ConvertToHAProxyBackend cfg))
         added.
Proof.
  intros F S. rewrite (syncBackend_decision m client cfg w _ w1 F) in S.
  revert S. apply appends_retryOperation.
  - unfold CreateHAProxyBackend. apply appends_call. now right.
  - intros d. left. now exists d.
Qed.

(** C7, where the code departs from the claim.  The decision is as the
    claim has it: after a lookup that finds the name, all that is sent are
    updates (PATCH) of the desired backend with the identifier of the object
    found assigned to its [ID]; after a lookup that finds nothing, creates
    (POST).  But the identifier reaches the wire only when it is not 0: the
    field is tagged [omitempty], so for the object the remote system lists
    under the identifier 0 every update is sent without an identifier.  The
    last part runs the container of the first part of [sample_cfg] against a
    remote system that lists its backend under 0: three updates are sent,
    none carries an identifier, and the sync of the backend fails. *)
Theorem backend_update_identifier :
  (forall (m : Manager) (client : Client) (cfg : ContainerConfig)
          (w w1 w' : World) (existing : HAProxyBackend) (e : option error),
     FindBackendByName client (hb_Name (ConvertToHAProxyBackend cfg)) w
     = (Ok (Some existing), w1) ->
     syncBackend m client cfg w = (e, w') ->
     let update :=
       set_backend_id (ConvertToHAProxyBackend cfg) (hb_ID existing) in
     hb_Name existing = hb_Name update
     /\ hb_ID update = hb_ID existing
     /\ wire_id (BodyBackend update)
        = (if (hb_ID existing =? 0)%Z then None else Some (hb_ID existing))
     /\ exists added,
          events w' = (events w1 ++ added)%list
          /\ Forall (fun ev => is_sleep ev \/ ev = update_backend client update)
               added)
  /\ (forall (m : Manager) (client : Client) (cfg : ContainerConfig)
             (w w1 w' : World) (e : option error),
        FindBackendByName client (hb_Name (ConvertToHAProxyBackend cfg)) w
        = (Ok None, w1) ->
        syncBackend m client cfg w = (e, w') ->
        exists added,
          events w' = (events w1 ++ added)%list
          /\ Forall (fun ev =>
                       is_sleep ev
                       \/ ev = create_backend client
                                 (ConvertToHAProxyBackend cfg)) added)
  /\ (let m := NewManager (sample_config 3) in
      let cfg := sample_cfg "web" "Host(`web.example.com`)" in
      let desired := ConvertToHAProxyBackend cfg in
      let patch :=
        {| req_method := "PATCH";
           req_url :=
             "https://pfsense.example.com/api/v2/services/haproxy/backend";
           req_body := BodyBackend (set_backend_id desired 0) |} in
      let w :=
        {| servers := fun _ => {| backends := [desired]; frontends := [];
                                  applied := 1 |};
           script := [listing_of desired];
           events := [] |} in
      exists (err : error) (w' : World),
        syncBackend m sample_client cfg w = (Some err, w')
        /\ requests_of (events w')
           = [ {| req_method := "GET";
                  req_url := "https://pfsense.example.com/api/v2/services/haproxy/backends?limit=0&offset=0";
                  req_body := BodyNil |};
               patch; patch; patch ]
        /\ wire_id (req_body patch) = None
        /\ backends (remote_of w' sample_client) = [desired]).
Proof.
  split; [|split].
  - intros m client cfg w w1 w' existing e F S update. subst update.
    split; [|split; [|split]].
    + simpl. exact (FindBackendByName_name client _ w existing w1 F).
    + reflexivity.
    + now rewrite wire_id_backend.
    + exact (syncBackend_existing_requests m client cfg w existing w1 e w'
               F S).
  - intros m client cfg w w1 w' e F S.
    exact (syncBackend_absent_requests m client cfg w w1 e w' F S).
  - eexists. eexists. split; [vm_compute; reflexivity|].
    split; [reflexivity|]. split; reflexivity.
Qed.

(** ** No attempt configured *)

Lemma syncBackend_zero (m : Manager) (client : Client) (cfg : ContainerConfig)
    (w : World) :
  RetryAttempts (Global (config m)) = 0%Z ->
  exists err w',
    syncBackend m client cfg w = (Some err, w')
    /\ events w' = (events w ++ [list_backends client])%list.
Proof.
  intros H.
  destruct (FindBackendByName client (hb_Name (ConvertToHAProxyBackend cfg)) w)
    as [r w1] eqn:F.
  rewrite (syncBackend_decision m client cfg w r w1 F).
  apply FindBackendByName_events in F.
  destruct r as [[existing|]|err];
    rewrite ?(retryOperation_zero World World_Clock m _ _ H);
    eexists; eexists; (split; [reflexivity | exact F]).
Qed.

Lemma syncFrontend_zero (m : Manager) (client : Client) (cfg : ContainerConfig)
    (w : World) :
  RetryAttempts (Global (config m)) = 0%Z ->
  exists err w',
    syncFrontend m client cfg w = (Some err, w')
    /\ (events w' = events w
        \/ events w' = (events w ++ [list_frontends client])%list).
Proof.
  intros H.
  destruct (parseRule (fc_Rule (cc_FrontendConfig cfg))) as [[ex v]|perr]
    eqn:P.
  - destruct (FindFrontendByName client (fc_Name (cc_FrontendConfig cfg)) w)
      as [r w1] eqn:F.
    rewrite (syncFrontend_decision m client cfg ex v w r w1 P F).
    apply FindFrontendByName_events in F.
    destruct r as [[existing|]|err];
      rewrite ?(retryOperation_zero World World_Clock m _ _ H);
      eexists; eexists; (split; [reflexivity | right; exact F]).
  - unfold syncFrontend, ConvertToHAProxyFrontend. rewrite P.
    eexists. eexists. split; [reflexivity | now left].
Qed.

(** C10.  With zero attempts configured the retry wrapper returns, for every
    operation and from every state, the error of 0 attempts wrapping a nil
    last error, and leaves the state as it was: the operation is not invoked
    (the log of an observed operation stays empty).  So the commit call, the
    sync of a backend and the sync of a frontend fail whatever the remote
    system would answer, no request other than the lookups is sent, and
    the sync of every eligible container fails. *)
Theorem zero_attempts_always_fail (m : Manager) :
  RetryAttempts (Global (config m)) = 0%Z ->
  (forall (St : Type) (C : Clock St) (operation : St -> option error * St)
          (s : St),
     retryOperation m operation s = (Some (retries_exhausted 0 None), s))
  /\ (forall (T : Type) (operation : T -> option error * T) (t : T),
        retryOperation m (observed operation) (t, [])
        = (Some (retries_exhausted 0 None), (t, [])))
  /\ Unwrap (retries_exhausted 0 None) = None
  /\ (forall (client : Client) (w : World),
        applyChangesWithRetry m client w
        = (Some (retries_exhausted 0 None), w))
  /\ (forall (client : Client) (cfg : ContainerConfig) (w : World),
        exists err w',
          syncBackend m client cfg w = (Some err, w')
          /\ events w' = (events w ++ [list_backends client])%list)
  /\ (forall (client : Client) (cfg : ContainerConfig) (w : World),
        exists err w',
          syncFrontend m client cfg w = (Some err, w')
          /\ (events w' = events w
              \/ events w' = (events w ++ [list_frontends client])%list))
  /\ (forall (info : Info) (cfg : ContainerConfig) (client : Client)
             (w : World),
        Parser_ParseContainer (parser m) info = Ok cfg ->
        getClient m (cc_EndpointName cfg) = Some client ->
        exists err w',
          SyncContainer m info w = (Some err, w')
          /\ events w' = (events w ++ [list_backends client])%list).
Proof.
  intros H.
  split; [|split; [|split; [|split; [|split; [|split]]]]].
  - intros St C operation s. now apply retryOperation_zero.
  - intros T operation t. now apply retryOperation_zero.
  - reflexivity.
  - intros client w. unfold applyChangesWithRetry.
    now apply retryOperation_zero.
  - intros client cfg w. now apply syncBackend_zero.
  - intros client cfg w. now apply syncFrontend_zero.
  - intros info cfg client w P G.
    destruct (syncBackend_zero m client cfg w H) as (err & w' & S & Ev).
    unfold SyncContainer, bind. rewrite P, G, S.
    eexists. eexists. split; [reflexivity | exact Ev].
Qed.

Lemma zero_attempts_always_fail_witness :
  applyChangesWithRetry (NewManager (sample_config 0)) sample_client
    fresh_world
  = (Some (retries_exhausted 0 None), fresh_world).
Proof.
  exact (proj1 (proj2 (proj2 (proj2 (zero_attempts_always_fail
                                       (NewManager (sample_config 0))
                                       eq_refl))))
           sample_client fresh_world).
Defined.

(** * Further properties

    ** Names *)

Section Names.

Lemma keep_replace_invalid (s : string) :
  keep not_hyphen (replace_invalid s) = keep is_word_byte s.
Proof.
  induction s as [|c t IH]; [reflexivity|].
  simpl. unfold is_word_byte.
  destruct (is_name_byte c); simpl.
  - destruct (not_hyphen c); now rewrite IH.
  - exact IH.
Qed.

Lemma keep_cons (p : ascii -> bool) (c : ascii) (t : string) :
  keep p (String c t) = if p c then String c (keep p t) else keep p t.
Proof. reflexivity. Qed.

Lemma keep_hyphen (c : ascii) (t : string) :
  Ascii.eqb c "-" = true ->
  keep not_hyphen (String c t) = keep not_hyphen t.
Proof. intros H. rewrite keep_cons. unfold not_hyphen. now rewrite H. Qed.

Lemma keep_collapse (s : string) :
  keep not_hyphen (collapse_hyphens s) = keep not_hyphen s.
Proof.
  induction s as [|c t IH]; [reflexivity|].
  destruct t as [|c' t']; [reflexivity|].
  change (collapse_hyphens (String c (String c' t')))
    with (if Ascii.eqb c "-" && Ascii.eqb c' "-"
          then collapse_hyphens (String c' t')
          else String c (collapse_hyphens (String c' t'))).
  destruct (Ascii.eqb c "-" && Ascii.eqb c' "-") eqn:B.
  - rewrite IH. symmetry. apply keep_hyphen.
    now apply andb_true_iff in B as [E _].
  - rewrite (keep_cons _ c (collapse_hyphens _)), IH.
    now rewrite (keep_cons _ c (String c' t')).
Qed.

Lemma keep_TrimLeft (s : string) :
  keep not_hyphen (TrimLeft s "-") = keep not_hyphen s.
Proof.
  induction s as [|c t IH]; [reflexivity|].
  simpl TrimLeft. destruct (Ascii.eqb c "-") eqn:E; [|reflexivity].
  rewrite IH. symmetry. now apply keep_hyphen.
Qed.

Lemma keep_TrimRight (s : string) :
  keep not_hyphen (TrimRight s "-") = keep not_hyphen s.
Proof.
  induction s as [|c t IH]; [reflexivity|].
  rewrite TrimRight_cons, (keep_cons _ c t), <- IH.
  destruct (TrimRight t "-") as [|d u].
  - destruct (Ascii.eqb c "-") eqn:E.
    + unfold not_hyphen. now rewrite E.
    + rewrite keep_cons. reflexivity.
  - now rewrite keep_cons.
Qed.

Lemma keep_sanitizeName (x : string) :
  keep not_hyphen (sanitizeName x) = keep is_word_byte x.
Proof.
  unfold sanitizeName, Trim.
  now rewrite keep_TrimRight, keep_TrimLeft, keep_collapse,
    keep_replace_invalid.
Qed.

Lemma only_hyphens_empty (s : string) :
  keep not_hyphen s = "" -> first_byte s <> Some "-"%char -> s = "".
Proof.
  destruct s as [|c t]; [reflexivity|].
  simpl. unfold not_hyphen. destruct (Ascii.eqb c "-") eqn:E; simpl.
  - apply Ascii.eqb_eq in E. subst c. intros _ H. now contradiction H.
  - discriminate.
Qed.

Lemma name_bytes_In (s : string) :
  name_bytes s = true ->
  forall c, In c (list_ascii_of_string s) -> is_name_byte c = true.
Proof.
  induction s as [|d t IH]; simpl; [now intros _ c []|].
  intros H c [<- | Hc]; apply andb_true_iff in H as [Hd Ht];
    [exact Hd | now apply IH].
Qed.

Lemma replace_invalid_slash (v : string) :
  replace_invalid (ReplaceAll v "/" "-") = replace_invalid v.
Proof.
  induction v as [|c t IH]; [reflexivity|].
  simpl. rewrite IH. destruct (Ascii.eqb c "/") eqn:E; [|reflexivity].
  apply Ascii.eqb_eq in E. subst c. reflexivity.
Qed.

Lemma parseRule_operator (rule operator value : string) :
  parseRule rule = Ok (operator, value) ->
  operator = "host_matches" \/ operator = "path_beg" \/ operator = "path".
Proof.
  unfold parseRule.
  destruct (FindStringSubmatch "Host" rule);
    [intros [= <- _]; now left|].
  destruct (FindStringSubmatch "PathPrefix" rule);
    [intros [= <- _]; right; now left|].
  destruct (FindStringSubmatch "Path" rule);
    [intros [= <- _]; right; now right | discriminate].
Qed.

Lemma generateNameFromRule_parsed (rule operator value : string) :
  parseRule rule = Ok (operator, value) ->
  generateNameFromRule rule = sanitizeName value.
Proof.
  intros P. unfold generateNameFromRule. rewrite P.
  destruct (parseRule_operator _ _ _ P) as [-> | [-> | ->]]; simpl;
    try reflexivity;
    unfold sanitizeName; now rewrite replace_invalid_slash.
Qed.

End Names.

(** X1.  What sanitization keeps: the result only has letters, digits,
    hyphens and underscores; its letters, digits and underscores are those
    of the input, all of them and in the same order; it is empty exactly
    when the input has none; and a name that already has the shape is
    returned as it is. *)
Theorem sanitizeName_keeps_word_bytes :
  (forall (x : string) (c : ascii),
     In c (list_ascii_of_string (sanitizeName x)) -> is_name_byte c = true)
  /\ (forall x : string,
        keep not_hyphen (sanitizeName x) = keep is_word_byte x)
  /\ (forall x : string, sanitizeName x = "" <-> keep is_word_byte x = "")
  /\ (forall s : string,
        name_bytes s = true -> no_double_hyphen s = true ->
        first_byte s <> Some "-"%char -> last_byte s <> Some "-"%char ->
        sanitizeName s = s).
Proof.
  split; [|split; [|split]].
  - intros x c. apply name_bytes_In. apply sanitizeName_shape.
  - exact keep_sanitizeName.
  - intros x. rewrite <- keep_sanitizeName. split.
    + now intros ->.
    + intros H. apply only_hyphens_empty; [exact H|].
      apply sanitizeName_shape.
  - exact sanitizeName_fixed.
Qed.

Lemma sanitizeName_keeps_word_bytes_witness :
  sanitizeName "my_service-01" = "my_service-01"
  /\ sanitizeName "@@--@@" = "".
Proof.
  split.
  - apply (proj2 (proj2 (proj2 sanitizeName_keeps_word_bytes)));
      try reflexivity; discriminate.
  - apply (proj1 (proj2 (proj2 sanitizeName_keeps_word_bytes))). reflexivity.
Defined.

(** X2.  The name generated from a rule: for a rule that parses it is the
    sanitized argument of the call, whatever the operator (the replacement
    of slashes by hyphens that the code applies to paths changes nothing,
    sanitization does the same); for a rule that does not parse it is the
    sanitized rule.  In both cases it has the shape of a sanitized name. *)
Theorem generateNameFromRule_is_sanitized_value (rule : string) :
  (forall operator value : string,
     parseRule rule = Ok (operator, value) ->
     generateNameFromRule rule = sanitizeName value)
  /\ (forall e : error,
        parseRule rule = Err e -> generateNameFromRule rule = sanitizeName rule)
  /\ (forall value : string,
        sanitizeName (ReplaceAll value "/" "-") = sanitizeName value)
  /\ (exists x, generateNameFromRule rule = sanitizeName x).
Proof.
  split; [|split; [|split]].
  - intros operator value. apply generateNameFromRule_parsed.
  - intros e P. unfold generateNameFromRule. now rewrite P.
  - intros value. unfold sanitizeName. now rewrite replace_invalid_slash.
  - destruct (parseRule rule) as [[operator value]|e] eqn:P.
    + exists value. now apply (generateNameFromRule_parsed rule operator).
    + exists rule. unfold generateNameFromRule. now rewrite P.
Qed.

Lemma generateNameFromRule_is_sanitized_value_witness :
  generateNameFromRule "PathPrefix(`/api/v1`)" = sanitizeName "/api/v1".
Proof.
  exact (proj1 (generateNameFromRule_is_sanitized_value
                  "PathPrefix(`/api/v1`)") "path_beg" "/api/v1" eq_refl).
Defined.

(** ** The configuration translation produces *)

Section TranslationResult.


(** The backend part of a native configuration. *)
Lemma parseControllerBackendConfig_inv (info : Info) (labels : gomap string)
    (bc : BackendConfig) :
  parseControllerBackendConfig info labels = Ok bc ->
  let nameLabel := getStringLabel labels ControllerBackendNameLabel "" in
  let port := getStringLabel labels ControllerBackendPortLabel "" in
  let c0 :=
    {| bc_Name := if String.eqb nameLabel ""
                  then sanitizeName (info_Name info) ++ "-backend"
                  else nameLabel;
       bc_ServerName :=
         getStringLabel labels ControllerBackendServerNameLabel
           (sanitizeName (info_Name info));
       bc_Port := port;
       bc_Address := GetContainerIP info;
       bc_CheckType :=
         getStringLabel labels ControllerBackendCheckTypeLabel "basic";
       bc_HealthCheckPath := ""; bc_HealthCheckMethod := "";
       bc_HealthCheckVersion := ""; bc_BackendPassThru := "" |} in
  Atoi port <> None /\ GetContainerIP info <> ""
  /\ exists c',
       configureHealthCheck c0 labels = (None, c')
       /\ bc = set_BackendPassThru c'
                 ("http-request set-header Host " ++ GetContainerIP info).
Proof.
  unfold parseControllerBackendConfig.
  destruct (String.eqb (getStringLabel labels ControllerBackendPortLabel "")
              ""); [discriminate|].
  destruct (Atoi (getStringLabel labels ControllerBackendPortLabel ""))
    as [n|]; [|discriminate].
  destruct (String.eqb (GetContainerIP info) "") eqn:Ea; [discriminate|].
  match goal with
  | |- context [configureHealthCheck ?c labels] =>
      destruct (configureHealthCheck c labels) as [[err|] c'] eqn:H
  end; [discriminate|].
  intros [= <-]. cbv zeta.
  split; [discriminate|]. split; [now apply String.eqb_neq|].
  exists c'. split; [reflexivity|].
  destruct (configureHealthCheck_keeps _ _ _ _ H) as (_ & _ & _ & K4 & _).
  simpl in K4. now rewrite K4.
Qed.

Lemma assemble_config_parts (endpoint : string)
    (backend : result BackendConfig) (msg : string) (labels : gomap string)
    (cfg : ContainerConfig) :
  assemble_config endpoint backend msg labels = Ok cfg ->
  backend = Ok (cc_BackendConfig cfg)
  /\ parseControllerFrontendConfig labels = Ok (cc_FrontendConfig cfg)
  /\ cc_Enabled cfg = true.
Proof.
  unfold assemble_config.
  destruct backend as [bc|]; [|discriminate].
  destruct (parseControllerFrontendConfig labels) as [fc|]; [|discriminate].
  destruct (validateConfig _); [discriminate|].
  intros [= <-]. repeat split.
Qed.

Lemma parseControllerFrontendConfig_inv (labels : gomap string)
    (fc : FrontendConfig) :
  parseControllerFrontendConfig labels = Ok fc ->
  let rule := getStringLabel labels ControllerFrontendRuleLabel "" in
  let name := getStringLabel labels ControllerFrontendNameLabel "" in
  let acl := getStringLabel labels ControllerFrontendACLNameLabel "" in
  rule <> ""
  /\ fc_Rule fc = rule
  /\ fc_Name fc = (if String.eqb name ""
                   then "auto-frontend-" ++ generateNameFromRule rule
                   else name)
  /\ fc_ACLName fc = (if String.eqb acl ""
                      then "auto-acl-" ++ generateNameFromRule rule
                      else acl).
Proof.
  unfold parseControllerFrontendConfig.
  destruct (String.eqb (getStringLabel labels ControllerFrontendRuleLabel "")
              "") eqn:E; [discriminate|].
  intros [= <-]. cbv zeta. split; [now apply String.eqb_neq|].
  repeat split.
Qed.

Lemma parseControllerLabels_parts (info : Info) (labels : gomap string)
    (cfg : ContainerConfig) :
  parseControllerLabels info labels = Ok cfg ->
  map_get labels ControllerEnableLabel = Some "true"
  /\ parseControllerBackendConfig info labels = Ok (cc_BackendConfig cfg)
  /\ parseControllerFrontendConfig labels = Ok (cc_FrontendConfig cfg)
  /\ cc_Enabled cfg = true.
Proof.
  unfold parseControllerLabels, map_index.
  destruct (map_get labels ControllerEnableLabel) as [enabled|];
    [|discriminate].
  cbn [negb orb].
  destruct (String.eqb enabled TrueValue) eqn:E; [|discriminate].
  apply String.eqb_eq in E. subst enabled. cbn [negb].
  destruct (validateRequiredLabels labels); [discriminate|].
  intros H. apply assemble_config_parts in H as (B & F & En).
  repeat split; assumption.
Qed.

End TranslationResult.

(** X3.  The configuration native translation produces, field by field.
    The backend name is the label when that is not empty, else the sanitized
    container name followed by [-backend]; the server name is the label
    whenever the label is present, even empty, else the sanitized container
    name; the port is the label, an integer for [strconv.Atoi]; the address
    is the address of the container, not empty; the pass-through directive
    sets the [Host] header to that address; the frontend name and the name of
    the rule are the labels when not empty, else [auto-frontend-] and
    [auto-acl-] followed by the name generated from the rule.  Names given
    by labels are taken as they are, not sanitized. *)
Theorem native_configuration_fields
    (info : Info) (labels : gomap string) (cfg : ContainerConfig) :
  parseControllerLabels info labels = Ok cfg ->
  let bc := cc_BackendConfig cfg in
  let fc := cc_FrontendConfig cfg in
  let rule := getStringLabel labels ControllerFrontendRuleLabel "" in
  cc_Enabled cfg = true
  /\ bc_Name bc
     = match map_get labels ControllerBackendNameLabel with
       | Some (String c name) => String c name
       | _ => sanitizeName (info_Name info) ++ "-backend"
       end
  /\ bc_ServerName bc
     = match map_get labels ControllerBackendServerNameLabel with
       | Some name => name
       | None => sanitizeName (info_Name info)
       end
  /\ map_get labels ControllerBackendPortLabel = Some (bc_Port bc)
  /\ Atoi (bc_Port bc) <> None
  /\ bc_Address bc = GetContainerIP info
  /\ bc_Address bc <> ""
  /\ bc_CheckType bc
     = match map_get labels ControllerBackendCheckTypeLabel with
       | Some t => t
       | None => "basic"
       end
  /\ bc_BackendPassThru bc
     = "http-request set-header Host " ++ GetContainerIP info
  /\ map_get labels ControllerFrontendRuleLabel = Some (fc_Rule fc)
  /\ fc_Rule fc <> ""
  /\ fc_Name fc
     = match map_get labels ControllerFrontendNameLabel with
       | Some (String c name) => String c name
       | _ => "auto-frontend-" ++ generateNameFromRule rule
       end
  /\ fc_ACLName fc
     = match map_get labels ControllerFrontendACLNameLabel with
       | Some (String c name) => String c name
       | _ => "auto-acl-" ++ generateNameFromRule rule
       end.
Proof.
  intros H bc fc rule. subst bc fc rule.
  apply parseControllerLabels_parts in H as (_ & B & F & En).
  apply parseControllerBackendConfig_inv in B as (At & Ip & c' & HC & Ebc).
  apply parseControllerFrontendConfig_inv in F as (Rn & Fr & Fn & Fa).
  pose proof (configureHealthCheck_keeps _ _ _ _ HC)
    as (K1 & K2 & K3 & K4 & K5 & _).
  rewrite Ebc. cbn [bc_Name bc_ServerName bc_Port bc_Address bc_CheckType
                    bc_BackendPassThru set_BackendPassThru].
  rewrite K1, K2, K3, K4, K5. cbn [bc_Name bc_ServerName bc_Port bc_Address
                                    bc_CheckType].
  rewrite Fr, Fn, Fa. rewrite !getStringLabel_get in *.
  split; [exact En|].
  split.
  { destruct (map_get labels ControllerBackendNameLabel) as [[|c n]|];
      reflexivity. }
  split; [reflexivity|].
  split.
  { destruct (map_get labels ControllerBackendPortLabel) as [p|];
      [reflexivity | now contradiction At]. }
  split; [exact At|]. split; [reflexivity|]. split; [exact Ip|].
  split; [reflexivity|]. split; [reflexivity|].
  split.
  { destruct (map_get labels ControllerFrontendRuleLabel) as [r|];
      [reflexivity | now contradiction Rn]. }
  split; [exact Rn|].
  split.
  - destruct (map_get labels ControllerFrontendNameLabel) as [[|c n]|];
      reflexivity.
  - destruct (map_get labels ControllerFrontendACLNameLabel) as [[|c n]|];
      reflexivity.
Qed.

Lemma native_configuration_fields_witness :
  exists cfg,
    parseControllerLabels
      (sample_container "Test Service" (native_labels "Host(`a.example.com`)"))
      (native_labels "Host(`a.example.com`)") = Ok cfg
    /\ bc_Name (cc_BackendConfig cfg) = "Test-Service-backend"
    /\ fc_Name (cc_FrontendConfig cfg) = "auto-frontend-a-example-com".
Proof.
  eexists. split; [reflexivity|].
  pose proof (native_configuration_fields
                (sample_container "Test Service"
                   (native_labels "Host(`a.example.com`)"))
                (native_labels "Host(`a.example.com`)") _ eq_refl)
    as (_ & Hn & _ & _ & _ & _ & _ & _ & _ & _ & _ & Hf & _).
  split; [exact Hn | exact Hf].
Defined.

Section TraefikResult.

Lemma find_service_port_found (labels : gomap string) (port service : string) :
  find_service_port labels = (port, service) ->
  port <> "" ->
  exists key,
    In (key, port) labels /\ is_service_port_key key = true
    /\ service = nth 3 (Split key ".") "".
Proof.
  induction labels as [|[key value] rest IH]; cbn [find_service_port].
  - intros [= <- _] N. now contradiction N.
  - destruct (is_service_port_key key) eqn:K.
    + intros [= E1 E2] _. exists key. subst value.
      split; [now left|]. split; [exact K|]. rewrite <- E2.
      now destruct (Split key ".") as [|a [|b [|c [|d l]]]].
    + intros E N. destruct (IH E N) as (k & I & Kk & S).
      exists k. split; [now right|]. split; assumption.
Qed.

Lemma parseTraefikBackendConfig_inv (info : Info) (labels : gomap string)
    (bc : BackendConfig) :
  parseTraefikBackendConfig info labels = Ok bc ->
  exists key c0 c',
    In (key, bc_Port c0) labels /\ is_service_port_key key = true
    /\ bc_Name c0
       = (if String.eqb (nth 3 (Split key ".") "") ""
          then sanitizeName (info_Name info) ++ "-backend"
          else sanitizeName (nth 3 (Split key ".") "") ++ "-backend")
    /\ bc_ServerName c0 = sanitizeName (info_Name info)
    /\ Atoi (bc_Port c0) <> None
    /\ bc_Address c0 = GetContainerIP info
    /\ GetContainerIP info <> ""
    /\ bc_CheckType c0
       = getStringLabel labels ControllerBackendCheckTypeLabel "basic"
    /\ configureHealthCheck c0 labels = (None, c')
    /\ bc = set_BackendPassThru c'
              ("http-request set-header Host " ++ GetContainerIP info).
Proof.
  unfold parseTraefikBackendConfig.
  destruct (find_service_port labels) as [port service] eqn:F.
  destruct (String.eqb port "") eqn:Ep; [discriminate|].
  apply String.eqb_neq in Ep.
  destruct (find_service_port_found _ _ _ F Ep) as (key & I & K & S).
  destruct (Atoi port) as [n|] eqn:A; [|discriminate].
  destruct (String.eqb (GetContainerIP info) "") eqn:Ea; [discriminate|].
  match goal with
  | |- context [configureHealthCheck ?c labels] =>
      pose (c0 := c); change (configureHealthCheck c labels)
        with (configureHealthCheck c0 labels);
      destruct (configureHealthCheck c0 labels) as [[err|] c'] eqn:H
  end; [discriminate|].
  intros [= <-]. exists key, c0, c'.
  split; [exact I|]. split; [exact K|].
  split.
  { subst c0 service. simpl.
    now destruct (String.eqb (nth 3 (Split key ".") "") ""). }
  split; [reflexivity|].
  split; [subst c0; simpl; rewrite A; discriminate|].
  split; [reflexivity|]. split; [now apply String.eqb_neq|].
  split; [reflexivity|]. split; [exact H|].
  destruct (configureHealthCheck_keeps _ _ _ _ H) as (_ & _ & _ & K4 & _).
  now rewrite K4.
Qed.

Lemma parseTraefikLabels_parts (info : Info) (labels : gomap string)
    (cfg : ContainerConfig) :
  parseTraefikLabels info labels = Ok cfg ->
  map_get labels TraefikEnableLabel = Some "true"
  /\ parseTraefikBackendConfig info labels = Ok (cc_BackendConfig cfg)
  /\ parseControllerFrontendConfig labels = Ok (cc_FrontendConfig cfg)
  /\ cc_Enabled cfg = true.
Proof.
  unfold parseTraefikLabels, map_index.
  destruct (map_get labels TraefikEnableLabel) as [enabled|];
    [|discriminate].
  cbn [negb orb].
  destruct (String.eqb enabled TrueValue) eqn:E; [|discriminate].
  apply String.eqb_eq in E. subst enabled. cbn [negb].
  destruct (validateTraefikRequiredLabels labels); [discriminate|].
  intros H. apply assemble_config_parts in H as (B & F & En).
  repeat split; assumption.
Qed.

(** What [ParseContainer] returned and from which translation. *)
Lemma ParseContainer_inv (p : HAProxyParser) (info : Info)
    (labels : gomap string) (cfg : ContainerConfig) :
  info_Labels info = Some labels ->
  HAProxyParser_ParseContainer p info = Ok cfg ->
  (exists c, parseControllerLabels info labels = Ok c
             /\ cfg = set_ParseMode c "controller")
  \/ (exists c, is_ok (parseControllerLabels info labels) = false
                /\ traefikCompatMode p = true
                /\ parseTraefikLabels info labels = Ok c
                /\ cfg = set_ParseMode c "traefik").
Proof.
  intros L. unfold HAProxyParser_ParseContainer. rewrite L.
  destruct (parseControllerLabels info labels) as [c|e].
  - intros [= <-]. left. exists c. now split.
  - destruct (traefikCompatMode p); [|discriminate].
    destruct (parseTraefikLabels info labels) as [c|]; [|discriminate].
    intros [= <-]. right. exists c. repeat split.
Qed.


End TraefikResult.

(** X4.  A configuration [ParseContainer] returns in Traefik mode: the
    parser has the compatibility mode on, the native translation of the same
    labels failed, [traefik.enable] is [true], and some label whose key
    contains [.http.services.] and ends in [.loadbalancer.server.port] has
    the backend port as its value.  The backend is named after the fourth
    dot-separated part of that key, sanitized and followed by [-backend],
    and after the container when that part is empty; the server is named
    after the container; the frontend rule is the native rule label. *)
Theorem traefik_configuration_fields
    (p : HAProxyParser) (info : Info) (labels : gomap string)
    (cfg : ContainerConfig) :
  info_Labels info = Some labels ->
  HAProxyParser_ParseContainer p info = Ok cfg ->
  cc_ParseMode cfg = "traefik" ->
  let bc := cc_BackendConfig cfg in
  traefikCompatMode p = true
  /\ is_ok (parseControllerLabels info labels) = false
  /\ map_get labels TraefikEnableLabel = Some "true"
  /\ (exists key,
        In (key, bc_Port bc) labels
        /\ Contains key ".http.services." = true
        /\ HasSuffix key ".loadbalancer.server.port" = true
        /\ bc_Name bc
           = match nth 3 (Split key ".") "" with
             | "" => sanitizeName (info_Name info) ++ "-backend"
             | service => sanitizeName service ++ "-backend"
             end)
  /\ bc_ServerName bc = sanitizeName (info_Name info)
  /\ Atoi (bc_Port bc) <> None
  /\ bc_Address bc = GetContainerIP info
  /\ bc_Address bc <> ""
  /\ map_get labels ControllerFrontendRuleLabel
     = Some (fc_Rule (cc_FrontendConfig cfg))
  /\ fc_Rule (cc_FrontendConfig cfg) <> "".
Proof.
  intros L H M bc. subst bc.
  destruct (ParseContainer_inv _ _ _ _ L H)
    as [(c & _ & ->)|(c & N & T & P & ->)]; [discriminate M|].
  cbn [cc_BackendConfig cc_FrontendConfig set_ParseMode].
  apply parseTraefikLabels_parts in P as (En & B & F & _).
  apply parseTraefikBackendConfig_inv in B
    as (key & c0 & c' & I & K & Nm & Sn & At & Ad & Ip & _ & HC & E).
  apply parseControllerFrontendConfig_inv in F as (Rn & Fr & _).
  destruct (configureHealthCheck_keeps _ _ _ _ HC)
    as (K1 & K2 & K3 & K4 & _).
  rewrite E.
  cbn [bc_Name bc_ServerName bc_Port bc_Address set_BackendPassThru].
  rewrite K1, K2, K3, K4, Fr.
  split; [exact T|]. split; [exact N|]. split; [exact En|].
  split.
  { exists key. unfold is_service_port_key in K.
    apply andb_true_iff in K as [Kc Ks].
    split; [exact I|]. split; [exact Kc|]. split; [exact Ks|].
    rewrite Nm. now destruct (nth 3 (Split key ".") ""). }
  split; [exact Sn|]. split; [exact At|]. split; [exact Ad|].
  split; [now rewrite Ad|].
  rewrite getStringLabel_get in *.
  split; [|exact Rn].
  destruct (map_get labels ControllerFrontendRuleLabel);
    [reflexivity | now contradiction Rn].
Qed.

Lemma traefik_configuration_fields_witness :
  exists cfg,
    HAProxyParser_ParseContainer (NewHAProxyParser true)
      (sample_container "My App" traefik_labels) = Ok cfg
    /\ bc_ServerName (cc_BackendConfig cfg) = "My-App"
    /\ bc_Address (cc_BackendConfig cfg) = "172.17.0.2".
Proof.
  eexists. split; [reflexivity|].
  pose proof (traefik_configuration_fields (NewHAProxyParser true)
                (sample_container "My App" traefik_labels) traefik_labels _
                eq_refl eq_refl eq_refl)
    as (_ & _ & _ & _ & Hs & _ & Ha & _).
  split; [exact Hs | exact Ha].
Defined.



(** ** Endpoints: validation and the choice of a client *)

Section Endpoints.

Lemma map_get_set {V : Type} (m : gomap V) (key : string) (v : V)
    (name : string) :
  map_get (map_set m key v) name
  = if String.eqb key name then Some v else map_get m name.
Proof.
  induction m as [|[k v'] rest IH]; simpl.
  - reflexivity.
  - destruct (String.eqb k key) eqn:E; simpl.
    + apply String.eqb_eq in E. subst k.
      now destruct (String.eqb key name).
    + rewrite IH. destruct (String.eqb k name) eqn:E'; [|reflexivity].
      apply String.eqb_eq in E'. subst k.
      now rewrite String.eqb_sym, E.
Qed.

(** The client under a name after the loop of [NewManager]: the one of the
    last endpoint of that name. *)
Lemma NewManager_clients (cfg : Config) (name : string) :
  map_get (clients (NewManager cfg)) name
  = option_map NewClient
      (find (fun e => String.eqb (ep_Name e) name) (rev (Endpoints cfg))).
Proof.
  unfold NewManager. cbn [clients].
  rewrite <- (fold_left_rev_right
                (fun e clients => map_set clients (ep_Name e) (NewClient e))).
  induction (rev (Endpoints cfg)) as [|e l IH]; [reflexivity|].
  cbn [fold_right find]. rewrite map_get_set, IH.
  now destruct (String.eqb (ep_Name e) name).
Qed.

Lemma find_last_cons (name : string) (d : EndpointConfig)
    (rest : list EndpointConfig) :
  find (fun e => String.eqb (ep_Name e) name) (rev (d :: rest))
  = match find (fun e => String.eqb (ep_Name e) name) (rev rest) with
    | Some e => Some e
    | None => if String.eqb (ep_Name d) name then Some d else None
    end.
Proof.
  cbn [rev]. induction (rev rest) as [|e l IH]; [reflexivity|].
  cbn [app find]. now destruct (String.eqb (ep_Name e) name).
Qed.

Lemma find_rev_none (name : string) (l : list EndpointConfig) :
  find (fun e => String.eqb (ep_Name e) name) (rev l) = None
  <-> find (fun e => String.eqb (ep_Name e) name) l = None.
Proof.
  induction l as [|d rest IH]; [reflexivity|].
  rewrite find_last_cons. cbn [find].
  destruct (String.eqb (ep_Name d) name).
  - split; [|discriminate].
    now destruct (find _ (rev rest)).
  - rewrite <- IH. now destruct (find _ (rev rest)).
Qed.

Lemma getClient_NewManager (cfg : Config) (name : string) :
  getClient (NewManager cfg) name
  = match find (fun e => String.eqb (ep_Name e) name) (rev (Endpoints cfg))
    with
    | Some e => Some (NewClient e)
    | None =>
        match Endpoints cfg with
        | [] => None
        | d :: _ =>
            option_map NewClient
              (find (fun e => String.eqb (ep_Name e) (ep_Name d))
                 (rev (Endpoints cfg)))
        end
    end.
Proof.
  unfold getClient. rewrite NewManager_clients.
  destruct (find _ (rev (Endpoints cfg))) as [e|]; [reflexivity|].
  cbn [option_map]. unfold GetDefaultEndpoint. cbn [config NewManager].
  destruct (Endpoints cfg) as [|d rest] eqn:E; [reflexivity|].
  rewrite NewManager_clients, E.
  now destruct (find _ (rev (d :: rest))).
Qed.

Lemma getClient_some (cfg : Config) (name : string) :
  Endpoints cfg <> [] ->
  exists e, In e (Endpoints cfg) /\ getClient (NewManager cfg) name
                                     = Some (NewClient e).
Proof.
  intros N. rewrite getClient_NewManager.
  destruct (find _ (rev (Endpoints cfg))) as [e|] eqn:F.
  - exists e. split; [|reflexivity].
    apply find_some in F as [F _]. now apply in_rev.
  - destruct (Endpoints cfg) as [|d rest] eqn:E; [now contradiction N|].
    rewrite find_last_cons, String.eqb_refl.
    destruct (find _ (rev rest)) as [e|] eqn:F'.
    + exists e. split; [|reflexivity].
      apply find_some in F' as [F' _]. right. now apply in_rev.
    + exists d. split; [now left | reflexivity].
Qed.

Lemma validate_endpoints_ok (endpoints : list EndpointConfig) (i : Z) :
  validate_endpoints i endpoints = None
  <-> Forall endpoint_complete endpoints.
Proof.
  revert i. induction endpoints as [|e rest IH]; intros i; simpl.
  - split; [constructor | reflexivity].
  - unfold endpoint_complete at 1.
    destruct (String.eqb (ep_Name e) "") eqn:E1.
    { apply String.eqb_eq in E1. split; [discriminate|].
      intros H. inversion H as [|? ? [Hn _] _]. now contradiction Hn. }
    destruct (String.eqb (ep_URL e) "") eqn:E2.
    { apply String.eqb_eq in E2. split; [discriminate|].
      intros H. inversion H as [|? ? (_ & Hn & _) _]. now contradiction Hn. }
    destruct (String.eqb (ep_APIKey e) "") eqn:E3.
    { apply String.eqb_eq in E3. split; [discriminate|].
      intros H. inversion H as [|? ? (_ & _ & Hn) _]. now contradiction Hn. }
    apply String.eqb_neq in E1, E2, E3. rewrite IH. split.
    + intros H. constructor; [|exact H]. repeat split; assumption.
    + intros H. now inversion H.
Qed.

Lemma Validate_ok (c : Config) :
  Validate c = None
  <-> Endpoints c <> [] /\ Forall endpoint_complete (Endpoints c)
      /\ (0 < PollInterval (Global c))%Z
      /\ (0 <= RetryAttempts (Global c))%Z.
Proof.
  unfold Validate. destruct (Endpoints c) as [|e rest] eqn:E.
  - simpl. split; [discriminate|]. intros [N _]. now contradiction N.
  - cbn [List.length Nat.eqb]. rewrite <- validate_endpoints_ok with (i := 0%Z).
    destruct (validate_endpoints 0 (e :: rest)) as [err|].
    + split; [discriminate|]. intros (_ & H & _). discriminate H.
    + destruct (Z.leb_spec (PollInterval (Global c)) 0).
      { split; [discriminate|]. intros (_ & _ & H1 & _). lia. }
      destruct (Z.ltb_spec (RetryAttempts (Global c)) 0).
      { split; [discriminate|]. intros (_ & _ & _ & H1). lia. }
      split; [|reflexivity]. intros _. repeat split; [discriminate|lia|lia].
Qed.

End Endpoints.

(** X6.  Which client the manager uses for an endpoint name.  The manager
    built from a configuration has a client for a name exactly when some
    endpoint bears it, and it is the client of the LAST endpoint of that
    name, whereas [GetEndpoint] returns the first.  For a name no endpoint
    bears, [getClient] falls back to the client under the name of the first
    endpoint; it returns nil only when no endpoint is configured. *)
Theorem getClient_resolution (cfg : Config) (name : string) :
  let m := NewManager cfg in
  let named (n : string) (l : list EndpointConfig) :=
    find (fun e => String.eqb (ep_Name e) n) l in
  GetEndpoint cfg name = named name (Endpoints cfg)
  /\ map_get (clients m) name
     = option_map NewClient (named name (rev (Endpoints cfg)))
  /\ (GetEndpoint cfg name = None <-> map_get (clients m) name = None)
  /\ (GetEndpoint cfg name <> None ->
      getClient m name = map_get (clients m) name)
  /\ (GetEndpoint cfg name = None ->
      getClient m name
      = match GetDefaultEndpoint cfg with
        | Some d => map_get (clients m) (ep_Name d)
        | None => None
        end)
  /\ (getClient m name = None <-> Endpoints cfg = []).
Proof.
  intros m named. subst m named. cbv beta.
  split; [reflexivity|]. split; [apply NewManager_clients|].
  assert (I : GetEndpoint cfg name = None
              <-> map_get (clients (NewManager cfg)) name = None).
  { rewrite NewManager_clients. unfold GetEndpoint.
    rewrite <- (find_rev_none name (Endpoints cfg)).
    now destruct (find _ (rev (Endpoints cfg))). }
  split; [exact I|]. split; [|split].
  - intros N. unfold getClient.
    destruct (map_get (clients (NewManager cfg)) name) as [c|] eqn:G;
      [reflexivity|].
    contradiction N. now apply I.
  - intros N. apply I in N. unfold getClient. rewrite N.
    cbn [config NewManager].
    destruct (GetDefaultEndpoint cfg) as [d|]; [|reflexivity].
    now destruct (map_get _ (ep_Name d)).
  - split.
    + intros G. destruct (Endpoints cfg) as [|d rest] eqn:E; [reflexivity|].
      destruct (getClient_some cfg name) as (e & _ & S);
        [rewrite E; discriminate|congruence].
    + intros E. rewrite getClient_NewManager, E. reflexivity.
Qed.

(** X7.  What [Config.Validate] accepts: at least one endpoint, every
    endpoint with a name, a URL and an API key, a positive poll interval and
    a number of retry attempts that is not negative; zero attempts and two
    endpoints of one name pass.  With a configuration it accepts the manager
    finds a client for every endpoint name, the client of one of the
    endpoints, whose base URL and key are not empty. *)
Theorem Validate_accepts (c : Config) :
  (Validate c = None
   <-> Endpoints c <> [] /\ Forall endpoint_complete (Endpoints c)
       /\ (0 < PollInterval (Global c))%Z
       /\ (0 <= RetryAttempts (Global c))%Z)
  /\ (Validate c = None ->
      forall name,
      exists e,
        In e (Endpoints c)
        /\ getClient (NewManager c) name = Some (NewClient e)
        /\ baseURL (NewClient e) <> "" /\ apiKey (NewClient e) <> "").
Proof.
  split; [apply Validate_ok|].
  intros V name. apply Validate_ok in V as (N & F & _).
  destruct (getClient_some c name N) as (e & I & G).
  exists e. split; [exact I|]. split; [exact G|].
  rewrite Forall_forall in F. destruct (F e I) as (_ & U & K).
  split; assumption.
Qed.

(** ** A sync, phase by phase *)

Section Phases.

Variable m : Manager.
Variable client : Client.

Lemma syncBackend_phase (cfg : ContainerConfig) (w : World)
    (e : option error) (w' : World) :
  syncBackend m client cfg w = (e, w') ->
  exists B,
    events w' = (events w ++ list_backends client :: B)%list
    /\ Forall (backend_phase client (ConvertToHAProxyBackend cfg)) B.
Proof.
  intros S.
  destruct (FindBackendByName client (hb_Name (ConvertToHAProxyBackend cfg)) w)
    as [r w1] eqn:F.
  pose proof (FindBackendByName_events client _ _ _ _ F) as Ev.
  destruct r as [[existing|]|err].
  - destruct (syncBackend_existing_requests m client cfg w existing w1 e w'
                F S) as (added & E & Fa).
    exists added. split; [now rewrite E, Ev, <- app_assoc|].
    eapply Forall_impl; [|exact Fa]. intros ev [H|H]; [now left|].
    right. right. now exists (hb_ID existing).
  - destruct (syncBackend_absent_requests m client cfg w w1 e w' F S)
      as (added & E & Fa).
    exists added. split; [now rewrite E, Ev, <- app_assoc|].
    eapply Forall_impl; [|exact Fa]. intros ev [H|H]; [now left|].
    right. now left.
  - rewrite (syncBackend_decision m client cfg w _ w1 F) in S.
    injection S as <- <-. exists []. split; [exact Ev | constructor].
Qed.

Lemma syncFrontend_phase (cfg : ContainerConfig) (w : World)
    (e : option error) (w' : World) :
  syncFrontend m client cfg w = (e, w') ->
  (e <> None /\ w' = w
   /\ exists err, ConvertToHAProxyFrontend cfg = Err err)
  \/ exists desired F,
       ConvertToHAProxyFrontend cfg = Ok desired
       /\ events w' = (events w ++ list_frontends client :: F)%list
       /\ Forall (frontend_phase client desired) F.
Proof.
  unfold syncFrontend.
  destruct (ConvertToHAProxyFrontend cfg) as [desired|err] eqn:C.
  - intros S. right. exists desired. unfold bind in S.
    destruct (FindFrontendByName client (hf_Name desired) w) as [r w1] eqn:F.
    pose proof (FindFrontendByName_events client _ _ _ _ F) as Ev.
    assert (A : appends (frontend_phase client desired)
                  (match r with
                   | Ok (Some existingFrontend) =>
                       match hf_HAACLs desired, hf_ActionItems desired with
                       | acl :: _, action :: _ =>
                           retryOperation m
                             (UpdateFrontendWithACLAndAction client
                                (hf_ID existingFrontend) acl action)
                       | _, _ =>
                           ret (Some (Errorf
                             "missing ACL or action in frontend configuration"
                             [] None))
                       end
                   | Ok None =>
                       retryOperation m
                         (CreateHAProxyFrontend client desired)
                   | Err err =>
                       ret (Some (Errorf
                                    "failed to check existing frontend: %w" []
                                    (Some err)))
                   end)).
    { destruct r as [[existing|]|err]; [| |apply appends_ret].
      - destruct (hf_HAACLs desired) as [|acl acls] eqn:Ha;
          [apply appends_ret|].
        destruct (hf_ActionItems desired) as [|action actions] eqn:Hb;
          [apply appends_ret|].
        apply appends_retryOperation; [|intros d; left; now exists d].
        eapply appends_weaken;
          [|apply appends_UpdateFrontendWithACLAndAction].
        intros ev [->| ->]; right; right; exists (hf_ID existing);
          [left; rewrite Ha | right; rewrite Hb]; now left.
      - apply appends_retryOperation; [|intros d; left; now exists d].
        unfold CreateHAProxyFrontend. apply appends_call. right. now left. }
    destruct (A _ _ _ S) as (added & E & Fa).
    exists added. split; [reflexivity|].
    split; [now rewrite E, Ev, <- app_assoc | exact Fa].
  - intros [= <- <-]. left. split; [discriminate|]. split; [reflexivity|].
    now exists err.
Qed.

(** A retried call that sends one request each time it runs and returns nil
    has that request as the last thing it did. *)
Lemma retry_from_ends (operation : M (option error)) (ev : Event) :
  (forall w r w1, operation w = (r, w1) ->
                  events w1 = (events w ++ [ev])%list) ->
  forall remaining attempt lastErr w w',
    retry_from m remaining attempt lastErr operation w = (None, w') ->
    exists l, events w' = (events w ++ l ++ [ev])%list.
Proof.
  intros Hop. induction remaining as [|r IH]; intros attempt lastErr w w';
    [discriminate|].
  cbn [retry_from].
  set (w1 := if (attempt >? 0)%Z then _ else w).
  assert (S1 : exists l, events w1 = (events w ++ l)%list).
  { subst w1. destruct (attempt >? 0)%Z.
    - eexists. reflexivity.
    - exists []. now rewrite app_nil_r. }
  destruct S1 as (l1 & E1).
  destruct (operation w1) as [[err|] w2] eqn:Op; intros H.
  - destruct (IH _ _ _ _ H) as (l3 & E3).
    exists (l1 ++ ev :: l3)%list.
    rewrite E3, (Hop _ _ _ Op), E1, <- !app_assoc. reflexivity.
  - injection H as <-. exists l1.
    rewrite (Hop _ _ _ Op), E1, <- !app_assoc. reflexivity.
Qed.

Lemma applyChangesWithRetry_phase (w : World) (e : option error)
    (w' : World) :
  applyChangesWithRetry m client w = (e, w') ->
  exists A,
    events w' = (events w ++ A)%list
    /\ Forall (apply_phase client) A
    /\ (e = None -> exists A', A = (A' ++ [apply_call client])%list).
Proof.
  intros S.
  assert (Ap : appends (apply_phase client)
                 (applyChangesWithRetry m client)).
  { apply appends_retryOperation; [|intros d; left; now exists d].
    unfold ApplyHAProxyChanges. apply appends_call. now right. }
  destruct (Ap _ _ _ S) as (A & E & Fa).
  exists A. split; [exact E|]. split; [exact Fa|].
  intros ->. unfold applyChangesWithRetry, retryOperation in S.
  apply (retry_from_ends _ (apply_call client)) in S as (l & El).
  - exists l. rewrite El in E. now apply app_inv_head in E.
  - intros w0 r w1. unfold ApplyHAProxyChanges, bind.
    destruct (makeRequest client "POST" "/services/haproxy/apply" (BodyMap [])
                w0) as [r0 w2] eqn:Mk.
    intros [= _ <-]. exact (makeRequest_events _ _ _ _ _ _ _ Mk).
Qed.

End Phases.

(** X8.  The order of a sync.  For a container that translates and whose
    endpoint has a client, all that [SyncContainer] does goes to that client,
    in three phases: the lookup of the backends, once, and creates or updates
    of the desired backend; then the lookup of the frontends, once, and
    creates of the desired frontend or rule and action calls for it; then
    apply calls.  Sleeps apart, nothing else is sent.  Nothing is applied
    unless the frontend phase took place, and a sync that returns nil went
    through the frontend phase and ended with an apply call. *)
Theorem SyncContainer_phases
    (m : Manager) (info : Info) (cfg : ContainerConfig) (c : Client)
    (w : World) (e : option error) (w' : World) :
  Parser_ParseContainer (parser m) info = Ok cfg ->
  getClient m (cc_EndpointName cfg) = Some c ->
  SyncContainer m info w = (e, w') ->
  exists B F A,
    events w' = (events w ++ (list_backends c :: B) ++ F ++ A)%list
    /\ Forall (backend_phase c (ConvertToHAProxyBackend cfg)) B
    /\ (F = []
        \/ exists desired F',
             ConvertToHAProxyFrontend cfg = Ok desired
             /\ F = list_frontends c :: F'
             /\ Forall (frontend_phase c desired) F')
    /\ Forall (apply_phase c) A
    /\ (A <> [] -> F <> [])
    /\ (e = None -> F <> [] /\ exists A', A = (A' ++ [apply_call c])%list).
Proof.
  intros P G. unfold SyncContainer. rewrite P, G. unfold bind.
  destruct (syncBackend m c cfg w) as [eb w1] eqn:Sb.
  destruct (syncBackend_phase m c cfg w eb w1 Sb) as (B & Eb & Fb).
  destruct eb as [err|].
  { intros [= <- <-]. exists B, [], [].
    split; [now rewrite Eb, !app_nil_r|]. split; [exact Fb|].
    split; [now left|]. split; [constructor|].
    split; [intros N; now contradiction N | discriminate]. }
  destruct (syncFrontend m c cfg w1) as [ef w2] eqn:Sf.
  destruct (syncFrontend_phase m c cfg w1 ef w2 Sf)
    as [(Ne & -> & _)|(desired & F & Cv & Ef & Ff)].
  { destruct ef as [err|]; [|now contradiction Ne].
    intros [= <- <-]. exists B, [], [].
    split; [now rewrite Eb, !app_nil_r|]. split; [exact Fb|].
    split; [now left|]. split; [constructor|].
    split; [intros N; now contradiction N | discriminate]. }
  assert (Fr : list_frontends c :: F = []
               \/ exists desired0 F',
                    ConvertToHAProxyFrontend cfg = Ok desired0
                    /\ list_frontends c :: F = list_frontends c :: F'
                    /\ Forall (frontend_phase c desired0) F').
  { right. exists desired, F. repeat split; assumption. }
  destruct ef as [err|].
  { intros [= <- <-]. exists B, (list_frontends c :: F), [].
    split; [now rewrite Ef, Eb, app_nil_r, <- !app_assoc|].
    split; [exact Fb|]. split; [exact Fr|]. split; [constructor|].
    split; [discriminate | discriminate]. }
  destruct (applyChangesWithRetry m c w2) as [ea w3] eqn:Sa.
  destruct (applyChangesWithRetry_phase m c w2 ea w3 Sa) as (A & Ea & Fa & La).
  assert (Ev : events w3
               = (events w ++ (list_backends c :: B)
                  ++ (list_frontends c :: F) ++ A)%list).
  { now rewrite Ea, Ef, Eb, <- !app_assoc. }
  destruct ea as [err|]; intros [= <- <-];
    exists B, (list_frontends c :: F), A;
    (split; [exact Ev|]); (split; [exact Fb|]); (split; [exact Fr|]);
    (split; [exact Fa|]); (split; [discriminate|]).
  - discriminate.
  - intros _. split; [discriminate|]. now apply La.
Qed.

Lemma SyncContainer_phases_witness :
  exists B F A,
    events (snd (SyncContainer (NewManager (sample_config 3))
                   (sample_container "web"
                      (native_labels "Host(`a.example.com`)"))
                   fresh_world))
    = (list_backends sample_client :: B ++ F ++ A)%list.
Proof.
  destruct (SyncContainer (NewManager (sample_config 3))
              (sample_container "web" (native_labels "Host(`a.example.com`)"))
              fresh_world) as [e w'] eqn:S.
  pose proof (fun cfg c P G =>
                SyncContainer_phases (NewManager (sample_config 3))
                  (sample_container "web"
                     (native_labels "Host(`a.example.com`)"))
                  cfg c fresh_world e w' P G S) as H.
  edestruct H as (B & F & A & Ev & _);
    [lazy; reflexivity | lazy; reflexivity |].
  exists B, F, A. exact Ev.
Defined.

(** ** Answers and what the calls make of them *)

Section Answers.

Variable client : Client.

Lemma makeRequest_dropped (method endpoint : string) (body : Body)
    (w : World) (err : error) (rest : list Answer) :
  script w = Dropped err :: rest ->
  makeRequest client method endpoint body w
  = (Err (Errorf "request failed: %w" [] (Some err)),
     answered w rest (request client method endpoint body)).
Proof.
  intros S. unfold makeRequest, bind, emit, next_answer. simpl.
  now rewrite S.
Qed.

Lemma makeRequest_responded (method endpoint : string) (body : Body)
    (w : World) (resp : HTTPResponse) (rest : list Answer) :
  script w = Respond resp :: rest ->
  makeRequest client method endpoint body w
  = (decode_response resp,
     answered w rest (request client method endpoint body)).
Proof.
  intros S. unfold makeRequest, bind, emit, next_answer. simpl.
  now rewrite S.
Qed.

Lemma makeRequest_failed (method endpoint : string) (body : Body)
    (w : World) (a : Answer) (rest : list Answer) (err : error) :
  script w = a :: rest -> answer_error a = Some err ->
  makeRequest client method endpoint body w
  = (Err err, answered w rest (request client method endpoint body)).
Proof.
  intros S A. destruct a as [|e|resp]; [discriminate| |].
  - injection A as <-. now apply makeRequest_dropped.
  - rewrite (makeRequest_responded _ _ _ _ _ _ S). simpl in A.
    destruct (decode_response resp); [discriminate|]. now injection A as <-.
Qed.

Lemma expect_success_accepted (failure : string) (resp : HTTPResponse) :
  expect_success failure (decode_response resp) = None <-> accepted resp.
Proof.
  unfold expect_success, decode_response, accepted.
  destruct (Z.geb_spec (StatusCode resp) 400) as [H|H].
  - split; [discriminate|]. intros [H1 _]. lia.
  - destruct (RespBody resp) as [r|raw]; cbn [resp_Code].
    + destruct (Z.geb_spec (resp_Code r) 400) as [H'|H'].
      * split; [discriminate|]. intros [_ H1]. lia.
      * split; [|reflexivity]. intros _. split; [exact H | lia].
    + destruct (Z.geb_spec (StatusCode resp) 400) as [H'|H']; [lia|].
      split; [|reflexivity]. intros _. now split.
Qed.

End Answers.

(** X9.  A lookup that fails is not retried.  When the request of the lookup
    fails in transport or is answered with a status of 400 or more,
    [syncBackend] returns the error of the request wrapped as a failed check
    of the existing backend, having sent the one lookup and nothing more,
    and so does [syncFrontend] for the frontend; no sleep, whatever number
    of attempts is configured. *)
Theorem failed_lookup_is_final
    (m : Manager) (client : Client) (cfg : ContainerConfig) (w : World)
    (a : Answer) (rest : list Answer) (err : error) :
  script w = a :: rest ->
  answer_error a = Some err ->
  syncBackend m client cfg w
  = (Some (Errorf "failed to check existing backend: %w" [] (Some err)),
     answered w rest (list_backends client))
  /\ (is_ok (ConvertToHAProxyFrontend cfg) = true ->
      syncFrontend m client cfg w
      = (Some (Errorf "failed to check existing frontend: %w" [] (Some err)),
         answered w rest (list_frontends client))).
Proof.
  intros S A. split.
  - unfold syncBackend, FindBackendByName, GetHAProxyBackends, bind.
    now rewrite (makeRequest_failed client _ _ _ _ _ _ _ S A).
  - unfold syncFrontend.
    destruct (ConvertToHAProxyFrontend cfg) as [desired|]; [|discriminate].
    intros _. unfold FindFrontendByName, GetHAProxyFrontends, bind.
    now rewrite (makeRequest_failed client _ _ _ _ _ _ _ S A).
Qed.

Lemma failed_lookup_is_final_witness :
  let w := {| servers := fun _ => empty_remote;
              script := [Dropped (Errorf "connection refused" [] None)];
              events := [] |} in
  events (snd (syncBackend (NewManager (sample_config 3)) sample_client
                 (sample_cfg "web" "Host(`a.example.com`)") w))
  = [list_backends sample_client].
Proof.
  intros w.
  pose proof (failed_lookup_is_final (NewManager (sample_config 3))
                sample_client (sample_cfg "web" "Host(`a.example.com`)") w
                _ _ _ eq_refl eq_refl) as [H _].
  now rewrite H.
Defined.

(** X10.  What the calls make of a response.  Each of the six calls that
    write returns nil exactly when the status of the response is below 400
    and the code in its JSON envelope, if the body is one, is below 400 as
    well; a body that is not JSON is accepted under a status below 400.  The
    two listings look at the status only: an envelope without data is an
    empty listing whatever its code, so that the lookup by name finds
    nothing. *)
Theorem call_outcomes
    (client : Client) (w : World) (resp : HTTPResponse)
    (rest : list Answer) :
  script w = Respond resp :: rest ->
  (forall b, fst (CreateHAProxyBackend client b w) = None <-> accepted resp)
  /\ (forall b, fst (UpdateHAProxyBackend client b w) = None
                <-> accepted resp)
  /\ (forall f, fst (CreateHAProxyFrontend client f w) = None
                <-> accepted resp)
  /\ (fst (ApplyHAProxyChanges client w) = None <-> accepted resp)
  /\ (forall id acl, fst (AddACLToFrontend client id acl w) = None
                     <-> accepted resp)
  /\ (forall id action, fst (AddActionToFrontend client id action w) = None
                        <-> accepted resp)
  /\ (forall r name,
        (StatusCode resp < 400)%Z -> RespBody resp = JSONBody r ->
        resp_Data r = RawEmpty ->
        fst (FindBackendByName client name w) = Ok None
        /\ fst (FindFrontendByName client name w) = Ok None).
Proof.
  intros S.
  assert (W : forall method endpoint body failure,
             fst (bind (makeRequest client method endpoint body)
                    (fun r => ret (expect_success failure r)) w) = None
             <-> accepted resp).
  { intros method endpoint body failure. unfold bind.
    rewrite (makeRequest_responded client _ _ _ _ _ _ S). cbn [fst ret].
    apply expect_success_accepted. }
  split; [intros b; apply W|]. split; [intros b; apply W|].
  split; [intros f; apply W|]. split; [apply W|].
  split; [intros id acl; apply W|]. split; [intros id action; apply W|].
  intros r name Hs Hb Hd.
  unfold FindBackendByName, FindFrontendByName, GetHAProxyBackends,
    GetHAProxyFrontends, bind.
  rewrite !(makeRequest_responded client _ _ _ _ _ _ S).
  unfold decode_response.
  destruct (Z.geb_spec (StatusCode resp) 400) as [H|H]; [lia|].
  rewrite Hb, Hd. split; reflexivity.
Qed.

Lemma call_outcomes_witness :
  let w := {| servers := fun _ => empty_remote;
              script := [Respond (envelope 200 "OK" "backend exists" RawEmpty)];
              events := [] |} in
  fst (ApplyHAProxyChanges sample_client w) = None.
Proof.
  intros w.
  apply (proj1 (proj2 (proj2 (proj2
           (call_outcomes sample_client w _ _ eq_refl))))).
  split; simpl; lia.
Defined.

(** X11.  Stop and destroy events remove nothing.  [RemoveContainer] sends
    no request, and with at least one endpoint configured it returns nil for
    every container: handling a stop or destroy event leaves the world and
    the counters as they were. *)
Theorem removal_sends_nothing
    (cfg : Config) (event : ContainerEvent) (c : Counters) (w : World) :
  Endpoints cfg <> [] ->
  ev_Type event = "stop" \/ ev_Type event = "destroy" ->
  RemoveContainer (NewManager cfg) (ev_Container event) w = (None, w)
  /\ handleContainerEvent (NewManager cfg) event c w = (c, w).
Proof.
  intros N T.
  assert (R : RemoveContainer (NewManager cfg) (ev_Container event) w
              = (None, w)).
  { unfold RemoveContainer.
    destruct (Parser_ParseContainer _ _) as [containerConfig|];
      [|reflexivity].
    destruct (getClient_some cfg (cc_EndpointName containerConfig) N)
      as (e & _ & ->). reflexivity. }
  split; [exact R|].
  unfold handleContainerEvent, bind.
  destruct T as [-> | ->]; cbn [String.eqb Ascii.eqb Bool.eqb orb];
    now rewrite R.
Qed.

Lemma removal_sends_nothing_witness :
  handleContainerEvent (NewManager (sample_config 3))
    {| ev_Container :=
         sample_container "web" (native_labels "Host(`a.example.com`)");
       ev_Type := "destroy" |}
    {| syncCount := 4; errorCount := 0 |} fresh_world
  = ({| syncCount := 4; errorCount := 0 |}, fresh_world).
Proof.
  apply (removal_sends_nothing (sample_config 3)
           {| ev_Container :=
                sample_container "web" (native_labels "Host(`a.example.com`)");
              ev_Type := "destroy" |}).
  - discriminate.
  - now right.
Defined.

(** ** Whole syncs against given answers *)

Section Scripted.

Variable client : Client.

Lemma call_accepted (method endpoint : string) (body : Body)
    (failure : string) (w : World) (resp : HTTPResponse)
    (rest : list Answer) :
  script w = Respond resp :: rest -> accepted resp ->
  bind (makeRequest client method endpoint body)
    (fun r => ret (expect_success failure r)) w
  = (None, answered w rest (request client method endpoint body)).
Proof.
  intros S A. unfold bind.
  rewrite (makeRequest_responded client _ _ _ _ _ _ S). unfold ret.
  apply (expect_success_accepted failure) in A. now rewrite A.
Qed.

Lemma call_rejected (method endpoint : string) (body : Body)
    (failure : string) (w : World) (a : Answer) (rest : list Answer) :
  script w = a :: rest -> rejected a ->
  exists err,
    bind (makeRequest client method endpoint body)
      (fun r => ret (expect_success failure r)) w
    = (Some err, answered w rest (request client method endpoint body)).
Proof.
  intros S R. unfold bind. destruct a as [|e|resp]; [contradiction R| |].
  - rewrite (makeRequest_dropped client _ _ _ _ _ _ S). eexists. reflexivity.
  - rewrite (makeRequest_responded client _ _ _ _ _ _ S). unfold ret.
    destruct (expect_success failure (decode_response resp)) as [err|] eqn:E.
    + now exists err.
    + apply expect_success_accepted in E. now contradiction R.
Qed.

Lemma FindBackendByName_listed (name : string) (w : World)
    (resp : HTTPResponse) (bs : list HAProxyBackend) (rest : list Answer) :
  script w = Respond resp :: rest -> lists_backends resp bs ->
  FindBackendByName client name w
  = (Ok (find (fun b => String.eqb (hb_Name b) name) bs),
     answered w rest (list_backends client)).
Proof.
  intros S (Hs & r & Hb & Hd).
  unfold FindBackendByName, GetHAProxyBackends, bind.
  rewrite (makeRequest_responded client _ _ _ _ _ _ S).
  unfold decode_response.
  destruct (Z.geb_spec (StatusCode resp) 400); [lia|].
  now rewrite Hb, Hd.
Qed.

Lemma FindFrontendByName_listed (name : string) (w : World)
    (resp : HTTPResponse) (fs : list HAProxyFrontend) (rest : list Answer) :
  script w = Respond resp :: rest -> lists_frontends resp fs ->
  FindFrontendByName client name w
  = (Ok (find (fun f => String.eqb (hf_Name f) name) fs),
     answered w rest (list_frontends client)).
Proof.
  intros S (Hs & r & Hb & Hd).
  unfold FindFrontendByName, GetHAProxyFrontends, bind.
  rewrite (makeRequest_responded client _ _ _ _ _ _ S).
  unfold decode_response.
  destruct (Z.geb_spec (StatusCode resp) 400); [lia|].
  now rewrite Hb, Hd.
Qed.

Lemma UpdateFrontendWithACLAndAction_accepted (id : Z) (acl : HAProxyACL)
    (action : HAProxyAction) (w : World) (r1 r2 : HTTPResponse)
    (rest : list Answer) :
  script w = Respond r1 :: Respond r2 :: rest ->
  accepted r1 -> accepted r2 ->
  UpdateFrontendWithACLAndAction client id acl action w
  = (None,
     answered (answered w (Respond r2 :: rest) (add_acl_call client id acl))
       rest (add_action_call client id action)).
Proof.
  intros S A1 A2. unfold UpdateFrontendWithACLAndAction.
  unfold bind at 1. unfold AddACLToFrontend.
  rewrite (call_accepted _ _ _ _ _ _ _ S A1).
  unfold bind at 1. unfold AddActionToFrontend.
  erewrite call_accepted; [reflexivity | reflexivity | exact A2].
Qed.

Lemma UpdateFrontendWithACLAndAction_half (id : Z) (acl : HAProxyACL)
    (action : HAProxyAction) (w : World) (r1 : HTTPResponse) (a : Answer)
    (rest : list Answer) :
  script w = Respond r1 :: a :: rest ->
  accepted r1 -> rejected a ->
  exists err,
    UpdateFrontendWithACLAndAction client id acl action w
    = (Some (Errorf "failed to add action: %w" [] (Some err)),
       answered (answered w (a :: rest) (add_acl_call client id acl))
         rest (add_action_call client id action)).
Proof.
  intros S A1 R. unfold UpdateFrontendWithACLAndAction.
  unfold bind at 1. unfold AddACLToFrontend.
  rewrite (call_accepted _ _ _ _ _ _ _ S A1).
  unfold bind at 1. unfold AddActionToFrontend.
  match goal with
  | |- context [bind (makeRequest client ?me ?en ?bo) _ ?W] =>
      destruct (call_rejected me en bo "failed to add action to frontend: %s"
                  W a rest eq_refl R) as (err & E)
  end.
  rewrite E.
  now exists err.
Qed.

End Scripted.

Lemma ConvertToHAProxyBackend_name (cfg : ContainerConfig) :
  hb_Name (ConvertToHAProxyBackend cfg) = bc_Name (cc_BackendConfig cfg).
Proof.
  unfold ConvertToHAProxyBackend.
  repeat match goal with
         | |- context [if ?b then _ else _] => destruct b
         end; reflexivity.
Qed.

Lemma retryOperation_second_success (m : Manager)
    (operation : M (option error)) (w w1 w2 : World) (err : error) :
  (2 <= RetryAttempts (Global (config m)))%Z ->
  operation w = (Some err, w1) ->
  operation (slept w1 (Duration_mul 1 (RetryDelay (Global (config m)))))
  = (None, w2) ->
  retryOperation m operation w = (None, w2).
Proof.
  intros HN Op1 Op2. unfold retryOperation.
  destruct (Z.to_nat (RetryAttempts (Global (config m)))) as [|[|n]] eqn:E;
    [lia|lia|].
  cbn [retry_from]. change (0 >? 0)%Z with false. cbv iota.
  rewrite Op1. change (0 + 1 >? 0)%Z with true. cbv iota.
  change (time_Sleep ?d w1) with (slept w1 d).
  change (0 + 1)%Z with 1%Z. now rewrite Op2.
Qed.

(** X12.  A first sync, request by request.  For a container that
    translates, when the listing of the backends holds none of the desired
    name, the listing of the frontends none of the desired name, and the
    three writes are accepted, [SyncContainer] returns nil after exactly
    five requests to the client of the endpoint, without a sleep: the
    backend lookup, the create of the backend, the frontend lookup, the
    create of the frontend with its rule and action, and the apply. *)
Theorem first_sync_requests
    (m : Manager) (info : Info) (cfg : ContainerConfig) (c : Client)
    (desired : HAProxyFrontend) (w : World)
    (bs : list HAProxyBackend) (fs : list HAProxyFrontend)
    (r1 r2 r3 r4 r5 : HTTPResponse) (rest : list Answer) :
  Parser_ParseContainer (parser m) info = Ok cfg ->
  getClient m (cc_EndpointName cfg) = Some c ->
  ConvertToHAProxyFrontend cfg = Ok desired ->
  (1 <= RetryAttempts (Global (config m)))%Z ->
  script w = ([Respond r1; Respond r2; Respond r3; Respond r4; Respond r5]
              ++ rest)%list ->
  lists_backends r1 bs ->
  Forall (fun b => hb_Name b <> bc_Name (cc_BackendConfig cfg)) bs ->
  accepted r2 ->
  lists_frontends r3 fs ->
  Forall (fun f => hf_Name f <> fc_Name (cc_FrontendConfig cfg)) fs ->
  accepted r4 -> accepted r5 ->
  exists w',
    SyncContainer m info w = (None, w')
    /\ events w'
       = (events w
          ++ [list_backends c;
              create_backend c (ConvertToHAProxyBackend cfg);
              list_frontends c;
              create_frontend c desired;
              apply_call c])%list
    /\ script w' = rest
    /\ servers w' = servers w.
Proof.
  intros P G Cv HN S L1 N1 A2 L3 N3 A4 A5.
  assert (Hname : hf_Name desired = fc_Name (cc_FrontendConfig cfg)).
  { unfold ConvertToHAProxyFrontend in Cv.
    destruct (parseRule _) as [[ex v]|]; [|discriminate].
    now injection Cv as <-. }
  eexists. unfold SyncContainer. rewrite P, G.
  unfold bind at 1. unfold syncBackend. unfold bind at 1.
  rewrite (FindBackendByName_listed c _ w r1 bs _ S L1).
  assert (find (fun b => String.eqb (hb_Name b)
                           (hb_Name (ConvertToHAProxyBackend cfg))) bs = None)
    as ->.
  { clear -N1. induction N1 as [|b l Hb _ IH]; [reflexivity|].
    cbn [find]. apply String.eqb_neq in Hb.
    now rewrite ConvertToHAProxyBackend_name in *; rewrite Hb. }
  unfold CreateHAProxyBackend.
  erewrite retryOperation_first_success;
    [|exact HN | eapply call_accepted; [reflexivity | exact A2]].
  unfold bind at 1. unfold syncFrontend. rewrite Cv. unfold bind at 1.
  erewrite FindFrontendByName_listed; [|reflexivity | exact L3].
  assert (find (fun f => String.eqb (hf_Name f) (hf_Name desired)) fs = None)
    as ->.
  { rewrite Hname. clear -N3. induction N3 as [|f l Hf _ IH]; [reflexivity|].
    cbn [find]. apply String.eqb_neq in Hf. now rewrite Hf. }
  unfold CreateHAProxyFrontend.
  erewrite retryOperation_first_success;
    [|exact HN | eapply call_accepted; [reflexivity | exact A4]].
  unfold bind at 1. unfold applyChangesWithRetry.
  unfold ApplyHAProxyChanges.
  erewrite retryOperation_first_success;
    [|exact HN | eapply call_accepted; [reflexivity | exact A5]].
  split; [reflexivity|]. cbn [events script servers answered].
  rewrite <- !app_assoc. repeat split.
Qed.

Lemma first_sync_requests_witness :
  let w := {| servers := fun _ => empty_remote;
              script := [Respond (reply_ok (RawBackends []));
                         Respond (reply_ok RawEmpty);
                         Respond (reply_ok (RawFrontends []));
                         Respond (reply_ok RawEmpty);
                         Respond (reply_ok RawEmpty)];
              events := [] |} in
  exists w',
    SyncContainer (NewManager (sample_config 3))
      (sample_container "web" (native_labels "Host(`a.example.com`)")) w
    = (None, w')
    /\ List.length (events w') = 5%nat.
Proof.
  intros w.
  pose proof (fun cfg c desired P G Cv =>
                first_sync_requests (NewManager (sample_config 3))
                  (sample_container "web"
                     (native_labels "Host(`a.example.com`)"))
                  cfg c desired w [] []
                  (reply_ok (RawBackends [])) (reply_ok RawEmpty)
                  (reply_ok (RawFrontends [])) (reply_ok RawEmpty)
                  (reply_ok RawEmpty) [] P G Cv) as H.
  edestruct H as (w' & E & Ev & _);
    [lazy; reflexivity | lazy; reflexivity | lazy; reflexivity
    | simpl; lia | reflexivity
    | split; [simpl; lia | eexists; split; reflexivity]
    | constructor
    | split; simpl; lia
    | split; [simpl; lia | eexists; split; reflexivity]
    | constructor
    | split; simpl; lia
    | split; simpl; lia
    | ].
  exists w'. split; [exact E|]. now rewrite Ev.
Defined.

Lemma ConvertToHAProxyFrontend_inv (cfg : ContainerConfig)
    (desired : HAProxyFrontend) :
  ConvertToHAProxyFrontend cfg = Ok desired ->
  exists expression value,
    parseRule (fc_Rule (cc_FrontendConfig cfg)) = Ok (expression, value)
    /\ desired = {| hf_Name := fc_Name (cc_FrontendConfig cfg);
                    hf_HAACLs := [acl_of cfg expression value];
                    hf_ActionItems := [action_of cfg];
                    hf_ID := 0 |}.
Proof.
  unfold ConvertToHAProxyFrontend.
  destruct (parseRule _) as [[ex v]|]; [|discriminate].
  intros [= <-]. now exists ex, v.
Qed.



(** X14.  A retry sends the rule again.  The rule call and the action call
    for an existing frontend are retried as one operation: when the rule
    call is accepted and the action call then fails, the next attempt, after
    a sleep of one retry delay, sends the rule call a second time before the
    action call, so that the frontend is sent the same rule twice; the
    frontend is not looked up again. *)
Theorem retry_resends_rule
    (m : Manager) (c : Client) (cfg : ContainerConfig)
    (desired : HAProxyFrontend) (w : World) (fs : list HAProxyFrontend)
    (existing : HAProxyFrontend) (r1 r2 r4 r5 : HTTPResponse) (a : Answer)
    (rest : list Answer) :
  ConvertToHAProxyFrontend cfg = Ok desired ->
  (2 <= RetryAttempts (Global (config m)))%Z ->
  script w = ([Respond r1; Respond r2; a; Respond r4; Respond r5]
              ++ rest)%list ->
  lists_frontends r1 fs ->
  find (fun f => String.eqb (hf_Name f) (fc_Name (cc_FrontendConfig cfg))) fs
  = Some existing ->
  accepted r2 -> rejected a -> accepted r4 -> accepted r5 ->
  let calls :=
    (map (add_acl_call c (hf_ID existing)) (hf_HAACLs desired)
     ++ map (add_action_call c (hf_ID existing)) (hf_ActionItems desired))%list
  in
  exists w',
    syncFrontend m c cfg w = (None, w')
    /\ events w'
       = (events w ++ [list_frontends c] ++ calls
          ++ [EvSleep (Duration_mul 1 (RetryDelay (Global (config m))))]
          ++ calls)%list
    /\ List.length calls = 2%nat
    /\ script w' = rest.
Proof.
  intros Cv HN S L1 F1 A2 R A4 A5 calls. subst calls.
  destruct (ConvertToHAProxyFrontend_inv _ _ Cv) as (ex & v & _ & D).
  subst desired.
  unfold syncFrontend. rewrite Cv. unfold bind at 1.
  rewrite (FindFrontendByName_listed c _ w r1 fs _ S L1).
  cbn [hf_Name hf_HAACLs hf_ActionItems]. rewrite F1.
  match goal with
  | |- context [UpdateFrontendWithACLAndAction c ?id ?acl ?action] =>
      destruct (UpdateFrontendWithACLAndAction_half c id acl action
                  (answered w ([Respond r2; a; Respond r4; Respond r5]
                               ++ rest)%list (list_frontends c))
                  r2 a ([Respond r4; Respond r5] ++ rest)%list
                  eq_refl A2 R) as (err & Op1)
  end.
  eexists. split.
  - eapply retryOperation_second_success; [exact HN | exact Op1|].
    eapply UpdateFrontendWithACLAndAction_accepted;
      [reflexivity | exact A4 | exact A5].
  - cbn [events script servers answered slept map app List.length].
    rewrite <- !app_assoc. repeat split.
Qed.

Lemma retry_resends_rule_witness :
  let cfg := sample_cfg "web" "Host(`a.example.com`)" in
  let listed :=
    {| hf_Name := "shared-frontend"; hf_HAACLs := []; hf_ActionItems := [];
       hf_ID := 7 |} in
  let w := {| servers := fun _ => empty_remote;
              script := [Respond (reply_ok (RawFrontends [listed]));
                         Respond (reply_ok RawEmpty);
                         Dropped (Errorf "connection reset" [] None);
                         Respond (reply_ok RawEmpty);
                         Respond (reply_ok RawEmpty)];
              events := [] |} in
  exists w',
    syncFrontend (NewManager (sample_config 3)) sample_client cfg w
    = (None, w')
    /\ List.length (events w') = 6%nat.
Proof.
  intros cfg listed w.
  pose proof (fun desired Cv =>
                retry_resends_rule (NewManager (sample_config 3))
                  sample_client cfg desired w [listed] listed
                  (reply_ok (RawFrontends [listed])) (reply_ok RawEmpty)
                  (reply_ok RawEmpty) (reply_ok RawEmpty)
                  (Dropped (Errorf "connection reset" [] None)) [] Cv) as H.
  edestruct H as (w' & E & Ev & _);
    [lazy; reflexivity | simpl; lia | reflexivity
    | split; [simpl; lia | eexists; split; reflexivity]
    | lazy; reflexivity
    | split; simpl; lia
    | exact I
    | split; simpl; lia
    | split; simpl; lia
    | ].
  exists w'. split; [exact E|].
  rewrite Ev. reflexivity.
Defined.

(** ** The controller: full syncs, health, events *)

Section Controller.

Variable m : Manager.

Lemma sync_each_app (a b : list Info) (c : Counters) (w : World) :
  sync_each m (a ++ b)%list c w
  = (let '(c1, w1) := sync_each m a c w in sync_each m b c1 w1).
Proof.
  revert c w. induction a as [|i a IH]; intros c w; [reflexivity|].
  cbn [app sync_each]. unfold bind.
  destruct (Controller_syncContainer m i w) as [e w1]. apply IH.
Qed.

Lemma sync_each_syncCount (l : list Info) (c : Counters) (w : World) :
  syncCount (fst (sync_each m l c w)) = syncCount c.
Proof.
  revert c w. induction l as [|i l IH]; intros c w; [reflexivity|].
  cbn [sync_each]. unfold bind.
  destruct (Controller_syncContainer m i w) as [[err|] w1]; now rewrite IH.
Qed.

Lemma sync_each_idle (l : list Info) (c : Counters) (w : World) :
  Forall not_running l -> sync_each m l c w = (c, w).
Proof.
  induction 1 as [|i l Hi _ IH]; [reflexivity|].
  cbn [sync_each]. unfold bind, Controller_syncContainer.
  apply String.eqb_neq in Hi. rewrite Hi. exact IH.
Qed.

Lemma ListContainers_all_failed (listings : list (result (list Info))) :
  Forall (fun l => is_ok l = false) listings ->
  Manager_ListContainers listings = [].
Proof.
  induction 1 as [|[l|e] ls Hl _ IH]; [reflexivity|discriminate|exact IH].
Qed.

End Controller.

(** X15.  A full sync never fails.  The container manager always lists
    without error, so [performSync] returns nil whatever happens to the
    containers, whose failures only add to the error counter; a runtime
    whose listing fails is left out, and when all fail the sync does
    nothing.  The sync is counted once, also when the listing is an error or
    nothing is running.  Containers that are not running are skipped, and
    syncing a list is syncing its parts one after the other: a failure does
    not stop the containers after it. *)
Theorem performSync_never_fails
    (m : Manager) (listings : list (result (list Info))) (c : Counters)
    (w : World) :
  let run := performSync m (Ok (Manager_ListContainers listings)) c w in
  fst (fst run) = None
  /\ syncCount (snd (fst run)) = wrap64 (syncCount c + 1)
  /\ (Forall (fun l => is_ok l = false) listings ->
      snd run = w /\ errorCount (snd (fst run)) = errorCount c)
  /\ (forall containers,
        Forall not_running containers ->
        performSync m (Ok containers) c w
        = ((None, {| syncCount := wrap64 (syncCount c + 1);
                     errorCount := errorCount c |}), w))
  /\ (forall a b,
        sync_each m (a ++ b)%list c w
        = (let '(c1, w1) := sync_each m a c w in sync_each m b c1 w1))
  /\ (forall err,
        performSync m (Err err) c w
        = ((Some (Errorf "failed to list containers: %w" [] (Some err)),
            {| syncCount := wrap64 (syncCount c + 1);
               errorCount := errorCount c |}), w))
  /\ (forall a b,
        Manager_ListContainers (a ++ b)%list
        = (Manager_ListContainers a ++ Manager_ListContainers b)%list).
Proof.
  intros run. subst run. unfold performSync, bind.
  split.
  { now destruct (sync_each m (Manager_ListContainers listings) c w). }
  split.
  { pose proof (sync_each_syncCount m (Manager_ListContainers listings) c w)
      as H.
    destruct (sync_each m (Manager_ListContainers listings) c w) as [c1 w1].
    cbn [fst snd syncCount ret] in *. now rewrite H. }
  split.
  { intros F. rewrite (ListContainers_all_failed _ F). now split. }
  split.
  { intros containers F. now rewrite (sync_each_idle m _ c w F). }
  split; [intros a b; apply sync_each_app|].
  split; [reflexivity|].
  intros a b. induction a as [|[l|e] a IH]; [reflexivity| |exact IH].
  cbn [app Manager_ListContainers]. now rewrite IH, app_assoc.
Qed.

Section Health.

Lemma GetHAProxyBackends_answer (c : Client) (w : World) (a : Answer)
    (rest : list Answer) :
  script w = a :: rest -> a <> Deliver ->
  exists r,
    GetHAProxyBackends c w = (r, answered w rest (list_backends c))
    /\ is_ok r = listing_accepted a.
Proof.
  intros S N. unfold GetHAProxyBackends, bind.
  destruct a as [|err|resp]; [now contradiction N| |].
  - rewrite (makeRequest_dropped c _ _ _ _ _ _ S). eexists.
    split; reflexivity.
  - rewrite (makeRequest_responded c _ _ _ _ _ _ S).
    unfold decode_response, listing_accepted.
    destruct (Z.geb_spec (StatusCode resp) 400) as [H|H].
    + eexists. split; [reflexivity|]. cbn [is_ok].
      destruct (Z.ltb_spec (StatusCode resp) 400); [lia | reflexivity].
    + destruct (Z.ltb_spec (StatusCode resp) 400); [|lia]. cbn [andb].
      destruct (RespBody resp) as [r|raw]; cbn [resp_Data].
      * destruct (resp_Data r); eexists; split; reflexivity.
      * eexists. split; reflexivity.
Qed.

Lemma map_set_fresh {V : Type} (mp : gomap V) (key : string) (v : V) :
  ~ In key (map fst mp) -> map_set mp key v = (mp ++ [(key, v)])%list.
Proof.
  induction mp as [|[k v'] rest IH]; [reflexivity|].
  cbn [map fst In map_set app]. intros N.
  destruct (String.eqb k key) eqn:E.
  - apply String.eqb_eq in E. contradiction N. now left.
  - rewrite IH; [reflexivity|]. intros I. apply N. now right.
Qed.

Lemma forallb_snoc {A : Type} (p : A -> bool) (l : list A) (x : A) :
  forallb p (l ++ [x])%list = forallb p l && p x.
Proof. rewrite forallb_app. cbn [forallb]. now rewrite andb_true_r. Qed.

Lemma HealthCheck_range_scripted (cl : gomap Client) :
  forall (answers : list Answer) (res : gomap (option error)) (w : World)
         (rest : list Answer),
    NoDup (map fst cl) ->
    (forall k, In k (map fst cl) -> ~ In k (map fst res)) ->
    script w = (answers ++ rest)%list ->
    List.length answers = List.length cl ->
    Forall (fun a => a <> Deliver) answers ->
    exists results w',
      HealthCheck_range cl res w = (results, w')
      /\ forallb (fun kv => match snd kv with None => true | Some _ => false
                            end) results
         = forallb (fun kv => match snd kv with None => true | Some _ => false
                              end) res
           && forallb listing_accepted answers
      /\ map fst results = (map fst res ++ map fst cl)%list
      /\ events w'
         = (events w ++ map (fun kv => list_backends (snd kv)) cl)%list
      /\ script w' = rest /\ servers w' = servers w.
Proof.
  induction cl as [|[name c] cl IH]; intros answers res w rest ND Fr S L Fa.
  - destruct answers; [|discriminate]. exists res, w.
    split; [reflexivity|]. cbn [forallb map]. rewrite andb_true_r, !app_nil_r.
    repeat split. exact S.
  - destruct answers as [|a answers]; [discriminate|].
    inversion ND as [|? ? Hn ND']; subst. inversion Fa as [|? ? Ha Fa']; subst.
    cbn [HealthCheck_range]. unfold bind.
    destruct (GetHAProxyBackends_answer c w a (answers ++ rest)%list S Ha)
      as (r & -> & Ok_r).
    assert (Hfresh : ~ In name (map fst res)).
    { apply Fr. now left. }
    rewrite (map_set_fresh res name _ Hfresh).
    edestruct (IH answers
                 (res ++ [(name, match r with
                                 | Ok _ => None
                                 | Err err => Some err
                                 end)])%list
                 (answered w (answers ++ rest)%list (list_backends c)) rest)
      as (results & w' & E & Fb & Ks & Ev & Sc & Sv);
      [exact ND' | | reflexivity | now injection L | exact Fa' |].
    { intros k Ik. rewrite map_app, in_app_iff. cbn [map fst In].
      intros [I|[<-|[]]]; [|now apply Hn].
      apply (Fr k); [now right | exact I]. }
    exists results, w'. split; [exact E|].
    split.
    { rewrite Fb, forallb_snoc. cbn [forallb snd].
      rewrite <- Ok_r, <- andb_assoc. now destruct r. }
    split; [rewrite Ks, map_app, <- app_assoc; reflexivity|].
    split; [rewrite Ev; cbn [events answered map snd];
            now rewrite <- app_assoc|].
    split; [exact Sc | exact Sv].
Qed.

End Health.

(** X16.  The health endpoint.  [healthHandler] sends one listing of the
    backends to each client of the manager and nothing else, and answers 200
    with [OK] exactly when every listing was answered with a status below
    400 and data that decodes (the code inside the envelope is not looked
    at); otherwise it answers 503 with [Service Unavailable].  Without any
    client it answers 200. *)
Theorem healthHandler_status
    (m : Manager) (w : World) (answers rest : list Answer) :
  NoDup (map fst (clients m)) ->
  script w = (answers ++ rest)%list ->
  List.length answers = List.length (clients m) ->
  Forall (fun a => a <> Deliver) answers ->
  exists w',
    healthHandler m w
    = ((if forallb listing_accepted answers
        then (200%Z, "OK" ++ String "010" "")
        else (503%Z, "Service Unavailable" ++ String "010" "")), w')
    /\ events w'
       = (events w ++ map (fun kv => list_backends (snd kv)) (clients m))%list
    /\ script w' = rest
    /\ servers w' = servers w.
Proof.
  intros ND S L Fa.
  destruct (HealthCheck_range_scripted (clients m) answers [] w rest ND
              (fun _ _ I => I) S L Fa)
    as (results & w' & E & Fb & _ & Ev & Sc & Sv).
  exists w'. unfold healthHandler, HealthCheck, bind. rewrite E, Fb.
  cbn [forallb andb].
  split; [|repeat split; assumption].
  now destruct (forallb listing_accepted answers).
Qed.

Lemma healthHandler_status_witness :
  let w := {| servers := fun _ => empty_remote;
              script := [Respond (envelope 200 "OK" "failure" RawEmpty)];
              events := [] |} in
  fst (healthHandler (NewManager (sample_config 3)) w)
  = (200%Z, "OK" ++ String "010" "").
Proof.
  intros w.
  destruct (healthHandler_status (NewManager (sample_config 3)) w
              [Respond (envelope 200 "OK" "failure" RawEmpty)] [])
    as (w' & E & _).
  - repeat constructor. simpl. tauto.
  - reflexivity.
  - reflexivity.
  - repeat constructor. discriminate.
  - now rewrite E.
Defined.

(** X17.  What the watcher passes on.  An event is produced only for the
    actions start, stop, destroy and update, of a container whose
    [pfsense-controller.enable] label is [true], and it carries that
    container and action.  Every container that native translation accepts
    passes; a container that translates but is dropped by the watcher is one
    translated in Traefik mode. *)
Theorem watcher_filter :
  (forall action inspect event,
     handleDockerEvent action inspect = Ok (Some event) ->
     watched action /\ ev_Type event = action
     /\ inspect = Ok (ev_Container event)
     /\ exists labels,
          info_Labels (ev_Container event) = Some labels
          /\ map_get labels "pfsense-controller.enable" = Some "true")
  /\ (forall action info labels cfg,
        watched action ->
        info_Labels info = Some labels ->
        parseControllerLabels info labels = Ok cfg ->
        handleDockerEvent action (Ok info)
        = Ok (Some {| ev_Container := info; ev_Type := action |}))
  /\ (forall p action info cfg,
        watched action ->
        HAProxyParser_ParseContainer p info = Ok cfg ->
        handleDockerEvent action (Ok info) = Ok None ->
        cc_ParseMode cfg = "traefik")
  /\ (forall action inspect,
        ~ watched action -> handleDockerEvent action inspect = Ok None).
Proof.
  assert (W : forall action,
             String.eqb action "start" || String.eqb action "stop"
             || String.eqb action "destroy" || String.eqb action "update"
             = true <-> watched action).
  { intros action. unfold watched.
    rewrite !orb_true_iff, !String.eqb_eq. tauto. }
  assert (Hn : forall info labels cfg,
             info_Labels info = Some labels ->
             parseControllerLabels info labels = Ok cfg ->
             hasControllerLabels (info_Labels info) = true).
  { intros info labels cfg L P.
    apply parseControllerLabels_parts in P as (En & _).
    rewrite L. unfold hasControllerLabels, map_index.
    change ControllerEnableLabel with "pfsense-controller.enable" in En.
    now rewrite En. }
  split; [|split; [|split]].
  - intros action inspect event. unfold handleDockerEvent.
    destruct (_ || _) eqn:A; [|discriminate]. apply W in A.
    destruct inspect as [info|err]; [|discriminate].
    destruct (hasControllerLabels (info_Labels info)) eqn:H;
      [|discriminate].
    intros [= <-]. cbn [ev_Type ev_Container].
    split; [exact A|]. split; [reflexivity|]. split; [reflexivity|].
    unfold hasControllerLabels, map_index in H.
    destruct (info_Labels info) as [labels|]; [|discriminate].
    exists labels. split; [reflexivity|].
    destruct (map_get labels "pfsense-controller.enable") as [v|];
      [|discriminate].
    cbn [andb] in H. apply String.eqb_eq in H. now subst v.
  - intros action info labels cfg A L P. unfold handleDockerEvent.
    apply W in A. rewrite A, (Hn _ _ _ L P). reflexivity.
  - intros p action info cfg A P D. unfold handleDockerEvent in D.
    apply W in A. rewrite A in D.
    destruct (hasControllerLabels (info_Labels info)) eqn:H;
      [discriminate|].
    destruct (info_Labels info) as [labels|] eqn:L.
    + destruct (ParseContainer_inv p info labels cfg L P)
        as [(c0 & P0 & ->)|(c0 & _ & _ & _ & ->)]; [|reflexivity].
      rewrite <- L, (Hn _ _ _ L P0) in H. discriminate.
    + unfold HAProxyParser_ParseContainer in P. rewrite L in P. discriminate.
  - intros action inspect N. unfold handleDockerEvent.
    destruct (_ || _) eqn:A; [|reflexivity].
    apply W in A. now contradiction N.
Qed.

(** X18.  The address of a container: [GetContainerIP] returns the empty
    string exactly when no network of the container has an address;
    otherwise it returns the address of a network, not empty, the first one
    met in the order of the range. *)
Theorem GetContainerIP_first_address (info : Info) :
  (GetContainerIP info = ""
   <-> Forall (fun kv => IPAddress (snd kv) = "") (info_Networks info))
  /\ (GetContainerIP info <> "" ->
      exists before name network after,
        info_Networks info = (before ++ (name, network) :: after)%list
        /\ IPAddress network = GetContainerIP info
        /\ Forall (fun kv => IPAddress (snd kv) = "") before).
Proof.
  unfold GetContainerIP. induction (info_Networks info) as [|[n net] l IH].
  - split; [split; [constructor | reflexivity]|]. intros N.
    now contradiction N.
  - cbn [first_ip]. destruct (String.eqb (IPAddress net) "") eqn:E.
    + apply String.eqb_eq in E. cbn [negb]. destruct IH as [IH1 IH2].
      split.
      * rewrite IH1. split; [intros F; now constructor|].
        intros F. now inversion F.
      * intros N. destruct (IH2 N) as (b & k & x & a & -> & Hx & Fb).
        exists ((n, net) :: b)%list, k, x, a.
        split; [reflexivity|]. split; [exact Hx|]. now constructor.
    + apply String.eqb_neq in E. cbn [negb]. split.
      * split; [intros H; now contradiction E|].
        intros F. inversion F as [|? ? H _]. exact H.
      * intros _. exists [], n, net, l. repeat split. constructor.
Qed.

Section Stats.

Lemma GetHAProxyBackends_events (c : Client) (w : World)
    (r : result (list HAProxyBackend)) (w' : World) :
  GetHAProxyBackends c w = (r, w') ->
  events w' = (events w ++ [list_backends c])%list.
Proof.
  unfold GetHAProxyBackends, bind.
  destruct (makeRequest c "GET" _ BodyNil w) as [r0 w0] eqn:E.
  apply makeRequest_events in E.
  destruct r0 as [resp|err]; [destruct (resp_Data resp)|];
    unfold ret; intros [= <- <-]; exact E.
Qed.

Lemma GetHAProxyFrontends_events (c : Client) (w : World)
    (r : result (list HAProxyFrontend)) (w' : World) :
  GetHAProxyFrontends c w = (r, w') ->
  events w' = (events w ++ [list_frontends c])%list.
Proof.
  unfold GetHAProxyFrontends, bind.
  destruct (makeRequest c "GET" _ BodyNil w) as [r0 w0] eqn:E.
  apply makeRequest_events in E.
  destruct r0 as [resp|err]; [destruct (resp_Data resp)|];
    unfold ret; intros [= <- <-]; exact E.
Qed.

Lemma endpoint_stats_consistent (c : Client) (w : World)
    (st : EndpointStats) (w' : World) :
  endpoint_stats c w = (st, w') ->
  stats_consistent st
  /\ events w' = (events w ++ [list_backends c; list_frontends c])%list.
Proof.
  unfold endpoint_stats, bind.
  destruct (GetHAProxyBackends c w) as [rb w1] eqn:B.
  destruct (GetHAProxyFrontends c w1) as [rf w2] eqn:F.
  apply GetHAProxyBackends_events in B.
  apply GetHAProxyFrontends_events in F.
  unfold ret. unfold stats_consistent.
  destruct rb as [bs|eb]; destruct rf as [fs|ef]; intros [= <- <-];
    cbn [backend_count frontend_count stats_error];
    (split; [|now rewrite F, B, <- app_assoc]);
    (split; [lia|]); (split; [lia|]);
    (split; [try discriminate; intros _; split; lia
            |try reflexivity; intros [? ?]; lia]).
Qed.

Lemma map_set_keys {V : Type} (mp : gomap V) (key : string) (v : V)
    (k : string) :
  In k (map fst (map_set mp key v)) <-> k = key \/ In k (map fst mp).
Proof.
  induction mp as [|[k0 v0] rest IH]; cbn [map_set map fst In].
  - intuition congruence.
  - destruct (String.eqb k0 key) eqn:E; cbn [map fst In].
    + apply String.eqb_eq in E. subst k0. intuition congruence.
    + rewrite IH. intuition congruence.
Qed.

Lemma map_set_Forall {V : Type} (P : string * V -> Prop) (mp : gomap V)
    (key : string) (v : V) :
  Forall P mp -> (forall k, P (k, v)) -> Forall P (map_set mp key v).
Proof.
  intros F Pv. induction F as [|[k0 v0] rest H0 F IH]; cbn [map_set].
  - constructor; [apply Pv | constructor].
  - destruct (String.eqb k0 key); constructor; auto.
Qed.

Lemma GetStats_range_consistent (cl : gomap Client) :
  forall (stats : gomap EndpointStats) (w : World)
         (result : gomap EndpointStats) (w' : World),
    Forall (fun kv => stats_consistent (snd kv)) stats ->
    GetStats_range cl stats w = (result, w') ->
    Forall (fun kv => stats_consistent (snd kv)) result
    /\ (forall k, In k (map fst result)
                  <-> In k (map fst stats) \/ In k (map fst cl))
    /\ events w'
       = (events w
          ++ flat_map (fun kv => [list_backends (snd kv);
                                  list_frontends (snd kv)]) cl)%list.
Proof.
  induction cl as [|[name c] cl IH]; intros stats w result w' F.
  - intros [= <- <-]. split; [exact F|]. split; [cbn; tauto|].
    cbn [flat_map]. now rewrite app_nil_r.
  - cbn [GetStats_range]. unfold bind.
    destruct (endpoint_stats c w) as [st w1] eqn:E.
    apply endpoint_stats_consistent in E as [C Ev].
    intros R. apply IH in R as (F' & K & Ev').
    + split; [exact F'|]. split.
      * intros k. rewrite K, map_set_keys. cbn [map fst In].
        intuition congruence.
      * rewrite Ev', Ev. cbn [flat_map snd app].
        now rewrite <- !app_assoc.
    + apply map_set_Forall; [exact F | intros k; exact C].
Qed.

End Stats.

(** X21.  The statistics.  [GetStats] sends each client the listing of the
    backends and then the listing of the frontends, and nothing else; it has
    an entry for every client and only for them; in every entry a count is a
    length or -1, and the error is present exactly when one of the two
    counts is -1. *)
Theorem GetStats_entries (m : Manager) (w : World) :
  let stats := fst (GetStats m w) in
  let w' := snd (GetStats m w) in
  Forall (fun kv => stats_consistent (snd kv)) stats
  /\ (forall name, In name (map fst stats)
                   <-> In name (map fst (clients m)))
  /\ events w'
     = (events w
        ++ flat_map (fun kv => [list_backends (snd kv);
                                list_frontends (snd kv)]) (clients m))%list.
Proof.
  cbv zeta. unfold GetStats.
  destruct (GetStats_range (clients m) [] w) as [stats w'] eqn:R.
  apply GetStats_range_consistent in R as (F & K & Ev); [|constructor].
  cbn [fst snd]. split; [exact F|]. split; [|exact Ev].
  intros name. rewrite K. cbn [map In]. tauto.
Qed.

(** ** Errors that come out, and errors that never do *)

Section Reachable.

(** A backend configuration that got through the health check passes the
    checks of [validateConfig] on the backend. *)
Lemma backend_validates (c0 : BackendConfig) (labels : gomap string)
    (c' : BackendConfig) (directive : string) :
  bc_Name c0 <> "" -> Atoi (bc_Port c0) <> None -> bc_Address c0 <> "" ->
  bc_CheckType c0
  = getStringLabel labels ControllerBackendCheckTypeLabel "basic" ->
  configureHealthCheck c0 labels = (None, c') ->
  let bc := set_BackendPassThru c' directive in
  bc_Name bc <> "" /\ bc_Port bc <> "" /\ bc_Address bc <> ""
  /\ String.eqb (bc_CheckType bc) HTTPValue
     && String.eqb (bc_HealthCheckPath bc) "" = false.
Proof.
  intros Hn Hp Ha Ht HC.
  destruct (configureHealthCheck_keeps _ _ _ _ HC) as (K1 & _ & K3 & K4 & _).
  pose proof (configureHealthCheck_verdict c0 labels Ht) as V.
  rewrite HC in V. destruct V as [_ V].
  cbn [set_BackendPassThru bc_Name bc_Port bc_Address bc_CheckType
       bc_HealthCheckPath].
  rewrite K1, K3, K4. repeat split; try assumption.
  intros E. rewrite E in Hp. now apply Hp.
Qed.

Lemma assemble_config_error (endpoint : string) (bc : BackendConfig)
    (msg : string) (labels : gomap string) (e : error) :
  bc_Name bc <> "" -> bc_Port bc <> "" -> bc_Address bc <> "" ->
  String.eqb (bc_CheckType bc) HTTPValue
  && String.eqb (bc_HealthCheckPath bc) "" = false ->
  getStringLabel labels ControllerFrontendRuleLabel "" <> "" ->
  assemble_config endpoint (Ok bc) msg labels <> Err e.
Proof.
  intros H1 H2 H3 H4 Hr. unfold assemble_config.
  destruct (frontend_config_ok labels Hr) as (fc & -> & Ef).
  rewrite validateConfig_passes; [discriminate| | | | |]; try assumption.
  now rewrite Ef.
Qed.

Lemma retry_from_error (m : Manager) (operation : M (option error)) :
  forall remaining attempt lastErr w e w',
    retry_from m remaining attempt lastErr operation w = (Some e, w') ->
    format_of e = "operation failed after %d attempts, last error: %w".
Proof.
  induction remaining as [|n IH]; intros attempt lastErr w e w'.
  - now intros [= <- _].
  - cbn [retry_from].
    destruct (operation _) as [[err|] w1]; [apply IH | discriminate].
Qed.

End Reachable.

(** X19.  Errors that never come out.  Native translation fails in one of
    three ways only: the controller is not enabled, a required label is
    missing, or the backend configuration does not parse; neither the
    parsing of the frontend nor the final validation ever rejects, and the
    port check of the backend parser never fires, the missing port being
    reported before it.  Traefik translation too fails only for a flag not
    enabled, a missing required label or its backend configuration.  And
    [syncFrontend] never reports a missing ACL or action. *)
Theorem translation_error_kinds :
  (forall info labels e,
     parseControllerLabels info labels = Err e ->
     (e = Errorf "controller not enabled for container" [] None
      \/ (format_of e = "missing required labels: %w"
          /\ Unwrap e = validateRequiredLabels labels /\ Unwrap e <> None)
      \/ (format_of e = "failed to parse backend config: %w"
          /\ exists cause,
               Unwrap e = Some cause
               /\ parseControllerBackendConfig info labels = Err cause
               /\ format_of cause <> "backend port is required")))
  /\ (forall info labels e,
        parseTraefikLabels info labels = Err e ->
        (e = Errorf "traefik not enabled for container" [] None
         \/ (format_of e = "missing required labels for Traefik mode: %w"
             /\ Unwrap e = validateTraefikRequiredLabels labels
             /\ Unwrap e <> None)
         \/ (format_of e = "failed to parse traefik backend config: %w"
             /\ exists cause,
                  Unwrap e = Some cause
                  /\ parseTraefikBackendConfig info labels = Err cause)))
  /\ (forall m c cfg w e,
        fst (syncFrontend m c cfg w) = Some e ->
        format_of e <> "missing ACL or action in frontend configuration").
Proof.
  split; [|split].
  - intros info labels e. unfold parseControllerLabels.
    destruct (map_index labels ControllerEnableLabel) as [enabled ex].
    destruct (negb ex || negb (String.eqb enabled TrueValue));
      [intros [= <-]; now left|].
    destruct (validateRequiredLabels labels) as [missing|] eqn:V.
    { intros [= <-]. right. left. split; [reflexivity|].
      split; [reflexivity | discriminate]. }
    unfold validateRequiredLabels in V.
    destruct (String.eqb (getStringLabel labels ControllerBackendPortLabel "")
                "") eqn:Ep; [discriminate|].
    destruct (String.eqb (getStringLabel labels ControllerFrontendRuleLabel "")
                "") eqn:Er; [discriminate|].
    apply String.eqb_neq in Er.
    destruct (parseControllerBackendConfig info labels) as [bc|cause] eqn:B.
    + intros A. exfalso.
      apply parseControllerBackendConfig_inv in B
        as (At & Ip & c' & HC & ->).
      revert A. apply assemble_config_error; try exact Er;
        eapply backend_validates; try exact HC; try reflexivity;
        try assumption; apply backend_name_nonempty.
    + cbn [assemble_config]. intros [= <-]. right. right.
      split; [reflexivity|]. exists cause. split; [reflexivity|].
      split; [reflexivity|].
      unfold parseControllerBackendConfig in B. rewrite Ep in B.
      destruct (Atoi _); [|now injection B as <-].
      destruct (String.eqb (GetContainerIP info) "");
        [now injection B as <-|].
      destruct (configureHealthCheck _ labels) as [[err|] c'];
        [now injection B as <- | discriminate].
  - intros info labels e. unfold parseTraefikLabels.
    destruct (map_index labels TraefikEnableLabel) as [enabled ex].
    destruct (negb ex || negb (String.eqb enabled TrueValue));
      [intros [= <-]; now left|].
    destruct (validateTraefikRequiredLabels labels) as [missing|] eqn:V.
    { intros [= <-]. right. left. split; [reflexivity|].
      split; [reflexivity | discriminate]. }
    unfold validateTraefikRequiredLabels in V.
    destruct (negb (existsb _ labels)); [discriminate|].
    destruct (String.eqb (getStringLabel labels ControllerFrontendRuleLabel "")
                "") eqn:Er; [discriminate|].
    apply String.eqb_neq in Er.
    destruct (parseTraefikBackendConfig info labels) as [bc|cause] eqn:B.
    + intros A. exfalso.
      apply parseTraefikBackendConfig_inv in B
        as (key & c0 & c' & _ & _ & Nm & _ & At & Ad & Ip & Ct & HC & ->).
      revert A. apply assemble_config_error; try exact Er;
        eapply backend_validates; try exact HC; try assumption.
      * rewrite Nm. destruct (String.eqb _ ""); apply append_nonempty;
          discriminate.
      * now rewrite Ad.
      * rewrite Nm. destruct (String.eqb _ ""); apply append_nonempty;
          discriminate.
      * now rewrite Ad.
      * rewrite Nm. destruct (String.eqb _ ""); apply append_nonempty;
          discriminate.
      * now rewrite Ad.
      * rewrite Nm. destruct (String.eqb _ ""); apply append_nonempty;
          discriminate.
      * now rewrite Ad.
    + cbn [assemble_config]. intros [= <-]. right. right.
      split; [reflexivity|]. exists cause. now split.
  - intros m c cfg w e. unfold syncFrontend.
    destruct (ConvertToHAProxyFrontend cfg) as [desired|err] eqn:Cv;
      [|intros [= <-]; discriminate].
    destruct (ConvertToHAProxyFrontend_inv _ _ Cv) as (ex & v & _ & ->).
    unfold bind. cbn [hf_Name hf_HAACLs hf_ActionItems].
    destruct (FindFrontendByName c _ w) as [[[existing|]|err] w1];
      [| |intros [= <-]; discriminate].
    + destruct (retryOperation m _ w1) as [[e'|] w2] eqn:R;
        [|discriminate].
      intros [= <-]. apply retry_from_error in R. rewrite R. discriminate.
    + destruct (retryOperation m _ w1) as [[e'|] w2] eqn:R;
        [|discriminate].
      intros [= <-]. apply retry_from_error in R. rewrite R. discriminate.
Qed.

(** X20.  A rule that does not parse leaves a backend behind.  Such a
    container translates, so [SyncContainer] first syncs its backend, here
    creating it, and only then fails on the rule: it returns the parse error
    wrapped three times, after the lookup and the create of the backend and
    without any frontend or apply request. *)
Theorem unparsable_rule_writes_backend
    (m : Manager) (info : Info) (cfg : ContainerConfig) (c : Client)
    (w : World) (bs : list HAProxyBackend) (r1 r2 : HTTPResponse)
    (rest : list Answer) :
  Parser_ParseContainer (parser m) info = Ok cfg ->
  getClient m (cc_EndpointName cfg) = Some c ->
  is_ok (parseRule (fc_Rule (cc_FrontendConfig cfg))) = false ->
  (1 <= RetryAttempts (Global (config m)))%Z ->
  script w = ([Respond r1; Respond r2] ++ rest)%list ->
  lists_backends r1 bs ->
  Forall (fun b => hb_Name b <> bc_Name (cc_BackendConfig cfg)) bs ->
  accepted r2 ->
  exists w',
    SyncContainer m info w
    = (Some (Errorf "failed to sync frontend: %w" []
         (Some (Errorf "failed to convert to HAProxy frontend: %w" []
            (Some (Errorf "failed to parse frontend rule: %w" []
               (Some (Errorf "unsupported rule format: %s"
                        [ArgS (fc_Rule (cc_FrontendConfig cfg))] None))))))),
       w')
    /\ events w'
       = (events w
          ++ [list_backends c;
              create_backend c (ConvertToHAProxyBackend cfg)])%list
    /\ script w' = rest.
Proof.
  intros P G Pr HN S L1 N1 A2.
  eexists. unfold SyncContainer. rewrite P, G.
  unfold bind at 1. unfold syncBackend. unfold bind at 1.
  rewrite (FindBackendByName_listed c _ w r1 bs _ S L1).
  assert (find (fun b => String.eqb (hb_Name b)
                           (hb_Name (ConvertToHAProxyBackend cfg))) bs = None)
    as ->.
  { clear -N1. induction N1 as [|b l Hb _ IH]; [reflexivity|].
    cbn [find]. apply String.eqb_neq in Hb.
    now rewrite ConvertToHAProxyBackend_name in *; rewrite Hb. }
  unfold CreateHAProxyBackend.
  erewrite retryOperation_first_success;
    [|exact HN | eapply call_accepted; [reflexivity | exact A2]].
  unfold bind at 1. unfold syncFrontend, ConvertToHAProxyFrontend.
  assert (parseRule (fc_Rule (cc_FrontendConfig cfg))
          = Err (Errorf "unsupported rule format: %s"
                   [ArgS (fc_Rule (cc_FrontendConfig cfg))] None)) as ->.
  { unfold parseRule in *.
    destruct (FindStringSubmatch "Host" _); [discriminate|].
    destruct (FindStringSubmatch "PathPrefix" _); [discriminate|].
    destruct (FindStringSubmatch "Path" _); [discriminate|reflexivity]. }
  split; [reflexivity|]. cbn [events script answered].
  rewrite <- !app_assoc. split; reflexivity.
Qed.

Lemma unparsable_rule_writes_backend_witness :
  let w := {| servers := fun _ => empty_remote;
              script := [Respond (reply_ok (RawBackends []));
                         Respond (reply_ok RawEmpty)];
              events := [] |} in
  List.length
    (events (snd (SyncContainer (NewManager (sample_config 3))
                    (sample_container "web" (native_labels "example.com"))
                    w))) = 2%nat.
Proof.
  intros w.
  pose proof (fun cfg c P G Pr =>
                unparsable_rule_writes_backend (NewManager (sample_config 3))
                  (sample_container "web" (native_labels "example.com"))
                  cfg c w [] (reply_ok (RawBackends [])) (reply_ok RawEmpty)
                  [] P G Pr) as H.
  edestruct H as (w' & E & Ev & _);
    [lazy; reflexivity | lazy; reflexivity | lazy; reflexivity
    | simpl; lia | reflexivity
    | split; [simpl; lia | eexists; split; reflexivity]
    | constructor
    | split; simpl; lia
    | ].
  rewrite E. cbn [snd]. now rewrite Ev.
Defined.
